(** * Widevine proxy: envelope construction, signing and response decoding

    A shallow embedding of the Go package [widevineproxy]: the constants,
    the interface [KeyGoverner] and the struct [Proxy] of [widevine.go], the
    signer [generateSignature], the endpoint resolver
    [getCloudLicenseServiceURL], the license path [buildLicenseMessage] and
    [GetLicense] with the response [LicenseResponse], and the content-key
    path [setPolicy], [buildCKMessage] and [GetContentKey]; together with
    the parts of the Go standard library they call: [encoding/base64],
    [encoding/json], [strconv], [crypto/md5], [crypto/sha1], [crypto/aes]
    with CBC chaining, [strings.ToLower] and [unicode/utf8].
    The library is modelled so far as to be run: the models are checked
    against published test vectors and against the signature the test of the
    package expects.

    Conventions.
    - A Go [string] is a [string]; a Go [[]byte] is a [list byte].
      [bytes_of_string] is the conversion [[]byte(s)], [string_of_bytes] is
      [string(b)].
    - Numbers inside the codecs and the ciphers are [Z] with the wrap-around
      written out.
    - A Go [map[string]T] is a [gmap string T].
    - A Go function returning [(T, error)] returns [result T]. *)

From Stdlib Require Import ZArith Lia List Strings.String Strings.Ascii Strings.Byte.
From coqutil Require Import Z.prove_Zeq_bitwise.
From stdpp Require Import base option list gmap strings sorting.

Set Warnings "-register-all".

Open Scope string_scope.
Open Scope list_scope.
Open Scope Z_scope.

(** ** Bytes *)

Module Bytes.

Definition to_Z (b : byte) : Z := Z.of_N (Byte.to_N b).

Definition of_Z (z : Z) : byte :=
  match Byte.of_N (Z.to_N (z mod 256)) with
  | Some b => b
  | None => x00
  end.

Definition bytes_of_string (s : string) : list byte := list_byte_of_string s.
Definition string_of_bytes (b : list byte) : string := string_of_list_byte b.

(** The range of a byte. *)
Definition is_byte (z : Z) : Prop := 0 <= z < 256.

Definition codes (s : string) : list Z := map to_Z (bytes_of_string s).
Definition of_codes (l : list Z) : string := string_of_bytes (map of_Z l).

End Bytes.

(** ** [unicode/utf8]: decoding and encoding of runes

  Runes and bytes are [Z]; a string is handled through its byte codes. *)

Module Utf8.

Definition RuneError : Z := 0xFFFD.
Definition MaxRune : Z := 0x10FFFF.
Definition RuneSelf : Z := 0x80.

Definition between (lo hi b : Z) : bool := (lo <=? b) && (b <=? hi).
Definition cont (b : Z) : bool := between 0x80 0xBF b.
Definition low6 (b : Z) : Z := Z.land b 0x3F.

(** [utf8.DecodeRune]: the first rune of [p] and its width in bytes;
  [(RuneError, 0)] on empty input, [(RuneError, 1)] on an encoding that is
  invalid, too short, over-long or out of range. *)
Definition DecodeRune (p : list Z) : Z * nat :=
  match p with
  | [] => (RuneError, 0%nat)
  | b0 :: r =>
    if b0 <? RuneSelf then (b0, 1%nat)
    else if between 0xC2 0xDF b0 then
      match r with
      | b1 :: _ =>
        if cont b1
        then (Z.lor (Z.shiftl (Z.land b0 0x1F) 6) (low6 b1), 2%nat)
        else (RuneError, 1%nat)
      | _ => (RuneError, 1%nat)
      end
    else if between 0xE0 0xEF b0 then
      let lo := if b0 =? 0xE0 then 0xA0 else 0x80 in
      let hi := if b0 =? 0xED then 0x9F else 0xBF in
      match r with
      | b1 :: b2 :: _ =>
        if between lo hi b1 && cont b2
        then (Z.lor (Z.shiftl (Z.land b0 0x0F) 12)
                (Z.lor (Z.shiftl (low6 b1) 6) (low6 b2)), 3%nat)
        else (RuneError, 1%nat)
      | _ => (RuneError, 1%nat)
      end
    else if between 0xF0 0xF4 b0 then
      let lo := if b0 =? 0xF0 then 0x90 else 0x80 in
      let hi := if b0 =? 0xF4 then 0x8F else 0xBF in
      match r with
      | b1 :: b2 :: b3 :: _ =>
        if between lo hi b1 && cont b2 && cont b3
        then (Z.lor (Z.shiftl (Z.land b0 0x07) 18)
                (Z.lor (Z.shiftl (low6 b1) 12)
                   (Z.lor (Z.shiftl (low6 b2) 6) (low6 b3))), 4%nat)
        else (RuneError, 1%nat)
      | _ => (RuneError, 1%nat)
      end
    else (RuneError, 1%nat)
  end.

(** [utf8.AppendRune] on an empty buffer: a negative rune, a surrogate and a
  rune above [MaxRune] are written as [RuneError]. *)
Definition EncodeRune (r : Z) : list Z :=
  if between 0 0x7F r then [r]
  else if between 0x80 0x7FF r then
    [Z.lor 0xC0 (Z.shiftr r 6); Z.lor 0x80 (low6 r)]
  else if (r <? 0) || (MaxRune <? r) || between 0xD800 0xDFFF r then
    [0xEF; 0xBF; 0xBD]
  else if r <=? 0xFFFF then
    [Z.lor 0xE0 (Z.shiftr r 12); Z.lor 0x80 (low6 (Z.shiftr r 6));
     Z.lor 0x80 (low6 r)]
  else
    [Z.lor 0xF0 (Z.shiftr r 18); Z.lor 0x80 (low6 (Z.shiftr r 12));
     Z.lor 0x80 (low6 (Z.shiftr r 6)); Z.lor 0x80 (low6 r)].

(** The runes a [for _, c := range s] loop visits, each with its width.
  [skip] counts the bytes of the current rune still to be passed over. *)
Fixpoint runes_from (skip : nat) (p : list Z) : list (Z * nat) :=
  match p with
  | [] => []
  | _ :: rest =>
    match skip with
    | S k => runes_from k rest
    | O =>
      let '(r, w) := DecodeRune p in
      (r, w) :: runes_from (Nat.pred w) rest
    end
  end.

Definition runes (p : list Z) : list (Z * nat) := runes_from 0 p.

End Utf8.

(** ** [strings.ToLower] *)

Module Strings.

Definition is_ascii (p : list Z) : bool := forallb (fun c => c <? Utf8.RuneSelf) p.

Definition lower_ascii (c : Z) : Z :=
  if Utf8.between 0x41 0x5A c then c + 32 else c.

Section Case.

(** [unicode.To(unicode.LowerCase, r)]: the lookup in the case tables of
    the Go runtime for a rune above [unicode.MaxASCII].  The tables are data
    of the runtime and are taken as a parameter. *)
Variable to_LowerCase : Z -> Z.

(** [unicode.ToLower]. *)
Definition unicode_ToLower (r : Z) : Z :=
  if r <=? 0x7F then lower_ascii r else to_LowerCase r.

(** [strings.Map]: a negative result drops the rune; an invalid byte is
    visited as [RuneError]. *)
Definition Map (mapping : Z -> Z) (p : list Z) : list Z :=
  flat_map (fun '(c, _) =>
              let r := mapping c in
              if r <? 0 then [] else Utf8.EncodeRune r)
           (Utf8.runes p).

(** [strings.ToLower]: the ASCII fast path lowers byte by byte; any other
    string goes through [strings.Map(unicode.ToLower, s)]. *)
Definition ToLower (s : string) : string :=
  let p := Bytes.codes s in
  if is_ascii p
  then Bytes.of_codes (map lower_ascii p)
  else Bytes.of_codes (Map unicode_ToLower p).

End Case.

(** The path segment after the last slash of a URL. *)
Fixpoint last_segment_from (acc : string) (s : string) : string :=
  match s with
  | EmptyString => acc
  | String c rest =>
    if Ascii.eqb c "/" then last_segment_from rest rest
    else last_segment_from acc rest
  end.

Definition last_segment (s : string) : string := last_segment_from s s.

End Strings.

(** ** [widevine.go]: service URLs *)

Definition widevineModularUATGetLicenseURL : string :=
  "https://license.uat.widevine.com/cenc/getlicense/".
Definition widevineModularUATGetKeyURL : string :=
  "https://license.uat.widevine.com/cenc/getcontentkey/".

Definition widevineModularStagingGetLicenseURL : string :=
  "https://license.staging.widevine.com/cenc/getlicense/".
Definition widevineModularStagingGetKeyURL : string :=
  "https://license.staging.widevine.com/cenc/getcontentkey/".

Definition widevineModularProductionGetLicenseURL : string :=
  "https://license.widevine.com/cenc/getlicense/".
Definition widevineModularProductionGetKeyURL : string :=
  "https://license.widevine.com/cenc/getcontentkey/".

Definition widevineClassicStagingGetLicenseURL : string :=
  "https://license.staging.widevine.com/cas/getlicense/".
Definition widevineClassicStagingGetKeyURL : string :=
  "https://license.staging.widevine.com/cas/getcontentkey/".

(** ** The endpoint resolver *)

Section Resolver.

Variable to_LowerCase : Z -> Z.

Definition getCloudLicenseServiceURL (provider purpose : string) : string :=
  if String.eqb (Strings.ToLower to_LowerCase purpose) "key" then
    if String.eqb provider "widevine_test"
    then widevineModularUATGetKeyURL +:+ "widevine_test"
    else widevineModularProductionGetKeyURL +:+ "widevine_test"
  else if String.eqb (Strings.ToLower to_LowerCase purpose) "license" then
    if String.eqb provider "widevine_test"
    then widevineModularUATGetLicenseURL +:+ "widevine_test"
    else widevineModularProductionGetLicenseURL +:+ "widevine_test"
  else "".

End Resolver.

(** ** Errors

    One constructor per dynamic type of a Go [error] value the package can
    return.  A Go function returning [(T, error)] returns a [result T]; a
    Go [error] that may be [nil] is an [option error]. *)

(** The message of a [*json.SyntaxError].  The scanner formats it from the
    offending byte and the context it was met in. *)
Inductive syntax_msg : Type :=
| InvalidCharacter (c : Z) (context : string)
| UnexpectedEnd.

Inductive error : Type :=
| CorruptInputError (offset : Z)
    (** [base64.CorruptInputError] *)
| KeySizeError (size : Z)
    (** [aes.KeySizeError]: the cipher rejects the key length *)
| IVSizeError (size : Z)
    (** the cipher rejects the length of the initialisation vector *)
| SyntaxError (msg : syntax_msg) (offset : Z)
    (** [*json.SyntaxError] *)
| UnmarshalTypeError (value : string) (type : string) (field : string)
    (** [*json.UnmarshalTypeError]: a JSON value of kind [value] met where
        the Go type [type] is expected, in struct field [field] *)
| ErrEOF
    (** [io.EOF] *)
| ErrUnexpectedEOF
    (** [io.ErrUnexpectedEOF] *)
| ErrorString (msg : string)
    (** the value of [fmt.Errorf] or [errors.New] *)
| UrlError (op url cause : string).
    (** [*url.Error], what [http.Client.Do] fails with *)

(** The errors [encoding/json] returns: its own and those of the reader. *)
Definition is_json_error (e : error) : bool :=
  match e with
  | SyntaxError _ _ | UnmarshalTypeError _ _ _ | ErrEOF | ErrUnexpectedEOF => true
  | _ => false
  end.

(** What the scanner keeps as its error: nothing, or a syntax error. *)
Definition syntax_or_none (o : option error) : Prop :=
  match o with
  | None | Some (SyntaxError _ _) => True
  | _ => False
  end.

(** What a typed decoder keeps as its error: nothing, or a type error. *)
Definition type_error_or_none (o : option error) : Prop :=
  match o with
  | None | Some (UnmarshalTypeError _ _ _) => True
  | _ => False
  end.

Inductive result (T : Type) : Type :=
| Ok (v : T)
| Err (e : error).

Arguments Ok {T} v.
Arguments Err {T} e.

(** ** [encoding/base64]: the standard encoding with padding *)

Module Base64.

Definition encodeStd : string :=
  "ABCDEFGHIJKLMNOPQRSTUVWXYZabcdefghijklmnopqrstuvwxyz0123456789+/".

Definition padChar : Z := 61.

(** The character of a six-bit value. *)
Definition enc6 (v : Z) : Z := List.nth (Z.to_nat v) (Bytes.codes encodeStd) 0.

(** [decodeMap]: the six-bit value of a character of the alphabet. *)
Definition dec6 (c : Z) : option Z :=
  if Utf8.between 65 90 c then Some (c - 65)
  else if Utf8.between 97 122 c then Some (c - 71)
  else if Utf8.between 48 57 c then Some (c + 4)
  else if c =? 43 then Some 62
  else if c =? 47 then Some 63
  else None.

Definition sextet (val : Z) (shift : Z) : Z :=
  enc6 (Z.land (Z.shiftr val shift) 0x3F).

(** [Encoding.Encode]: three bytes become four characters; a remainder of
    one or two bytes is padded. *)
Fixpoint Encode (src : list Z) : list Z :=
  match src with
  | a :: b :: c :: rest =>
    let val := Z.lor (Z.shiftl a 16) (Z.lor (Z.shiftl b 8) c) in
    sextet val 18 :: sextet val 12 :: sextet val 6 :: sextet val 0
      :: Encode rest
  | [a; b] =>
    let val := Z.lor (Z.shiftl a 16) (Z.shiftl b 8) in
    [sextet val 18; sextet val 12; sextet val 6; padChar]
  | [a] =>
    let val := Z.shiftl a 16 in
    [sextet val 18; sextet val 12; padChar; padChar]
  | [] => []
  end.

Definition is_newline (c : Z) : bool := (c =? 10) || (c =? 13).

Fixpoint skip_newlines (src : list Z) (si : Z) : list Z * Z :=
  match src with
  | c :: rest => if is_newline c then skip_newlines rest (si + 1) else (src, si)
  | [] => ([], si)
  end.

Definition octet (val : Z) (shift : Z) : Z :=
  Z.land (Z.shiftr val shift) 0xFF.

(** The 24-bit value of the sextets read so far (at most four). *)
Definition quantum_val (dbuf : list Z) : Z :=
  Z.lor (Z.shiftl (List.nth 0 dbuf 0) 18)
    (Z.lor (Z.shiftl (List.nth 1 dbuf 0) 12)
       (Z.lor (Z.shiftl (List.nth 2 dbuf 0) 6) (List.nth 3 dbuf 0))).

(** The bytes a quantum of [dlen] sextets yields: [dlen - 1] of them. *)
Definition quantum_bytes (dlen : nat) (dbuf : list Z) : list Z :=
  let val := quantum_val dbuf in
  match dlen with
  | 4%nat => [octet val 16; octet val 8; octet val 0]
  | 3%nat => [octet val 16; octet val 8]
  | 2%nat => [octet val 16]
  | _ => []
  end.

(** After the padding of a quantum only line breaks may follow; anything
    else is reported as trailing garbage, the quantum still being
    delivered. *)
Definition trailing (rest : list Z) (si : Z) : option Z :=
  let '(r, si') := skip_newlines rest si in
  match r with
  | [] => None
  | _ => Some si'
  end.

(** [Encoding.Decode], the loop over [decodeQuantum]: [si] is the index of
    the next character, [dbuf] holds the sextets of the current quantum.
    The result is the bytes decoded before the input ended or went wrong,
    and the offset of the corruption if there is one. *)
Fixpoint decode_from (src : list Z) (si : Z) (dbuf : list Z)
  : list Z * option Z :=
  match src with
  | [] =>
    match dbuf with
    | [] => ([], None)
    | _ => ([], Some (si - Z.of_nat (length dbuf)))
    end
  | c :: rest =>
    match dec6 c with
    | Some v =>
      if (length dbuf =? 3)%nat then
        let '(out, e) := decode_from rest (si + 1) [] in
        (quantum_bytes 4 (dbuf ++ [v]) ++ out, e)
      else decode_from rest (si + 1) (dbuf ++ [v])
    | None =>
      if is_newline c then decode_from rest (si + 1) dbuf
      else if negb (c =? padChar) then ([], Some si)
      else
        match length dbuf with
        | 0%nat | 1%nat => ([], Some si)
        | 2%nat =>
          let '(r2, si2) := skip_newlines rest (si + 1) in
          match r2 with
          | [] => ([], Some si2)
          | c2 :: r3 =>
            if negb (c2 =? padChar) then ([], Some (si2 - 1))
            else (quantum_bytes 2 dbuf, trailing r3 (si2 + 1))
          end
        | _ => (quantum_bytes 3 dbuf, trailing rest (si + 1))
        end
    end
  end.

Definition Decode (src : list Z) : list Z * option Z := decode_from src 0 [].

(** [base64.StdEncoding.EncodeToString]. *)
Definition EncodeToString (src : list byte) : string :=
  Bytes.of_codes (Encode (map Bytes.to_Z src)).

(** [base64.StdEncoding.DecodeString]: on corrupt input the bytes decoded so
    far come back together with the error. *)
Definition DecodeString (s : string) : list byte * option error :=
  let '(out, e) := Decode (Bytes.codes s) in
  (map Bytes.of_Z out, option_map CorruptInputError e).

End Base64.

(** ** 32-bit words, as the hash functions use them *)

Module Word.

Definition w32 (x : Z) : Z := Z.land x 0xFFFFFFFF.
Definition add32 (x y : Z) : Z := w32 (x + y).
Definition not32 (x : Z) : Z := Z.lxor (w32 x) 0xFFFFFFFF.

(** [bits.RotateLeft32]. *)
Definition rotl (x n : Z) : Z :=
  w32 (Z.lor (Z.shiftl x n) (Z.shiftr (w32 x) (32 - n))).

Definition byte_at (x shift : Z) : Z := Z.land (Z.shiftr x shift) 0xFF.

Definition to_be32 (x : Z) : list Z :=
  [byte_at x 24; byte_at x 16; byte_at x 8; byte_at x 0].
Definition to_le32 (x : Z) : list Z :=
  [byte_at x 0; byte_at x 8; byte_at x 16; byte_at x 24].
Definition to_be64 (x : Z) : list Z :=
  to_be32 (Z.shiftr x 32) ++ to_be32 x.
Definition to_le64 (x : Z) : list Z :=
  to_le32 x ++ to_le32 (Z.shiftr x 32).

Definition of_be (bs : list Z) : Z :=
  fold_left (fun acc b => Z.lor (Z.shiftl acc 8) b) bs 0.
Definition of_le (bs : list Z) : Z := of_be (rev bs).

(** The consecutive pieces of [n] elements of a list; the last piece may be
    shorter.  [fuel] bounds the number of pieces. *)
Fixpoint chunks_fuel {A} (fuel : nat) (n : nat) (l : list A) : list (list A) :=
  match fuel, l with
  | _, [] => []
  | O, _ => []
  | S fuel', _ => firstn n l :: chunks_fuel fuel' n (skipn n l)
  end.

Definition chunks {A} (n : nat) (l : list A) : list (list A) :=
  chunks_fuel (length l) n l.

(** The padding both hashes append: a one bit, zero bits up to 56 modulo 64
    bytes, and the bit length of the message in eight bytes. *)
Definition md_pad (length_bytes : Z -> list Z) (msg : list Z) : list Z :=
  let len := Z.of_nat (length msg) in
  msg ++ [0x80] ++ repeat 0 (Z.to_nat ((55 - len) mod 64))
      ++ length_bytes (Z.land (8 * len) 0xFFFFFFFFFFFFFFFF).

End Word.

(** ** [crypto/sha1] *)

Module SHA1.
Import Word.

Definition f (t : nat) (b c d : Z) : Z :=
  if (t <? 20)%nat then Z.lor (Z.land b c) (Z.land (not32 b) d)
  else if (t <? 40)%nat then Z.lxor b (Z.lxor c d)
  else if (t <? 60)%nat then
    Z.lor (Z.lor (Z.land b c) (Z.land b d)) (Z.land c d)
  else Z.lxor b (Z.lxor c d).

Definition k (t : nat) : Z :=
  if (t <? 20)%nat then 0x5A827999
  else if (t <? 40)%nat then 0x6ED9EBA1
  else if (t <? 60)%nat then 0x8F1BBCDC
  else 0xCA62C1D6.

(** The message schedule: sixteen words of the block, extended to eighty. *)
Fixpoint extend (n : nat) (w : list Z) : list Z :=
  match n with
  | O => w
  | S n' =>
    let t := length w in
    let at_ (i : nat) := List.nth (t - i) w 0 in
    extend n'
      (w ++ [rotl (Z.lxor (at_ 3%nat)
                     (Z.lxor (at_ 8%nat) (Z.lxor (at_ 14%nat) (at_ 16%nat)))) 1])
  end.

Definition schedule (block : list Z) : list Z :=
  extend 64 (map of_be (chunks 4 block)).

Definition state : Type := Z * Z * Z * Z * Z.

Definition round (s : state) (tw : nat * Z) : state :=
  let '(a, b, c, d, e) := s in
  let '(t, w) := tw in
  let temp := add32 (add32 (add32 (add32 (rotl a 5) (f t b c d)) e) w) (k t) in
  (temp, a, rotl b 30, c, d).

Definition block (h : state) (blk : list Z) : state :=
  let w := schedule blk in
  let '(a, b, c, d, e) := fold_left round (combine (seq 0 80) w) h in
  let '(h0, h1, h2, h3, h4) := h in
  (add32 h0 a, add32 h1 b, add32 h2 c, add32 h3 d, add32 h4 e).

Definition init : state :=
  (0x67452301, 0xEFCDAB89, 0x98BADCFE, 0x10325476, 0xC3D2E1F0).

Definition digest (msg : list Z) : list Z :=
  let '(h0, h1, h2, h3, h4) :=
    fold_left block (chunks 64 (md_pad to_be64 msg)) init in
  to_be32 h0 ++ to_be32 h1 ++ to_be32 h2 ++ to_be32 h3 ++ to_be32 h4.

(** [h := sha1.New(); h.Write(data); h.Sum(nil)]. *)
Definition Sum (data : list byte) : list byte :=
  map Bytes.of_Z (digest (map Bytes.to_Z data)).

End SHA1.

(** ** [crypto/md5] *)

Module MD5.
Import Word.

Definition K : list Z :=
  [0xd76aa478; 0xe8c7b756; 0x242070db; 0xc1bdceee; 0xf57c0faf; 0x4787c62a;
   0xa8304613; 0xfd469501; 0x698098d8; 0x8b44f7af; 0xffff5bb1; 0x895cd7be;
   0x6b901122; 0xfd987193; 0xa679438e; 0x49b40821; 0xf61e2562; 0xc040b340;
   0x265e5a51; 0xe9b6c7aa; 0xd62f105d; 0x02441453; 0xd8a1e681; 0xe7d3fbc8;
   0x21e1cde6; 0xc33707d6; 0xf4d50d87; 0x455a14ed; 0xa9e3e905; 0xfcefa3f8;
   0x676f02d9; 0x8d2a4c8a; 0xfffa3942; 0x8771f681; 0x6d9d6122; 0xfde5380c;
   0xa4beea44; 0x4bdecfa9; 0xf6bb4b60; 0xbebfbc70; 0x289b7ec6; 0xeaa127fa;
   0xd4ef3085; 0x04881d05; 0xd9d4d039; 0xe6db99e5; 0x1fa27cf8; 0xc4ac5665;
   0xf4292244; 0x432aff97; 0xab9423a7; 0xfc93a039; 0x655b59c3; 0x8f0ccc92;
   0xffeff47d; 0x85845dd1; 0x6fa87e4f; 0xfe2ce6e0; 0xa3014314; 0x4e0811a1;
   0xf7537e82; 0xbd3af235; 0x2ad7d2bb; 0xeb86d391].

Definition shifts : list Z :=
  [7; 12; 17; 22; 7; 12; 17; 22; 7; 12; 17; 22; 7; 12; 17; 22;
   5; 9; 14; 20; 5; 9; 14; 20; 5; 9; 14; 20; 5; 9; 14; 20;
   4; 11; 16; 23; 4; 11; 16; 23; 4; 11; 16; 23; 4; 11; 16; 23;
   6; 10; 15; 21; 6; 10; 15; 21; 6; 10; 15; 21; 6; 10; 15; 21].

Definition state : Type := Z * Z * Z * Z.

Definition round (m : list Z) (s : state) (i : nat) : state :=
  let '(a, b, c, d) := s in
  let '(fv, g) :=
    if (i <? 16)%nat then
      (Z.lor (Z.land b c) (Z.land (not32 b) d), i)
    else if (i <? 32)%nat then
      (Z.lor (Z.land d b) (Z.land (not32 d) c), ((5 * i + 1) mod 16)%nat)
    else if (i <? 48)%nat then
      (Z.lxor b (Z.lxor c d), ((3 * i + 5) mod 16)%nat)
    else
      (Z.lxor c (Z.lor b (not32 d)), ((7 * i) mod 16)%nat) in
  let sum := add32 (add32 (add32 fv a) (List.nth i K 0)) (List.nth g m 0) in
  (d, add32 b (rotl sum (List.nth i shifts 0)), b, c).

Definition block (h : state) (blk : list Z) : state :=
  let m := map of_le (chunks 4 blk) in
  let '(a, b, c, d) := fold_left (round m) (seq 0 64) h in
  let '(a0, b0, c0, d0) := h in
  (add32 a0 a, add32 b0 b, add32 c0 c, add32 d0 d).

Definition init : state := (0x67452301, 0xEFCDAB89, 0x98BADCFE, 0x10325476).

Definition digest (msg : list Z) : list Z :=
  let '(a, b, c, d) :=
    fold_left block (chunks 64 (md_pad to_le64 msg)) init in
  to_le32 a ++ to_le32 b ++ to_le32 c ++ to_le32 d.

(** [m := md5.New(); m.Write(data); m.Sum(nil)]. *)
Definition Sum (data : list byte) : list byte :=
  map Bytes.of_Z (digest (map Bytes.to_Z data)).

End MD5.

(** ** [encoding/hex] *)

Module Hex.

Definition digit (v : Z) : Z := if v <? 10 then 48 + v else 87 + v.

(** [hex.EncodeToString]. *)
Definition EncodeToString (bs : list byte) : string :=
  Bytes.of_codes
    (flat_map (fun b => let v := Bytes.to_Z b in
                        [digit (Z.shiftr v 4); digit (Z.land v 15)]) bs).

Definition value (c : Z) : option Z :=
  if Utf8.between 48 57 c then Some (c - 48)
  else if Utf8.between 97 102 c then Some (c - 87)
  else if Utf8.between 65 70 c then Some (c - 55)
  else None.

Fixpoint decode (src : list Z) : option (list Z) :=
  match src with
  | [] => Some []
  | [_] => None
  | hi :: lo :: rest =>
    match value hi, value lo, decode rest with
    | Some h, Some l, Some out => Some (16 * h + l :: out)
    | _, _, _ => None
    end
  end.

(** [hex.DecodeString]; [None] stands for its error. *)
Definition DecodeString (s : string) : option (list byte) :=
  option_map (map Bytes.of_Z) (decode (Bytes.codes s)).

End Hex.

(** ** [crypto/aes] and [crypto/cipher]: the block cipher and CBC chaining *)

Module AES.

(** Multiplication by [x] in GF(2^8) modulo [x^8 + x^4 + x^3 + x + 1]. *)
Definition xtime (a : Z) : Z :=
  let d := Z.shiftl a 1 in
  if Z.testbit a 7 then Z.lxor (Z.land d 0xFF) 0x1B else d.

Fixpoint gmul_bits (n : nat) (a b : Z) : Z :=
  match n with
  | O => 0
  | S n' =>
    Z.lxor (if Z.odd b then a else 0) (gmul_bits n' (xtime a) (Z.shiftr b 1))
  end.

Definition gmul (a b : Z) : Z := gmul_bits 8 a b.

Fixpoint gpow (a : Z) (n : nat) : Z :=
  match n with
  | O => 1
  | S n' => gmul a (gpow a n')
  end.

Definition rotl8 (x n : Z) : Z :=
  Z.land (Z.lor (Z.shiftl x n) (Z.shiftr x (8 - n))) 0xFF.

(** The S-box: the inverse in the field (0 for 0), then the affine map. *)
Definition sbox_of (a : Z) : Z :=
  let x := gpow a 254 in
  Z.lxor (Z.lxor (Z.lxor (Z.lxor (Z.lxor x (rotl8 x 1)) (rotl8 x 2)) (rotl8 x 3))
            (rotl8 x 4)) 0x63.

Definition sbox_table : list Z :=
  Eval vm_compute in map (fun i => sbox_of (Z.of_nat i)) (seq 0 256).

Definition sbox (a : Z) : Z := List.nth (Z.to_nat a) sbox_table 0.

(** A word is a list of four bytes; the state is sixteen bytes in the order
    of the input, column after column. *)
Definition xor_bytes (a b : list Z) : list Z :=
  map (fun '(x, y) => Z.lxor x y) (combine a b).

Definition SubWord (w : list Z) : list Z := map sbox w.
Definition RotWord (w : list Z) : list Z := skipn 1 w ++ firstn 1 w.
Definition Rcon (j : nat) : list Z := [gpow 2 (j - 1); 0; 0; 0].

(** The key schedule: [nk] words of key extended to [total] words. *)
Fixpoint expand (n : nat) (nk : nat) (w : list (list Z)) : list (list Z) :=
  match n with
  | O => w
  | S n' =>
    let i := length w in
    let prev := List.nth (i - 1) w [] in
    let temp :=
      if (i mod nk =? 0)%nat then
        xor_bytes (SubWord (RotWord prev)) (Rcon (i / nk))
      else if (6 <? nk)%nat && (i mod nk =? 4)%nat then SubWord prev
      else prev in
    expand n' nk (w ++ [xor_bytes (List.nth (i - nk) w []) temp])
  end.

Definition KeyExpansion (key : list Z) : list (list Z) :=
  let nk := (length key / 4)%nat in
  let total := (4 * (nk + 7))%nat in
  expand (total - nk) nk (Word.chunks 4 key).

Definition round_key (w : list (list Z)) (r : nat) : list Z :=
  concat (firstn 4 (skipn (4 * r) w)).

Definition SubBytes (s : list Z) : list Z := map sbox s.

Definition ShiftRows (s : list Z) : list Z :=
  map (fun i => let c := (i / 4)%nat in let r := (i mod 4)%nat in
                List.nth (4 * ((c + r) mod 4) + r) s 0)
      (seq 0 16).

Definition mix_column (col : list Z) : list Z :=
  let a (i : nat) := List.nth i col 0 in
  [Z.lxor (Z.lxor (gmul 2 (a 0%nat)) (gmul 3 (a 1%nat))) (Z.lxor (a 2%nat) (a 3%nat));
   Z.lxor (Z.lxor (a 0%nat) (gmul 2 (a 1%nat))) (Z.lxor (gmul 3 (a 2%nat)) (a 3%nat));
   Z.lxor (Z.lxor (a 0%nat) (a 1%nat)) (Z.lxor (gmul 2 (a 2%nat)) (gmul 3 (a 3%nat)));
   Z.lxor (Z.lxor (gmul 3 (a 0%nat)) (a 1%nat)) (Z.lxor (a 2%nat) (gmul 2 (a 3%nat)))].

Definition MixColumns (s : list Z) : list Z :=
  flat_map mix_column (Word.chunks 4 s).

Definition AddRoundKey (w : list (list Z)) (r : nat) (s : list Z) : list Z :=
  xor_bytes s (round_key w r).

(** [cipher.Block.Encrypt] on one block of sixteen bytes. *)
Definition encrypt_block (w : list (list Z)) (nr : nat) (blk : list Z) : list Z :=
  let s0 := AddRoundKey w 0 blk in
  let s1 :=
    fold_left (fun s r => AddRoundKey w r (MixColumns (ShiftRows (SubBytes s))))
              (seq 1 (nr - 1)) s0 in
  AddRoundKey w nr (ShiftRows (SubBytes s1)).

Definition BlockSize : nat := 16.

(** [aes.NewCipher] accepts keys of 16, 24 and 32 bytes. *)
Definition valid_key_length (n : nat) : bool :=
  (n =? 16)%nat || (n =? 24)%nat || (n =? 32)%nat.

(** [cipher.NewCBCEncrypter(block, iv).CryptBlocks]: each block is combined
    with the previous cipher block (the vector for the first) and encrypted. *)
Fixpoint cbc (w : list (list Z)) (nr : nat) (prev : list Z)
         (blocks : list (list Z)) : list Z :=
  match blocks with
  | [] => []
  | b :: rest =>
    let c := encrypt_block w nr (xor_bytes b prev) in
    c ++ cbc w nr c rest
  end.

(** PKCS #7: the plain text is filled up to a whole number of blocks with
    [n] bytes of value [n], [1 <= n <= 16]. *)
Definition pkcs7 (src : list Z) : list Z :=
  let n := (BlockSize - length src mod BlockSize)%nat in
  src ++ repeat (Z.of_nat n) n.

End AES.

(** Modelled from the spec: [AESCBCEncrypt] is a helper of this package whose
    file is not among the sources.  The specification of the signer says:
    the digest is encrypted "under the configured secret key and IV using a
    block cipher in cipher-block-chaining mode", "padded per a standard
    padding scheme so it is a multiple of the block size", and the call
    "fails with a CryptoError if the cipher initialization rejects the key or
    IV length".  The cipher is AES and the padding PKCS #7: with them the
    model reproduces the signature [TestGenerateSignature] expects (see
    [golden_signature]). *)
Definition AESCBCEncrypt (key iv plaintext : list byte) : result (list byte) :=
  if negb (AES.valid_key_length (length key)) then
    Err (KeySizeError (Z.of_nat (length key)))
  else if negb (length iv =? AES.BlockSize)%nat then
    Err (IVSizeError (Z.of_nat (length iv)))
  else
    let k := map Bytes.to_Z key in
    let w := AES.KeyExpansion k in
    let nr := (length k / 4 + 6)%nat in
    Ok (map Bytes.of_Z
          (AES.cbc w nr (map Bytes.to_Z iv)
             (Word.chunks AES.BlockSize (AES.pkcs7 (map Bytes.to_Z plaintext))))).

(** ** [encoding/json]: values and [Marshal] *)

Module Json.

(** A JSON text as a tree.  A number keeps its literal; the members of an
    object keep their order. *)
Inductive value : Type :=
| Null
| Bool (b : bool)
| Number (literal : string)
| String_ (s : string)
| Array (elements : list value)
| Object (members : list (string * value)).

Definition hex_digit (v : Z) : Z := if v <? 10 then 48 + v else 87 + v.

(** The bytes [Marshal] writes for an ASCII byte of a string, HTML
    characters escaped as [Marshal] does by default.  (The releases of Go
    from 1.22 on write the short escapes of backspace and form feed; the
    others, like this model, write them as [\u0008] and [\u000c].) *)
Definition escape_ascii (b : Z) : list Z :=
  if (b =? 34) || (b =? 92) then [92; b]
  else if b =? 10 then [92; 110]
  else if b =? 13 then [92; 114]
  else if b =? 9 then [92; 116]
  else if (b <? 32) || (b =? 60) || (b =? 62) || (b =? 38) then
    [92; 117; 48; 48; hex_digit (Z.shiftr b 4); hex_digit (Z.land b 15)]
  else [b].

(** How the bytes after the first byte of a rune are treated. *)
Inductive pending : Type :=
| Copy (n : nat)
| Drop (n : nat).

(** The body of a string literal: a byte that is not valid UTF-8 becomes
    the escape of U+FFFD, U+2028 and U+2029 are escaped, every other rune
    is copied. *)
Fixpoint quote_from (todo : pending) (p : list Z) : list Z :=
  match p with
  | [] => []
  | b :: rest =>
    match todo with
    | Copy (S n) => b :: quote_from (Copy n) rest
    | Drop (S n) => quote_from (Drop n) rest
    | Copy O | Drop O =>
      if b <? Utf8.RuneSelf then escape_ascii b ++ quote_from (Copy 0) rest
      else
        let '(c, size) := Utf8.DecodeRune p in
        if (c =? Utf8.RuneError) && (size =? 1)%nat then
          [92; 117; 102; 102; 102; 100] ++ quote_from (Copy 0) rest
        else if (c =? 0x2028) || (c =? 0x2029) then
          [92; 117; 50; 48; 50; hex_digit (Z.land c 15)]
            ++ quote_from (Drop (Nat.pred size)) rest
        else b :: quote_from (Copy (Nat.pred size)) rest
    end
  end.

Definition quote (s : string) : list Z :=
  [34] ++ quote_from (Copy 0) (Bytes.codes s) ++ [34].

Definition sep_by (sep : list Z) (items : list (list Z)) : list Z :=
  match items with
  | [] => []
  | x :: rest => x ++ flat_map (fun y => sep ++ y) rest
  end.

(** The compact text of a value, as [Marshal] writes it. *)
Fixpoint encode (v : value) : list Z :=
  match v with
  | Null => Bytes.codes "null"
  | Bool true => Bytes.codes "true"
  | Bool false => Bytes.codes "false"
  | Number lit => Bytes.codes lit
  | String_ s => quote s
  | Array vs => [91] ++ sep_by [44] (map encode vs) ++ [93]
  | Object ms =>
    [123] ++ sep_by [44] (map (fun '(k, x) => quote k ++ [58] ++ encode x) ms)
          ++ [125]
  end.

(** The bytes of [s] with a double quote in place of every apostrophe: the
    JSON texts of this file are written with apostrophes. *)
Definition text (s : string) : list byte :=
  map (fun b => if Bytes.to_Z b =? 39 then Bytes.of_Z 34 else b)
      (Bytes.bytes_of_string s).

Definition text_codes (s : string) : list Z := map Bytes.to_Z (text s).

End Json.

(** ** Go values

    The values the package stores in a [map[string]interface{}]. *)

(** A slice may be [nil]: [None]. *)
Definition slice (A : Type) : Type := option (list A).

Definition elems {A} (s : slice A) : list A := default [] s.

(** [append(s, x)]. *)
Definition append {A} (s : slice A) (x : A) : slice A := Some (elems s ++ [x]).

Inductive GoVal : Type :=
| VBool (b : bool)
| VString (s : string)
| VBytes (b : list byte)
    (** a [[]byte] that is not [nil] *)
| VStrings (l : slice string)
    (** [[]string] *)
| VMapString (m : gmap string string)
    (** [map[string]string] *)
| VSlice (l : slice GoVal).
    (** [[]interface{}] *)

Module Marshal.

Definition key_le {A} (x y : string * A) : Prop := String.leb x.1 y.1 = true.

#[global] Instance key_le_dec {A} (x y : string * A) : Decision (key_le x y).
Proof. unfold key_le. apply _. Defined.

(** A map is written with its keys sorted. *)
Definition sorted_members {A} (m : gmap string A) : list (string * A) :=
  merge_sort key_le (map_to_list m).

Definition of_slice {A} (f : A -> Json.value) (s : slice A) : Json.value :=
  match s with
  | None => Json.Null
  | Some l => Json.Array (map f l)
  end.

Fixpoint of_val (v : GoVal) : Json.value :=
  match v with
  | VBool b => Json.Bool b
  | VString s => Json.String_ s
  | VBytes b => Json.String_ (Base64.EncodeToString b)
  | VStrings l => of_slice Json.String_ l
  | VMapString m =>
    Json.Object (map (fun '(k, s) => (k, Json.String_ s)) (sorted_members m))
  | VSlice None => Json.Null
  | VSlice (Some l) => Json.Array (map of_val l)
  end.

(** A [map[string]interface{}]; [None] is the [nil] map. *)
Definition of_map (m : option (gmap string GoVal)) : Json.value :=
  match m with
  | None => Json.Null
  | Some m =>
    Json.Object (map (fun '(k, v) => (k, of_val v)) (sorted_members m))
  end.

End Marshal.

(** [json.Marshal] of a [map[string]interface{}].  None of the values the
    package marshals can make it fail. *)
Definition json_Marshal_map (m : option (gmap string GoVal)) : list byte :=
  map Bytes.of_Z (Json.encode (Marshal.of_map m)).

(** ** [encoding/json]: the scanner

    The state machine of [scanner.go]: a state is the step function to run
    on the next byte, the stack of open objects and arrays, and the error
    met so far. *)

Module Scanner.

Inductive step_fn : Type :=
| stateBeginValueOrEmpty | stateBeginValue | stateBeginStringOrEmpty
| stateBeginString | stateEndValue | stateEndTop
| stateInString | stateInStringEsc
| stateInStringEscU | stateInStringEscU1 | stateInStringEscU12
| stateInStringEscU123
| stateNeg | state1 | state0 | stateDot | stateDot0
| stateE | stateESign | stateE0
| stateT | stateTr | stateTru
| stateF | stateFa | stateFal | stateFals
| stateN | stateNu | stateNul
| stateError.

Inductive parse_state : Type :=
| parseObjectKey | parseObjectValue | parseArrayValue.

Inductive opcode : Type :=
| scanContinue | scanBeginLiteral | scanBeginObject | scanObjectKey
| scanObjectValue | scanEndObject | scanBeginArray | scanArrayValue
| scanEndArray | scanSkipSpace | scanEnd | scanError.

Record t : Type := {
  step : step_fn;
  endTop : bool;
  parseState : list parse_state;
  err : option error;
  bytes : Z
}.

Definition maxNestingDepth : Z := 10000.

Definition reset : t :=
  {| step := stateBeginValue; endTop := false; parseState := [];
     err := None; bytes := 0 |}.

Definition with_step (f : step_fn) (s : t) : t :=
  {| step := f; endTop := endTop s; parseState := parseState s;
     err := err s; bytes := bytes s |}.

Definition with_stack (ps : list parse_state) (s : t) : t :=
  {| step := step s; endTop := endTop s; parseState := ps;
     err := err s; bytes := bytes s |}.

Definition at_top (s : t) : t :=
  {| step := stateEndTop; endTop := true; parseState := parseState s;
     err := err s; bytes := bytes s |}.

Definition count (s : t) : t :=
  {| step := step s; endTop := endTop s; parseState := parseState s;
     err := err s; bytes := bytes s + 1 |}.

(** [s.error(c, context)]. *)
Definition error_ (s : t) (c : Z) (context : string) : t * opcode :=
  ({| step := stateError; endTop := endTop s; parseState := parseState s;
      err := Some (SyntaxError (InvalidCharacter c context) (bytes s));
      bytes := bytes s |}, scanError).

Definition isSpace (c : Z) : bool :=
  (c =? 32) || (c =? 9) || (c =? 13) || (c =? 10).

Definition isDigit (c : Z) : bool := Utf8.between 48 57 c.
Definition isDigit19 (c : Z) : bool := Utf8.between 49 57 c.
Definition isHex (c : Z) : bool :=
  isDigit c || Utf8.between 97 102 c || Utf8.between 65 70 c.

Definition pushParseState (s : t) (c : Z) (p : parse_state) (ok : opcode)
  : t * opcode :=
  let s' := with_stack (p :: parseState s) s in
  if Z.of_nat (length (parseState s')) <=? maxNestingDepth then (s', ok)
  else error_ s' c "exceeded max depth".

Definition popParseState (s : t) : t :=
  match tl (parseState s) with
  | [] => at_top (with_stack [] s)
  | ps => with_step stateEndValue (with_stack ps s)
  end.

Definition run_stateEndTop (s : t) (c : Z) : t * opcode :=
  if isSpace c then (s, scanEnd)
  else (fst (error_ s c "after top-level value"), scanEnd).

Definition run_stateEndValue (s : t) (c : Z) : t * opcode :=
  match parseState s with
  | [] => run_stateEndTop (at_top s) c
  | ps :: rest =>
    if isSpace c then (with_step stateEndValue s, scanSkipSpace)
    else
      match ps with
      | parseObjectKey =>
        if c =? 58 then
          (with_step stateBeginValue (with_stack (parseObjectValue :: rest) s),
           scanObjectKey)
        else error_ s c "after object key"
      | parseObjectValue =>
        if c =? 44 then
          (with_step stateBeginString (with_stack (parseObjectKey :: rest) s),
           scanObjectValue)
        else if c =? 125 then (popParseState s, scanEndObject)
        else error_ s c "after object key:value pair"
      | parseArrayValue =>
        if c =? 44 then (with_step stateBeginValue s, scanArrayValue)
        else if c =? 93 then (popParseState s, scanEndArray)
        else error_ s c "after array element"
      end
  end.

Definition run_stateBeginValue (s : t) (c : Z) : t * opcode :=
  if isSpace c then (s, scanSkipSpace)
  else if c =? 123 then
    pushParseState (with_step stateBeginStringOrEmpty s) c parseObjectKey
                   scanBeginObject
  else if c =? 91 then
    pushParseState (with_step stateBeginValueOrEmpty s) c parseArrayValue
                   scanBeginArray
  else if c =? 34 then (with_step stateInString s, scanBeginLiteral)
  else if c =? 45 then (with_step stateNeg s, scanBeginLiteral)
  else if c =? 48 then (with_step state0 s, scanBeginLiteral)
  else if c =? 116 then (with_step stateT s, scanBeginLiteral)
  else if c =? 102 then (with_step stateF s, scanBeginLiteral)
  else if c =? 110 then (with_step stateN s, scanBeginLiteral)
  else if isDigit19 c then (with_step state1 s, scanBeginLiteral)
  else error_ s c "looking for beginning of value".

Definition run_stateBeginValueOrEmpty (s : t) (c : Z) : t * opcode :=
  if isSpace c then (s, scanSkipSpace)
  else if c =? 93 then run_stateEndValue s c
  else run_stateBeginValue s c.

Definition run_stateBeginString (s : t) (c : Z) : t * opcode :=
  if isSpace c then (s, scanSkipSpace)
  else if c =? 34 then (with_step stateInString s, scanBeginLiteral)
  else error_ s c "looking for beginning of object key string".

Definition run_stateBeginStringOrEmpty (s : t) (c : Z) : t * opcode :=
  if isSpace c then (s, scanSkipSpace)
  else if c =? 125 then
    run_stateEndValue (with_stack (parseObjectValue :: tl (parseState s)) s) c
  else run_stateBeginString s c.

Definition run_state0 (s : t) (c : Z) : t * opcode :=
  if c =? 46 then (with_step stateDot s, scanContinue)
  else if (c =? 101) || (c =? 69) then (with_step stateE s, scanContinue)
  else run_stateEndValue s c.

Definition run_stateESign (s : t) (c : Z) : t * opcode :=
  if isDigit c then (with_step stateE0 s, scanContinue)
  else error_ s c "in exponent of numeric literal".

(** A state that accepts the one byte [want] and moves to [next]. *)
Definition expect (s : t) (c want : Z) (next : step_fn) (context : string)
  : t * opcode :=
  if c =? want then (with_step next s, scanContinue) else error_ s c context.

Definition expect_hex (s : t) (c : Z) (next : step_fn) : t * opcode :=
  if isHex c then (with_step next s, scanContinue)
  else error_ s c "in \u hexadecimal character escape".

(** [s.step(s, c)]. *)
Definition run (s : t) (c : Z) : t * opcode :=
  match step s with
  | stateBeginValueOrEmpty => run_stateBeginValueOrEmpty s c
  | stateBeginValue => run_stateBeginValue s c
  | stateBeginStringOrEmpty => run_stateBeginStringOrEmpty s c
  | stateBeginString => run_stateBeginString s c
  | stateEndValue => run_stateEndValue s c
  | stateEndTop => run_stateEndTop s c
  | stateInString =>
    if c =? 34 then (with_step stateEndValue s, scanContinue)
    else if c =? 92 then (with_step stateInStringEsc s, scanContinue)
    else if c <? 32 then error_ s c "in string literal"
    else (s, scanContinue)
  | stateInStringEsc =>
    if (c =? 98) || (c =? 102) || (c =? 110) || (c =? 114) || (c =? 116)
       || (c =? 92) || (c =? 47) || (c =? 34)
    then (with_step stateInString s, scanContinue)
    else if c =? 117 then (with_step stateInStringEscU s, scanContinue)
    else error_ s c "in string escape code"
  | stateInStringEscU => expect_hex s c stateInStringEscU1
  | stateInStringEscU1 => expect_hex s c stateInStringEscU12
  | stateInStringEscU12 => expect_hex s c stateInStringEscU123
  | stateInStringEscU123 => expect_hex s c stateInString
  | stateNeg =>
    if c =? 48 then (with_step state0 s, scanContinue)
    else if isDigit19 c then (with_step state1 s, scanContinue)
    else error_ s c "in numeric literal"
  | state1 =>
    if isDigit c then (with_step state1 s, scanContinue) else run_state0 s c
  | state0 => run_state0 s c
  | stateDot =>
    if isDigit c then (with_step stateDot0 s, scanContinue)
    else error_ s c "after decimal point in numeric literal"
  | stateDot0 =>
    if isDigit c then (s, scanContinue)
    else if (c =? 101) || (c =? 69) then (with_step stateE s, scanContinue)
    else run_stateEndValue s c
  | stateE =>
    if (c =? 43) || (c =? 45) then (with_step stateESign s, scanContinue)
    else run_stateESign s c
  | stateESign => run_stateESign s c
  | stateE0 =>
    if isDigit c then (s, scanContinue) else run_stateEndValue s c
  | stateT => expect s c 114 stateTr "in literal true (expecting 'r')"
  | stateTr => expect s c 117 stateTru "in literal true (expecting 'u')"
  | stateTru => expect s c 101 stateEndValue "in literal true (expecting 'e')"
  | stateF => expect s c 97 stateFa "in literal false (expecting 'a')"
  | stateFa => expect s c 108 stateFal "in literal false (expecting 'l')"
  | stateFal => expect s c 115 stateFals "in literal false (expecting 's')"
  | stateFals => expect s c 101 stateEndValue "in literal false (expecting 'e')"
  | stateN => expect s c 117 stateNu "in literal null (expecting 'u')"
  | stateNu => expect s c 108 stateNul "in literal null (expecting 'l')"
  | stateNul => expect s c 108 stateEndValue "in literal null (expecting 'l')"
  | stateError => (s, scanError)
  end.

(** [s.eof()]: the error, if the input may not end here. *)
Definition eof (s : t) : option error :=
  match err s with
  | Some e => Some e
  | None =>
    if endTop s then None
    else
      let s' := fst (run s 32) in
      if endTop s' then None
      else
        match err s' with
        | Some e => Some e
        | None => Some (SyntaxError UnexpectedEnd (bytes s'))
        end
  end.

(** [checkValid]: the syntax error of a text, if it is not one JSON value. *)
Fixpoint checkValid_from (s : t) (data : list Z) : option error :=
  match data with
  | [] => eof s
  | c :: rest =>
    let '(s', op) := run (count s) c in
    match op with
    | scanError => err s'
    | _ => checkValid_from s' rest
    end
  end.

Definition checkValid (data : list Z) : option error := checkValid_from reset data.

Definition nonSpace (data : list Z) : bool := existsb (fun c => negb (isSpace c)) data.

(** [Decoder.readValue] on a stream that delivers [data] and then ends: the
    bytes of the first value of the stream.  [seen] is the part of [data]
    already scanned, last byte first. *)
Fixpoint readValue_from (s : t) (seen data : list Z) : result (list Z) :=
  match data with
  | [] =>
    match snd (run s 32) with
    | scanEnd => Ok (rev seen)
    | _ => if nonSpace seen then Err ErrUnexpectedEOF else Err ErrEOF
    end
  | c :: rest =>
    let '(s', op) := run (count s) c in
    match op with
    | scanEnd => Ok (rev seen)
    | scanEndObject | scanEndArray =>
      match snd (run_stateEndValue s' 32) with
      | scanEnd => Ok (rev (c :: seen))
      | _ => readValue_from s' (c :: seen) rest
      end
    | scanError => Err (default ErrUnexpectedEOF (err s'))
    | _ => readValue_from s' (c :: seen) rest
    end
  end.

Definition readValue (data : list Z) : result (list Z) :=
  readValue_from reset [] data.

End Scanner.

(** ** [encoding/json]: from a valid text to its value *)

Module Parser.
Import Json.

Fixpoint skip_ws (p : list Z) : list Z :=
  match p with
  | c :: r => if Scanner.isSpace c then skip_ws r else p
  | [] => []
  end.

(** The raw body of a string literal, up to its closing quote, and what
    follows the quote. *)
Fixpoint string_body (escaped : bool) (p : list Z) : option (list Z * list Z) :=
  match p with
  | [] => None
  | c :: r =>
    if escaped then
      '(b, rest) ← string_body false r; Some (c :: b, rest)
    else if c =? 34 then Some ([], r)
    else '(b, rest) ← string_body (c =? 92) r; Some (c :: b, rest)
  end.

(** [getu4]: the code unit of a [\uXXXX] escape at the head of [s], or -1. *)
Definition getu4 (s : list Z) : Z :=
  match s with
  | 92 :: 117 :: a :: b :: c :: d :: _ =>
    match Hex.value a, Hex.value b, Hex.value c, Hex.value d with
    | Some a, Some b, Some c, Some d => ((a * 16 + b) * 16 + c) * 16 + d
    | _, _, _, _ => -1
    end
  | _ => -1
  end.

(** [utf16.IsSurrogate] and [utf16.DecodeRune]. *)
Definition IsSurrogate (r : Z) : bool := (0xD800 <=? r) && (r <? 0xE000).

Definition utf16_DecodeRune (r1 r2 : Z) : Z :=
  if (0xD800 <=? r1) && (r1 <? 0xDC00) && (0xDC00 <=? r2) && (r2 <? 0xE000)
  then Z.lor (Z.shiftl (r1 - 0xD800) 10) (r2 - 0xDC00) + 0x10000
  else Utf8.RuneError.

Definition escape_char (e : Z) : Z :=
  if e =? 98 then 8
  else if e =? 102 then 12
  else if e =? 110 then 10
  else if e =? 114 then 13
  else if e =? 116 then 9
  else e.

(** [unquote]: the string a string literal stands for.  An escaped
    surrogate without its partner and a byte that is not valid UTF-8 become
    U+FFFD. *)
Fixpoint unquote_fuel (fuel : nat) (s : list Z) : list Z :=
  match fuel with
  | O => []
  | S f =>
    match s with
    | [] => []
    | c :: r =>
      if c =? 92 then
        match r with
        | [] => []
        | e :: r' =>
          if e =? 117 then
            let rr := getu4 s in
            let s1 := skipn 6 s in
            if rr <? 0 then []
            else if IsSurrogate rr then
              let dec := utf16_DecodeRune rr (getu4 s1) in
              if negb (dec =? Utf8.RuneError)
              then Utf8.EncodeRune dec ++ unquote_fuel f (skipn 6 s1)
              else Utf8.EncodeRune Utf8.RuneError ++ unquote_fuel f s1
            else Utf8.EncodeRune rr ++ unquote_fuel f s1
          else escape_char e :: unquote_fuel f r'
        end
      else if c <? Utf8.RuneSelf then c :: unquote_fuel f r
      else
        let '(rr, size) := Utf8.DecodeRune s in
        Utf8.EncodeRune rr ++ unquote_fuel f (skipn size s)
    end
  end.

Definition unquote (raw : list Z) : string :=
  Bytes.of_codes (unquote_fuel (length raw) raw).

Definition is_number_char (c : Z) : bool :=
  Scanner.isDigit c || (c =? 45) || (c =? 43) || (c =? 46) || (c =? 101)
  || (c =? 69).

Fixpoint span_number (p : list Z) : list Z * list Z :=
  match p with
  | c :: r =>
    if is_number_char c
    then let '(lit, rest) := span_number r in (c :: lit, rest)
    else ([], p)
  | [] => ([], [])
  end.

(** The value at the head of a text the scanner accepts, and the text after
    it.  Every call consumes a byte, so a fuel of the length of the text
    plus one is enough. *)
Fixpoint parse_value (fuel : nat) (p : list Z) {struct fuel}
  : option (value * list Z) :=
  match fuel with
  | O => None
  | S f =>
    match skip_ws p with
    | [] => None
    | c :: r =>
      if c =? 123 then
        match skip_ws r with
        | c' :: r' =>
          if c' =? 125 then Some (Object [], r')
          else '(ms, rest) ← parse_members f r; Some (Object ms, rest)
        | [] => None
        end
      else if c =? 91 then
        match skip_ws r with
        | c' :: r' =>
          if c' =? 93 then Some (Array [], r')
          else '(vs, rest) ← parse_elements f r; Some (Array vs, rest)
        | [] => None
        end
      else if c =? 34 then
        '(raw, rest) ← string_body false r; Some (String_ (unquote raw), rest)
      else if c =? 116 then Some (Bool true, skipn 3 r)
      else if c =? 102 then Some (Bool false, skipn 4 r)
      else if c =? 110 then Some (Null, skipn 3 r)
      else
        let '(lit, rest) := span_number (c :: r) in
        Some (Number (Bytes.of_codes lit), rest)
    end
  end
with parse_members (fuel : nat) (p : list Z) {struct fuel}
  : option (list (string * value) * list Z) :=
  match fuel with
  | O => None
  | S f =>
    match skip_ws p with
    | 34 :: r =>
      '(raw, r1) ← string_body false r;
      match skip_ws r1 with
      | 58 :: r2 =>
        '(v, r3) ← parse_value f r2;
        match skip_ws r3 with
        | 44 :: r4 =>
          '(ms, r5) ← parse_members f r4; Some ((unquote raw, v) :: ms, r5)
        | 125 :: r4 => Some ([(unquote raw, v)], r4)
        | _ => None
        end
      | _ => None
      end
    | _ => None
    end
  end
with parse_elements (fuel : nat) (p : list Z) {struct fuel}
  : option (list value * list Z) :=
  match fuel with
  | O => None
  | S f =>
    '(v, r1) ← parse_value f p;
    match skip_ws r1 with
    | 44 :: r2 => '(vs, r3) ← parse_elements f r2; Some (v :: vs, r3)
    | 93 :: r2 => Some ([v], r2)
    | _ => None
    end
  end.

Definition parse (data : list Z) : option value :=
  fst <$> parse_value (S (length data)) data.

End Parser.

(** ** The result monad *)

#[global] Instance result_ret : MRet result := fun _ v => Ok v.

#[global] Instance result_bind : MBind result :=
  fun _ _ f r => match r with Ok v => f v | Err e => Err e end.

(** ** The messages of the license request *)

Module ContentKeySpec.

Record t : Type := {
  KeyID : string;
  Key : string;
  IV : string;
  TrackType : string
}.

(** The struct tags name four members, none of them [omitempty]. *)
Definition to_json (s : t) : Json.value :=
  Json.Object [("key_id", Json.String_ (KeyID s));
               ("key", Json.String_ (Key s));
               ("iv", Json.String_ (IV s));
               ("track_type", Json.String_ (TrackType s))].

End ContentKeySpec.

Module LicenseMessage.

Record t : Type := {
  Payload : string;
  ContentID : string;
  Provider : string;
  AllowedTrackTypes : string;
  ContentKeySpecs : slice ContentKeySpec.t
}.

Definition to_json (m : t) : Json.value :=
  Json.Object [("payload", Json.String_ (Payload m));
               ("content_id", Json.String_ (ContentID m));
               ("provider", Json.String_ (Provider m));
               ("allowed_track_types", Json.String_ (AllowedTrackTypes m));
               ("content_key_specs",
                Marshal.of_slice ContentKeySpec.to_json (ContentKeySpecs m))].

End LicenseMessage.

(** [json.Marshal] of a [*LicenseMessage]. *)
Definition json_Marshal_LicenseMessage (m : LicenseMessage.t) : list byte :=
  map Bytes.of_Z (Json.encode (LicenseMessage.to_json m)).

(** ** [widevine.go]: the key governer and the proxy *)

(** The interface [KeyGoverner]: a value of it is its table of methods. *)
Record KeyGoverner : Type := {
  GenerateContentKeyID : list byte -> list byte;
  GenerateContentKey : list byte -> list byte;
  GenerateContentIV : list byte -> list byte;
  GenerateContentKeySpec :
    list byte -> gmap string string -> result (list ContentKeySpec.t)
}.

(** What [http.Client.Do] is given and what it returns.  The body of a
    response is the bytes the server sent, read to their end. *)
Record Request : Type := {
  Method : string;
  URL : string;
  Header : list (string * string);
  Body : list byte
}.

Record Response : Type := {
  StatusCode : Z;
  ResponseBody : list byte
}.

(** [http.NewRequest] and [req.Header.Add].  With the method [POST] and the
    URLs of this package [NewRequest] does not fail. *)
Definition NewRequest (method url : string) (body : list byte) : Request :=
  {| Method := method; URL := url; Header := []; Body := body |}.

Definition Header_Add (req : Request) (key val : string) : Request :=
  {| Method := Method req; URL := URL req;
     Header := Header req ++ [(key, val)]; Body := Body req |}.

(** The struct [Proxy].  [httpCaller] is the exchange with the service: the
    response, or the transport error, [Do] returns for a request.  The
    logger is left out: what is logged has no part in any result. *)
Record Proxy : Type := {
  PartnerRootKey : list byte;
  PartnerRootIV : list byte;
  Provider : string;
  ContentKeyGenerator : KeyGoverner;
  httpCaller : Request -> result Response
}.

(** [NewWidevineProxy(key, iv, provider, keyGenerator, logger)]: the
    exchange with the service stands for the HTTP client the constructor
    creates. *)
Definition NewWidevineProxy (key iv : list byte) (provider : string)
    (keyGenerator : KeyGoverner) (service : Request -> result Response) : Proxy :=
  {| PartnerRootKey := key; PartnerRootIV := iv; Provider := provider;
     ContentKeyGenerator := keyGenerator; httpCaller := service |}.

(** ** The signer and the license envelope *)

Definition generateSignature (wp : Proxy) (payload : list byte)
  : result (list byte) :=
  ciphertext ← AESCBCEncrypt (PartnerRootKey wp) (PartnerRootIV wp)
                             (SHA1.Sum payload);
  mret ciphertext.

(** The [message] that [buildLicenseMessage] constructs before it
    serialises it. *)
Definition licenseMessage (wp : Proxy) (contentID body : string)
  : LicenseMessage.t :=
  let enc := Base64.EncodeToString (Bytes.bytes_of_string contentID) in
  let contentKey :=
    GenerateContentKey (ContentKeyGenerator wp) (Bytes.bytes_of_string contentID) in
  let contentKeyID := MD5.Sum contentKey in
  {| LicenseMessage.Payload := body;
     LicenseMessage.ContentID := enc;
     LicenseMessage.Provider := Provider wp;
     LicenseMessage.AllowedTrackTypes := "SD_UHD1";
     LicenseMessage.ContentKeySpecs :=
       Some [ {| ContentKeySpec.Key := Base64.EncodeToString contentKey;
                 ContentKeySpec.KeyID := Base64.EncodeToString contentKeyID;
                 ContentKeySpec.IV := "";
                 ContentKeySpec.TrackType := "" |} ] |}.

Definition buildLicenseMessage (wp : Proxy) (contentID body : string)
  : result (gmap string GoVal) :=
  let message := licenseMessage wp contentID body in
  let jsonMessage := json_Marshal_LicenseMessage message in
  let b64message := Base64.EncodeToString jsonMessage in
  sign ← generateSignature wp jsonMessage;
  mret ({[ "request" := VString b64message;
           "signature" := VBytes sign;
           "signer" := VString (Provider wp) ]} : gmap string GoVal).

(** ** The content-key policy and its envelope *)

Module Policy.

Record t : Type := {
  ContentID : string;
  Tracks : slice string;
  DRMTypes : slice string;
  Policy : string
}.

End Policy.

Definition setPolicy (wp : Proxy) (contentID : string) (policy : Policy.t)
  : gmap string GoVal :=
  let enc := Base64.EncodeToString (Bytes.bytes_of_string contentID) in
  let tracks :=
    fold_left (fun tracks track => append tracks (VMapString {[ "type" := track ]}))
              (elems (Policy.Tracks policy)) None in
  {[ "content_id" := VString enc;
     "tracks" := VSlice tracks;
     "drm_types" := VStrings (Policy.DRMTypes policy);
     "policy" := VString (Policy.Policy policy) ]}.

(** [buildCKMessage] returns the [nil] map when the signer fails. *)
Definition buildCKMessage (wp : Proxy) (policy : gmap string GoVal)
  : option (gmap string GoVal) :=
  let jsonPayload := json_Marshal_map (Some policy) in
  let b64payload := Base64.EncodeToString jsonPayload in
  match generateSignature wp jsonPayload with
  | Err _ => None
  | Ok sign =>
    Some {[ "request" := VString b64payload;
            "signature" := VBytes sign;
            "signer" := VString (Provider wp) ]}
  end.

(** ** [encoding/json]: [Unmarshal] into the types of the package

    A value is decoded into the variable it is stored in: what the text does
    not mention keeps its value, and the first type error is kept while the
    decoding goes on ([decodeState.saveError]). *)

Module Unmarshal.
Import Json.

(** The kind of a JSON value, as an [UnmarshalTypeError] names it. *)
Definition kind (v : value) : string :=
  match v with
  | Null => "null"
  | Bool _ => "bool"
  | Number _ => "number"
  | String_ _ => "string"
  | Array _ => "array"
  | Object _ => "object"
  end.

Definition first_error (e1 e2 : option error) : option error :=
  match e1 with
  | Some _ => e1
  | None => e2
  end.

Definition mismatch (v : value) (type field : string) : option error :=
  Some (UnmarshalTypeError (kind v) type field).

(** Into a [string]. *)
Definition into_string (field : string) (cur : string) (v : value)
  : string * option error :=
  match v with
  | String_ s => (s, None)
  | Null => (cur, None)
  | _ => (cur, mismatch v "string" field)
  end.

(** Into a [bool]. *)
Definition into_bool (field : string) (cur : bool) (v : value)
  : bool * option error :=
  match v with
  | Bool b => (b, None)
  | Null => (cur, None)
  | _ => (cur, mismatch v "bool" field)
  end.

(** Into a slice: element [i] of the array is decoded into element [i] of
    the slice if it has one, into a zero value otherwise; the slice ends up
    as long as the array.  [null] makes the slice [nil].  (Elements of the
    backing array beyond the length of the slice are not modelled.) *)
Definition into_slice {A} (zero : A) (into_elem : A -> value -> A * option error)
    (type field : string) (cur : slice A) (v : value) : slice A * option error :=
  match v with
  | Array vs =>
    let '(out, e) :=
      fold_left (fun '(out, e) '(i, x) =>
                   let '(a, e') := into_elem (List.nth i (elems cur) zero) x in
                   (out ++ [a], first_error e e'))
                (combine (seq 0 (length vs)) vs) ([], None) in
    (Some out, e)
  | Null => (None, None)
  | _ => (cur, mismatch v type field)
  end.

(** The name of a member folded as [bytes.EqualFold] compares it with an
    ASCII name: letters in lower case, and the two runes that fold to an
    ASCII letter (U+017F to [s], U+212A to [k]). *)
Fixpoint fold_from (drop : nat) (p : list Z) : list Z :=
  match p with
  | [] => []
  | b :: rest =>
    match drop with
    | S n => fold_from n rest
    | O =>
      match p with
      | 0xC5 :: 0xBF :: _ => 115 :: fold_from 1 rest
      | 0xE2 :: 0x84 :: 0xAA :: _ => 107 :: fold_from 2 rest
      | _ => Strings.lower_ascii b :: fold_from 0 rest
      end
    end
  end.

Definition fold_name (s : string) : string :=
  Bytes.of_codes (fold_from 0 (Bytes.codes s)).

(** The field a member is stored in: the field of that very name, or else
    the first field whose name is equal under folding. *)
Definition field_of (names : list string) (key : string) : option string :=
  if bool_decide (key ∈ names) then Some key
  else List.find (fun n => String.eqb (fold_name n) (fold_name key)) names.

(** Into a struct: every member with a field is decoded into the field, in
    the order of the text. *)
Definition into_struct {A} (names : list string)
    (into_field : string -> A -> value -> A * option error)
    (type field : string) (cur : A) (v : value) : A * option error :=
  match v with
  | Object ms =>
    fold_left (fun '(a, e) '(k, x) =>
                 match field_of names k with
                 | Some f => let '(a', e') := into_field f a x in
                             (a', first_error e e')
                 | None => (a, e)
                 end)
              ms (cur, None)
  | Null => (cur, None)
  | _ => (cur, mismatch v type field)
  end.

Definition path (field name : string) : string :=
  if String.eqb field "" then name else field +:+ "." +:+ name.

(** Into a [map[string]string]: [null] as a member's value stores the empty
    string; [null] for the map makes it [nil], which reads as the empty
    map. *)
Definition into_map_string (cur : gmap string string) (v : value)
  : gmap string string * option error :=
  match v with
  | Object ms =>
    fold_left (fun '(m, e) '(k, x) =>
                 match x with
                 | String_ s => (<[k := s]> m, e)
                 | Null => (<[k := ""]> m, e)
                 | _ => (<[k := ""]> m, first_error e (mismatch x "string" ""))
                 end)
              ms (cur, None)
  | Null => (∅, None)
  | _ => (cur, mismatch v "map[string]string" "")
  end.

End Unmarshal.

(** ** The response and the request for a content key *)

Module pssh.

Record t : Type := { DRMType : string; Data : string }.

Definition zero : t := {| DRMType := ""; Data := "" |}.

Definition into_field (field name : string) (cur : t) (v : Json.value)
  : t * option error :=
  if String.eqb name "drm_type" then
    let '(s, e) := Unmarshal.into_string (Unmarshal.path field name) (DRMType cur) v in
    ({| DRMType := s; Data := Data cur |}, e)
  else
    let '(s, e) := Unmarshal.into_string (Unmarshal.path field name) (Data cur) v in
    ({| DRMType := DRMType cur; Data := s |}, e).

Definition into (field : string) : t -> Json.value -> t * option error :=
  Unmarshal.into_struct ["drm_type"; "data"] (into_field field)
                        "widevineproxy.pssh" field.

End pssh.

Module tracks.

Record t : Type := {
  Type_ : string;
  KeyID : string;
  Key : string;
  PSSH : slice pssh.t
}.

Definition zero : t := {| Type_ := ""; KeyID := ""; Key := ""; PSSH := None |}.

Definition into_field (field name : string) (cur : t) (v : Json.value)
  : t * option error :=
  let here := Unmarshal.path field name in
  if String.eqb name "type" then
    let '(s, e) := Unmarshal.into_string here (Type_ cur) v in
    ({| Type_ := s; KeyID := KeyID cur; Key := Key cur; PSSH := PSSH cur |}, e)
  else if String.eqb name "key_id" then
    let '(s, e) := Unmarshal.into_string here (KeyID cur) v in
    ({| Type_ := Type_ cur; KeyID := s; Key := Key cur; PSSH := PSSH cur |}, e)
  else if String.eqb name "key" then
    let '(s, e) := Unmarshal.into_string here (Key cur) v in
    ({| Type_ := Type_ cur; KeyID := KeyID cur; Key := s; PSSH := PSSH cur |}, e)
  else
    let '(l, e) :=
      Unmarshal.into_slice pssh.zero (pssh.into here) "[]widevineproxy.pssh"
                           here (PSSH cur) v in
    ({| Type_ := Type_ cur; KeyID := KeyID cur; Key := Key cur; PSSH := l |}, e).

Definition into (field : string) : t -> Json.value -> t * option error :=
  Unmarshal.into_struct ["type"; "key_id"; "key"; "pssh"] (into_field field)
                        "widevineproxy.tracks" field.

End tracks.

Module drm.

Record t : Type := { Type_ : string; SystemID : string }.

Definition zero : t := {| Type_ := ""; SystemID := "" |}.

Definition into_field (field name : string) (cur : t) (v : Json.value)
  : t * option error :=
  if String.eqb name "type" then
    let '(s, e) := Unmarshal.into_string (Unmarshal.path field name) (Type_ cur) v in
    ({| Type_ := s; SystemID := SystemID cur |}, e)
  else
    let '(s, e) := Unmarshal.into_string (Unmarshal.path field name) (SystemID cur) v in
    ({| Type_ := Type_ cur; SystemID := s |}, e).

Definition into (field : string) : t -> Json.value -> t * option error :=
  Unmarshal.into_struct ["type"; "system_id"] (into_field field)
                        "widevineproxy.drm" field.

End drm.

Module ContentKeyResponse.

Record t : Type := {
  Status : string;
  DRM : slice drm.t;
  Tracks : slice tracks.t;
  AlreadyUsed : bool
}.

Definition zero : t :=
  {| Status := ""; DRM := None; Tracks := None; AlreadyUsed := false |}.

Definition into_field (name : string) (cur : t) (v : Json.value)
  : t * option error :=
  if String.eqb name "status" then
    let '(s, e) := Unmarshal.into_string name (Status cur) v in
    ({| Status := s; DRM := DRM cur; Tracks := Tracks cur;
        AlreadyUsed := AlreadyUsed cur |}, e)
  else if String.eqb name "drm" then
    let '(l, e) :=
      Unmarshal.into_slice drm.zero (drm.into name) "[]widevineproxy.drm" name
                           (DRM cur) v in
    ({| Status := Status cur; DRM := l; Tracks := Tracks cur;
        AlreadyUsed := AlreadyUsed cur |}, e)
  else if String.eqb name "tracks" then
    let '(l, e) :=
      Unmarshal.into_slice tracks.zero (tracks.into name)
                           "[]widevineproxy.tracks" name (Tracks cur) v in
    ({| Status := Status cur; DRM := DRM cur; Tracks := l;
        AlreadyUsed := AlreadyUsed cur |}, e)
  else
    let '(b, e) := Unmarshal.into_bool name (AlreadyUsed cur) v in
    ({| Status := Status cur; DRM := DRM cur; Tracks := Tracks cur;
        AlreadyUsed := b |}, e).

Definition into : t -> Json.value -> t * option error :=
  Unmarshal.into_struct ["status"; "drm"; "tracks"; "already_used"] into_field
                        "widevineproxy.ContentKeyResponse" "".

End ContentKeyResponse.

(** [json.NewDecoder(body).Decode(&respJSON)] for
    [respJSON := make(map[string]string)]: the first value of the stream is
    decoded; what follows it is not read.  ([readValue] has scanned [data],
    so the parser has a value for it; the branch for [None] makes the
    function total.) *)
Definition json_Decode_map (body : list byte) : result (gmap string string) :=
  data ← Scanner.readValue (map Bytes.to_Z body);
  match Parser.parse data with
  | None => Err (SyntaxError UnexpectedEnd (Z.of_nat (length data)))
  | Some v =>
    match Unmarshal.into_map_string ∅ v with
    | (m, None) => Ok m
    | (_, Some e) => Err e
    end
  end.

(** [json.Unmarshal(dec, &output)] for [output := &ContentKeyResponse{}]:
    the text [null] makes the pointer [nil], which is [None]. *)
Definition json_Unmarshal_ContentKeyResponse (dec : list byte)
  : result (option ContentKeyResponse.t) :=
  let data := map Bytes.to_Z dec in
  match Scanner.checkValid data with
  | Some e => Err e
  | None =>
    match Parser.parse data with
    | None => Err (SyntaxError UnexpectedEnd (Z.of_nat (length data)))
    | Some Json.Null => Ok None
    | Some v =>
      match ContentKeyResponse.into ContentKeyResponse.zero v with
      | (r, None) => Ok (Some r)
      | (_, Some e) => Err e
      end
    end
  end.

(** The shape of a transport body that decodes into a [map[string]string]:
    [null], or an object whose members are strings or [null]. *)
Definition flat_string_mapping (v : Json.value) : bool :=
  match v with
  | Json.Null => true
  | Json.Object ms =>
    forallb (fun '(_, x) => match x with
                            | Json.String_ _ | Json.Null => true
                            | _ => false
                            end) ms
  | _ => false
  end.

Definition has_member (key : string) (v : Json.value) : bool :=
  match v with
  | Json.Object ms => existsb (fun '(k, _) => String.eqb k key) ms
  | _ => false
  end.

(** The error of [GetContentKey] for a reply without a [response] member. *)
Definition empty_response : error :=
  ErrorString "[GET] Content Key Response is Empty".

Section Dispatcher.

Variable to_LowerCase : Z -> Z.

(** The request [GetContentKey] sends. *)
Definition contentKeyRequest (wp : Proxy) (contentID : string)
    (policy : Policy.t) : Request :=
  let p := setPolicy wp contentID policy in
  let payload := json_Marshal_map (buildCKMessage wp p) in
  let req :=
    NewRequest "POST" (getCloudLicenseServiceURL to_LowerCase (Provider wp) "key")
               payload in
  Header_Add req "Content-Type" "application/json".

(** [GetContentKey].  The last statement of the function logs the header
    built by [buildPSSH]; it has no part in the result and is left out. *)
Definition GetContentKey (wp : Proxy) (contentID : string) (policy : Policy.t)
  : result (option ContentKeyResponse.t) :=
  response ← httpCaller wp (contentKeyRequest wp contentID policy);
  respJSON ← json_Decode_map (ResponseBody response);
  match respJSON !! "response" with
  | None => Err empty_response
  | Some resp =>
    let '(dec, _) := Base64.DecodeString resp in
    output ← json_Unmarshal_ContentKeyResponse dec;
    mret output
  end.

End Dispatcher.

(** ** [strconv]: the numbers of a JSON text

    A number literal reaches [strconv] only after the scanner has accepted
    it, so it has the shape [-?digits(.digits)?([eE][+-]?digits)?]. *)

Module Strconv.

Definition digits_value (ds : list Z) : Z :=
  fold_left (fun acc d => 10 * acc + (d - 48)) ds 0.

Fixpoint digits_prefix (p : list Z) : list Z * list Z :=
  match p with
  | c :: r =>
    if Scanner.isDigit c
    then let '(ds, rest) := digits_prefix r in (c :: ds, rest)
    else ([], p)
  | [] => ([], [])
  end.

Definition unsigned (p : list Z) : bool * list Z :=
  match p with
  | 45 :: r => (true, r)
  | 43 :: r => (false, r)
  | _ => (false, p)
  end.

(** [ParseInt(s, 10, 64)]: a sign and decimal digits, nothing else, and a
    value an [int64] holds. *)
Definition ParseInt64 (s : string) : option Z :=
  let '(neg, p) := unsigned (Bytes.codes s) in
  match digits_prefix p with
  | ((_ :: _) as ds, []) =>
    let n := if neg then - digits_value ds else digits_value ds in
    if (- 2 ^ 63 <=? n) && (n <? 2 ^ 63) then Some n else None
  | _ => None
  end.

(** The decimal a literal denotes: [mantissa * 10 ^ exponent], its sign
    left out. *)
Definition decimal (s : string) : Z * Z :=
  let '(_, p) := unsigned (Bytes.codes s) in
  let '(int, r1) := digits_prefix p in
  let '(frac, r2) :=
    match r1 with
    | 46 :: r => digits_prefix r
    | _ => ([], r1)
    end in
  let exp :=
    match r2 with
    | c :: r =>
      if (c =? 101) || (c =? 69) then
        let '(neg, r') := unsigned r in
        let e := digits_value (fst (digits_prefix r')) in
        if neg then - e else e
      else 0
    | [] => 0
    end in
  (digits_value (int ++ frac), exp - Z.of_nat (length frac)).

(** [ParseFloat(s, 64)] fails, with a range error, exactly when the decimal
    rounds to an infinity: when it is not below [2^1024 - 2^970], half way
    between the largest [float64] and [2^1024]. *)
Definition float64_overflows (s : string) : bool :=
  let '(m, e) := decimal s in
  (2 ^ 1024 - 2 ^ 970) * 10 ^ Z.max (- e) 0 <=? m * 10 ^ Z.max e 0.

End Strconv.

(** ** [encoding/json]: [Unmarshal] through [reflect]

    The decoder of [Unmarshal] walks the JSON value and the Go type side by
    side.  The types the responses of the license service are made of are
    strings, 64-bit integers, empty interfaces, slices and structs. *)

Module Reflect.
Import Json.

Inductive type : Type :=
| TString
| TInt64
| TInterface
| TSlice (elem : type)
| TStruct (name : string) (fields : list (string * (string * type))).
    (** the fields of a struct: the name in Go, the name of the tag, the
        type *)

(** What an [interface{}] holds after [Unmarshal] has filled it.  A number
    is a [float64]: the model keeps the literal it was read from and does
    not round it. *)
Inductive any : Type :=
| Nil
| ABool (b : bool)
| AFloat64 (literal : string)
| AString (s : string)
| ASlice (l : list any)
    (** [[]interface{}], never [nil] *)
| AMap (m : gmap string any).
    (** [map[string]interface{}] *)

(** A slice is its elements, or [nil], and the rest of its backing array:
    the decoder writes an element of a longer array into what the backing
    array holds at that index. *)
Inductive val : Type :=
| Str (s : string)
| Int (n : Z)
| Any (x : any)
| Sl (s : slice val) (spare : list val)
| St (fields : list (string * val)).

(** The zero value of a type. *)
Fixpoint zero (t : type) : val :=
  match t with
  | TString => Str ""
  | TInt64 => Int 0
  | TInterface => Any Nil
  | TSlice _ => Sl None []
  | TStruct _ fields => St (map (fun '(g, (_, ft)) => (g, zero ft)) fields)
  end.

(** [reflect.Type.String]. *)
Fixpoint type_name (t : type) : string :=
  match t with
  | TString => "string"
  | TInt64 => "int64"
  | TInterface => "interface {}"
  | TSlice e => "[]" +:+ type_name e
  | TStruct name _ => name
  end.

(** The fields of a struct, by their names in Go: [store] sets a field
    and [load] reads one. *)
Fixpoint store {A} (key : string) (x : A) (m : list (string * A))
  : list (string * A) :=
  match m with
  | [] => [(key, x)]
  | (k, y) :: rest =>
    if String.eqb k key then (k, x) :: rest else (k, y) :: store key x rest
  end.

Definition load {A} (key : string) (m : list (string * A)) (d : A) : A :=
  match List.find (fun '(k, _) => String.eqb k key) m with
  | Some (_, x) => x
  | None => d
  end.

Definition float_error (literal field : string) : option error :=
  Some (UnmarshalTypeError ("number " +:+ literal) "float64" field).

(** [valueInterface]: the value an empty interface gets.  A number that is
    no [float64] is an error, and [nil] is stored for it. *)
Fixpoint to_any (field : string) (v : value) : any * option error :=
  match v with
  | Null => (Nil, None)
  | Bool b => (ABool b, None)
  | Number lit =>
    if Strconv.float64_overflows lit then (Nil, float_error lit field)
    else (AFloat64 lit, None)
  | String_ s => (AString s, None)
  | Array vs =>
    fold_left (fun '(out, e) x =>
                 let '(a, e') := to_any field x in
                 (match out with
                  | ASlice l => ASlice (l ++ [a])
                  | _ => out
                  end, Unmarshal.first_error e e'))
              vs (ASlice [], None)
  | Object ms =>
    fold_left (fun '(out, e) '(k, x) =>
                 let '(a, e') := to_any field x in
                 (match out with
                  | AMap m => AMap (<[k := a]> m)
                  | _ => out
                  end, Unmarshal.first_error e e'))
              ms (AMap ∅, None)
  end.

(** The backing array of a slice, from its first element on. *)
Definition backing (cur : val) : list val :=
  match cur with
  | Sl s spare => elems s ++ spare
  | _ => []
  end.

Definition tags (fields : list (string * (string * type))) : list string :=
  map (fun '(_, (tag, _)) => tag) fields.

(** The field a tag belongs to. *)
Definition field_by_tag (fields : list (string * (string * type)))
    (tag : string) : option (string * type) :=
  match List.find (fun '(_, (n, _)) => String.eqb n tag) fields with
  | Some (g, (_, ft)) => Some (g, ft)
  | None => None
  end.

Definition members (cur : val) : list (string * val) :=
  match cur with
  | St fs => fs
  | _ => []
  end.

(** [decodeState.value]: [v] is decoded into a variable of type [t] that
    holds [cur]; [field] is the path of the struct fields that lead to the
    variable.  [null] leaves a string, an integer and a struct as they are
    and makes a slice and an interface [nil]; a value of another kind than
    the type asks for is a type error and the variable stays as it is; an
    empty array makes a new, empty slice; a member without a field is
    skipped. *)
Fixpoint into (v : value) (t : type) (field : string) (cur : val) {struct v}
  : val * option error :=
  match t with
  | TString =>
    match v with
    | String_ s => (Str s, None)
    | Null => (cur, None)
    | _ => (cur, Unmarshal.mismatch v "string" field)
    end
  | TInt64 =>
    match v with
    | Number lit =>
      match Strconv.ParseInt64 lit with
      | Some n => (Int n, None)
      | None => (cur, Some (UnmarshalTypeError ("number " +:+ lit) "int64" field))
      end
    | Null => (cur, None)
    | _ => (cur, Unmarshal.mismatch v "int64" field)
    end
  | TInterface =>
    match v with
    | Number lit =>
      if Strconv.float64_overflows lit then (cur, float_error lit field)
      else (Any (AFloat64 lit), None)
    | _ => let '(a, e) := to_any field v in (Any a, e)
    end
  | TSlice elem =>
    match v with
    | Array [] => (Sl (Some []) [], None)
    | Array vs =>
      let '(out, e) :=
        fold_left (fun '(out, e) x =>
                     let target := List.nth (length out) (backing cur) (zero elem) in
                     let '(a, e') := into x elem field target in
                     (out ++ [a], Unmarshal.first_error e e'))
                  vs ([], None) in
      (Sl (Some out) (skipn (length vs) (backing cur)), e)
    | Null => (Sl None [], None)
    | _ => (cur, Unmarshal.mismatch v (type_name t) field)
    end
  | TStruct name fields =>
    match v with
    | Object ms =>
      fold_left (fun '(a, e) '(k, x) =>
                   match Unmarshal.field_of (tags fields) k with
                   | Some tag =>
                     match field_by_tag fields tag with
                     | Some (g, ft) =>
                       let '(b, e') :=
                         into x ft (Unmarshal.path field tag)
                              (load g (members a) (zero ft)) in
                       (St (store g b (members a)), Unmarshal.first_error e e')
                     | None => (a, e)
                     end
                   | None => (a, e)
                   end)
                ms (cur, None)
    | Null => (cur, None)
    | _ => (cur, Unmarshal.mismatch v name field)
    end
  end.

End Reflect.

(** ** The response to a license request *)

Module LicenseID.
Definition type : Reflect.type :=
  Reflect.TStruct "widevineproxy.LicenseID"
    [("RequestID", ("request_id", Reflect.TString));
     ("SessionID", ("session_id", Reflect.TString));
     ("PurchaseID", ("purchase_id", Reflect.TString));
     ("Type", ("type", Reflect.TString));
     ("Version", ("version", Reflect.TInt64))].
End LicenseID.

Module SessionState.
Definition type : Reflect.type :=
  Reflect.TStruct "widevineproxy.SessionState"
    [("LicenseID", ("license_id", LicenseID.type));
     ("SigningKey", ("signing_key", Reflect.TString));
     ("KeyboxSystemID", ("keybox_system_id", Reflect.TInt64));
     ("LicenseCounter", ("license_counter", Reflect.TInt64))].
End SessionState.

Module ServiceVersionInfo.
Definition type : Reflect.type :=
  Reflect.TStruct "widevineproxy.ServiceVersionInfo"
    [("LicenseSDKVersion", ("license_sdk_version", Reflect.TString));
     ("LicenseServiceVersion", ("license_service_version", Reflect.TString))].
End ServiceVersionInfo.

Module PsshData.
Definition type : Reflect.type :=
  Reflect.TStruct "widevineproxy.PsshData"
    [("KeyID", ("key_id", Reflect.TSlice Reflect.TInterface));
     ("ContentID", ("content_id", Reflect.TString))].
End PsshData.

Module LicenseMetadata.
Definition type : Reflect.type :=
  Reflect.TStruct "widevineproxy.LicenseMetadata"
    [("ContentID", ("content_id", Reflect.TString));
     ("LicenseType", ("license_type", Reflect.TString));
     ("RequestType", ("request_type", Reflect.TString))].
End LicenseMetadata.

Module ClientInfo.
Definition type : Reflect.type :=
  Reflect.TStruct "widevineproxy.ClientInfo"
    [("Name", ("name", Reflect.TString));
     ("Value", ("value", Reflect.TString))].
End ClientInfo.

Module LicenseResponse.

Definition type : Reflect.type :=
  Reflect.TStruct "widevineproxy.LicenseResponse"
    [("Status", ("status", Reflect.TString));
     ("StatusMessage", ("status_message", Reflect.TString));
     ("License", ("license", Reflect.TString));
     ("LicenseMetadata", ("license_metadata", LicenseMetadata.type));
     ("SupportedTracks", ("supported_tracks", Reflect.TSlice Reflect.TInterface));
     ("Make", ("make", Reflect.TString));
     ("Model", ("model", Reflect.TString));
     ("SecurityLevel", ("security_level", Reflect.TInt64));
     ("InternalStatus", ("internal_status", Reflect.TInt64));
     ("SessionState", ("session_state", SessionState.type));
     ("DRMCERTSerialNumber", ("drm_cert_serial_number", Reflect.TString));
     ("DeviceWhitelistState", ("device_whitelist_state", Reflect.TString));
     ("MessageType", ("message_type", Reflect.TString));
     ("Platform", ("platform", Reflect.TString));
     ("DeviceState", ("device_state", Reflect.TString));
     ("PsshData", ("pssh_data", PsshData.type));
     ("ClientMaxHdcpVersion", ("client_max_hdcp_version", Reflect.TString));
     ("ClientInfo", ("client_info", Reflect.TSlice ClientInfo.type));
     ("SignatureExpirationSecs", ("signature_expiration_secs", Reflect.TInt64));
     ("PlatformVerificationStatus",
      ("platform_verification_status", Reflect.TString));
     ("ContentOwner", ("content_owner", Reflect.TString));
     ("ContentProvider", ("content_provider", Reflect.TString));
     ("SystemID", ("system_id", Reflect.TInt64));
     ("OEMCryptoAPIVersion", ("oem_crypto_api_version", Reflect.TInt64));
     ("ResourceRatingTier", ("resource_rating_tier", Reflect.TInt64));
     ("ServiceVersionInfo", ("service_version_info", ServiceVersionInfo.type))].

(** [var lr LicenseResponse]. *)
Definition zero : Reflect.val := Reflect.zero type.

(** [lr.<name>] for a field, or a field of a field, of the response. *)
Definition field (name : string) (lr : Reflect.val) : Reflect.val :=
  Reflect.load name (Reflect.members lr) (Reflect.Str "").

End LicenseResponse.

(** [json.Unmarshal(b, &lr)] for [var lr LicenseResponse]: the text is
    checked as a whole before anything is stored; the text [null] stores
    nothing.  (The branch for [None] makes the function total: the parser
    has a value for a text the scanner accepts.) *)
Definition json_Unmarshal_LicenseResponse (b : list byte) : result Reflect.val :=
  let data := map Bytes.to_Z b in
  match Scanner.checkValid data with
  | Some e => Err e
  | None =>
    match Parser.parse data with
    | None => Err (SyntaxError UnexpectedEnd (Z.of_nat (length data)))
    | Some v =>
      match Reflect.into v LicenseResponse.type "" LicenseResponse.zero with
      | (lr, None) => Ok lr
      | (_, Some e) => Err e
      end
    end
  end.

Section License.

Variable to_LowerCase : Z -> Z.

(** The request [GetLicense] sends for the envelope [msg]. *)
Definition licenseRequest (wp : Proxy) (msg : gmap string GoVal) : Request :=
  let payload := json_Marshal_map (Some msg) in
  let req :=
    NewRequest "POST"
               (getCloudLicenseServiceURL to_LowerCase (Provider wp) "license")
               payload in
  Header_Add req "Content-Type" "application/json".

(** [GetLicense].  [json.Marshal] of the envelope, a map of two strings and
    a [[]byte], does not fail; the error of [ioutil.ReadAll] is dropped in
    the source, and the body of a [Response] is the bytes read. *)
Definition GetLicense (wp : Proxy) (contentID body : string)
  : result Reflect.val :=
  msg ← buildLicenseMessage wp contentID body;
  response ← httpCaller wp (licenseRequest wp msg);
  lr ← json_Unmarshal_LicenseResponse (ResponseBody response);
  mret lr.

End License.

(** ** The fixtures of the tests of the package *)

Module Fixtures.

Definition unhex (s : string) : list byte := default [] (Hex.DecodeString s).

Definition testKey : string :=
  "1ae8ccd0e7985cc0b6203a55855a1034afc252980e970ca90e5202689f947ab9".
Definition testIV : string := "d58ce954203b7c9a9a9d467f59839249".

Definition FakeKeyGoverner : KeyGoverner :=
  {| GenerateContentKeyID := fun contentID => MD5.Sum contentID;
     GenerateContentKey := fun _ => [];
     GenerateContentIV := fun _ => [];
     GenerateContentKeySpec := fun _ _ =>
       Ok [ {| ContentKeySpec.KeyID := "base64EncodedString";
               ContentKeySpec.Key := "base64EncodedString";
               ContentKeySpec.IV := "base64EncodedString";
               ContentKeySpec.TrackType := "SD" |} ] |}.

(** A service that is never reached. *)
Definition unreachable : Request -> result Response :=
  fun req => Err (UrlError "Post" (URL req) "connection refused").

Definition wv : Proxy :=
  NewWidevineProxy (unhex testKey) (unhex testIV) "widevine_test"
                   FakeKeyGoverner unreachable.

(** The single block of FIPS 197 under the key [key]. *)
Definition encrypt_hex (key blk : string) : string :=
  let k := map Bytes.to_Z (unhex key) in
  Hex.EncodeToString
    (map Bytes.of_Z
       (AES.encrypt_block (AES.KeyExpansion k) (length k / 4 + 6)
          (map Bytes.to_Z (unhex blk)))).

(** The scanner and the parser on a text written with apostrophes. *)
Definition check (s : string) : option error :=
  Scanner.checkValid (map Bytes.to_Z (Json.text s)).

Definition first_value (s : string) : result string :=
  match Scanner.readValue (map Bytes.to_Z (Json.text s)) with
  | Ok v => Ok (Bytes.of_codes v)
  | Err e => Err e
  end.

Definition parse (s : string) : option Json.value :=
  Parser.parse (map Bytes.to_Z (Json.text s)).

(** A case table without entries: the purposes the package resolves,
    [license] and [key], are ASCII and never reach the table. *)
Definition no_case_table : Z -> Z := fun r => r.

(** A service that answers every request with the body [body]. *)
Definition replying (body : string) : Request -> result Response :=
  fun _ => Ok {| StatusCode := 200; ResponseBody := Json.text body |}.

(** A service that answers with [inner], encoded in base64, as the
    [response] member of its reply. *)
Definition wrapping (inner : string) : Request -> result Response :=
  fun _ =>
    Ok {| StatusCode := 200;
          ResponseBody :=
            Json.text "{'response':'"
              ++ Bytes.bytes_of_string (Base64.EncodeToString (Json.text inner))
              ++ Json.text "'}" |}.

(** A service that answers with the body of the request it was sent. *)
Definition echo : Request -> result Response :=
  fun req => Ok {| StatusCode := 200; ResponseBody := Body req |}.

Definition policy : Policy.t :=
  {| Policy.ContentID := "testing";
     Policy.Tracks := Some ["SD"; "HD"; "AUDIO"];
     Policy.DRMTypes := Some ["WIDEVINE"];
     Policy.Policy := "default" |}.

Definition no_tracks : Policy.t :=
  {| Policy.ContentID := "testing";
     Policy.Tracks := Some [];
     Policy.DRMTypes := Some ["WIDEVINE"];
     Policy.Policy := "default" |}.

(** The proxy of the tests with [service] for its HTTP client. *)
Definition wv_with (service : Request -> result Response) : Proxy :=
  NewWidevineProxy (unhex testKey) (unhex testIV) "widevine_test"
                   FakeKeyGoverner service.

(** The proxy of the usage example of the README: its key has twelve
    bytes, which the cipher rejects. *)
Definition readme_proxy (service : Request -> result Response) : Proxy :=
  NewWidevineProxy (Bytes.bytes_of_string "Widevine Key")
                   (Bytes.bytes_of_string "Widevine iv")
                   "widevine_test" FakeKeyGoverner service.

Definition getContentKey (wp : Proxy) : result (option ContentKeyResponse.t) :=
  GetContentKey no_case_table wp "testing" policy.

End Fixtures.

(** ** Variants of a proxy and of a service *)

(** The proxy [wp] with [service] for its HTTP client. *)
Definition with_service (wp : Proxy) (service : Request -> result Response)
  : Proxy :=
  {| PartnerRootKey := PartnerRootKey wp; PartnerRootIV := PartnerRootIV wp;
     Provider := Provider wp; ContentKeyGenerator := ContentKeyGenerator wp;
     httpCaller := service |}.

(** The proxy [wp] with [governer] for its key governer. *)
Definition with_governer (wp : Proxy) (governer : KeyGoverner) : Proxy :=
  {| PartnerRootKey := PartnerRootKey wp; PartnerRootIV := PartnerRootIV wp;
     Provider := Provider wp; ContentKeyGenerator := governer;
     httpCaller := httpCaller wp |}.

(** The service that answers as [service] does, with the status [code]. *)
Definition with_status (code : Z) (service : Request -> result Response)
  : Request -> result Response :=
  fun req =>
    match service req with
    | Ok r => Ok {| StatusCode := code; ResponseBody := ResponseBody r |}
    | Err e => Err e
    end.

(** The service that answers as [service] does, with [extra] after the
    body. *)
Definition followed_by (extra : list byte) (service : Request -> result Response)
  : Request -> result Response :=
  fun req =>
    match service req with
    | Ok r => Ok {| StatusCode := StatusCode r;
                    ResponseBody := ResponseBody r ++ extra |}
    | Err e => Err e
    end.

(** The requests of the tests, with the table of ASCII. *)
Module LicenseFixtures.
Import Fixtures.

Definition getLicense (wp : Proxy) : result Reflect.val :=
  GetLicense no_case_table wp "testing" "CAQ=".

(** The status of a response. *)
Definition status (r : result Reflect.val) : result Reflect.val :=
  match r with
  | Ok lr => Ok (LicenseResponse.field "Status" lr)
  | Err e => Err e
  end.

(** A governer that differs from the one of the tests in everything but
    the content key. *)
Definition other_governer : KeyGoverner :=
  {| GenerateContentKeyID := fun contentID => contentID;
     GenerateContentKey := fun _ => [];
     GenerateContentIV := fun contentID => MD5.Sum contentID;
     GenerateContentKeySpec := fun _ _ => Ok [] |}.

(** The signature of [payload], when the signer gives one. *)
Definition signature_of (wp : Proxy) (payload : list byte) : list byte :=
  match generateSignature wp payload with
  | Ok sign => sign
  | Err _ => []
  end.

(** The policy of the tests with another content identifier in it. *)
Definition policy_of_other_content : Policy.t :=
  {| Policy.ContentID := "something else";
     Policy.Tracks := Some ["SD"; "HD"; "AUDIO"];
     Policy.DRMTypes := Some ["WIDEVINE"];
     Policy.Policy := "default" |}.

(** A reply of the shape the service documents. *)
Definition sample_reply : string :=
  "{'status':'OK','license':'CAIS','license_metadata':{'content_id':'dGVzdGluZw==',"
  +:+ "'license_type':'STREAMING','request_type':'NEW'},"
  +:+ "'supported_tracks':[{'type':'SD','key_id':'AAAA'},{'type':'HD','key_id':'BBBB'}],"
  +:+ "'make':'Google','model':'ChromeCDM','security_level':3,'internal_status':0,"
  +:+ "'session_state':{'license_id':{'request_id':'r','session_id':'s',"
  +:+ "'purchase_id':'','type':'STREAMING','version':0},'signing_key':'k',"
  +:+ "'keybox_system_id':4464,'license_counter':0},"
  +:+ "'pssh_data':{'key_id':['AAAA'],'content_id':'dGVzdGluZw=='},"
  +:+ "'client_info':[{'name':'architecture_name','value':'x86-64'}],"
  +:+ "'system_id':4464,'oem_crypto_api_version':16,'unknown_member':[1,2]}".

End LicenseFixtures.

(** ** Shapes of a reply *)

(** A reply that names no field of the struct [t]: the text [null], or an
    object none of whose members belongs to a field of [t]. *)
Definition names_no_field (t : Reflect.type) (v : Json.value) : bool :=
  match t, v with
  | _, Json.Null => true
  | Reflect.TStruct _ fields, Json.Object ms =>
    forallb (fun '(k, _) =>
               bool_decide (Unmarshal.field_of (Reflect.tags fields) k = None))
            ms
  | _, _ => false
  end.

(** A byte that stands for itself inside a JSON string literal: ASCII that
    is no control character, no quote and no backslash. *)
Definition is_plain_byte (c : Z) : bool :=
  (32 <=? c) && (c <? 128) && negb (c =? 34) && negb (c =? 92).

Definition is_plain (s : string) : bool := forallb is_plain_byte (Bytes.codes s).

(** ** Texts that [Marshal] writes without an escape *)

(** A byte [Marshal] copies into a string literal as it is: a plain byte
    that is none of the characters of HTML it escapes. *)
Definition is_safe_byte (c : Z) : bool :=
  is_plain_byte c && negb ((c =? 60) || (c =? 62) || (c =? 38)).

Definition is_safe (s : string) : bool := forallb is_safe_byte (Bytes.codes s).

(** A value whose strings, the names of the members included, are safe and
    which holds no number. *)
Fixpoint safe_value (v : Json.value) : bool :=
  match v with
  | Json.Null | Json.Bool _ => true
  | Json.Number _ => false
  | Json.String_ s => is_safe s
  | Json.Array vs => forallb safe_value vs
  | Json.Object ms => forallb (fun '(k, x) => is_safe k && safe_value x) ms
  end.

(** How deep the arrays and objects of a value are nested. *)
Fixpoint depth (v : Json.value) : Z :=
  match v with
  | Json.Array vs => 1 + fold_right (fun x d => Z.max (depth x) d) 0 vs
  | Json.Object ms => 1 + fold_right (fun '(_, x) d => Z.max (depth x) d) 0 ms
  | _ => 0
  end.

(** The number of values in a value, itself included. *)
Fixpoint nodes (v : Json.value) : nat :=
  match v with
  | Json.Array vs => S (fold_right (fun x n => (S (nodes x) + n)%nat) O vs)
  | Json.Object ms => S (fold_right (fun '(_, x) n => (S (nodes x) + n)%nat) O ms)
  | _ => 1%nat
  end.

(** The text of a member of an object. *)
Definition member_text : string * Json.value -> list Z :=
  fun '(k, x) => Json.quote k ++ [58] ++ Json.encode x.

(** The parser reads the text of [v] back as [v], whatever follows it. *)
Definition reads_back (v : Json.value) : Prop :=
  safe_value v = true ->
  forall fuel rest,
    (nodes v <= fuel)%nat ->
    Parser.parse_value fuel (Json.encode v ++ rest) = Some (v, rest).

(** The scanner where a value may begin, and where it is once the value
    that began in the state [s] is read. *)
Definition before_value (s : Scanner.t) : Prop :=
  Scanner.err s = None
  /\ (Scanner.step s = Scanner.stateBeginValue
      \/ Scanner.step s = Scanner.stateBeginValueOrEmpty).

Definition after_value (s s' : Scanner.t) : Prop :=
  Scanner.parseState s' = Scanner.parseState s
  /\ Scanner.err s' = None
  /\ (Scanner.step s' = Scanner.stateEndValue
      \/ (Scanner.parseState s = [] /\ Scanner.step s' = Scanner.stateEndTop
          /\ Scanner.endTop s' = true)).

(** The scanner reads the text of [v] from a state where a value may begin,
    as long as the nesting stays within its limit. *)
Definition scans (v : Json.value) : Prop :=
  safe_value v = true ->
  forall s rest,
    before_value s ->
    Z.of_nat (length (Scanner.parseState s)) + depth v <= Scanner.maxNestingDepth ->
    exists s',
      after_value s s'
      /\ Scanner.checkValid_from s (Json.encode v ++ rest)
         = Scanner.checkValid_from s' rest.

(** ** Tactics of the proofs *)

(** Every symbolic string literal of the goal becomes a variable, so that
    the rest of a JSON text can be computed. *)
Ltac abstract_quotes :=
  repeat match goal with
         | |- context [Json.quote ?s] =>
           lazymatch s with
           | EmptyString => fail
           | String _ _ => fail
           | _ => generalize (Json.quote s); intro
           end
         end.

(** The case analysis of one step of the scanner. *)
Ltac scanner_cases :=
  repeat (cbn [Scanner.err Scanner.with_step Scanner.with_stack
               Scanner.at_top Scanner.count Scanner.error_ fst snd
               Scanner.pushParseState Scanner.popParseState Scanner.expect
               Scanner.expect_hex];
          try match goal with
              | |- context [match ?x with _ => _ end] => destruct x
              | |- context [if ?b then _ else _] => destruct b
              end);
  auto.


(** One byte of a text under the scanner, the state being known: the step
    is computed and the equation [continue] of a byte that does not end the
    scan moves past it. *)
Ltac read_byte continue :=
  match goal with
  | |- context [Scanner.readValue_from ?s ?seen (?c :: ?rest)] =>
    let r := eval vm_compute in (Scanner.run (Scanner.count s) c) in
    match r with
    | (?s', ?op) =>
      rewrite (continue s seen c rest s' op)
        by (vm_compute; first [reflexivity | exact I])
    end
  end.

Ltac check_byte continue :=
  match goal with
  | |- context [Scanner.checkValid_from ?s (?c :: ?rest)] =>
    let r := eval vm_compute in (Scanner.run (Scanner.count s) c) in
    match r with
    | (?s', ?op) =>
      rewrite (continue s c rest s' op)
        by (vm_compute; first [reflexivity | exact I])
    end
  end.

(** A state whose fields are known is taken apart, for the step to be
    computed. *)
Ltac known_state s :=
  let st := fresh "st" in
  let top := fresh "top" in
  let ps := fresh "ps" in
  let e := fresh "e" in
  let n := fresh "n" in
  destruct s as [st top ps e n];
  cbn [Scanner.step Scanner.parseState Scanner.err Scanner.endTop] in *; subst.


(** * Facts *)

Module BytesFacts.
Import Bytes.

Lemma to_Z_range b : 0 <= to_Z b < 256.
Proof.
  unfold to_Z. pose proof (Byte.to_N_bounded b) as H.
  lia.
Qed.

Lemma of_to_Z b : of_Z (to_Z b) = b.
Proof.
  unfold of_Z, to_Z. pose proof (to_Z_range b) as H. unfold to_Z in H.
  rewrite Z.mod_small by lia. rewrite N2Z.id. now rewrite Byte.of_to_N.
Qed.

Lemma to_of_Z z : to_Z (of_Z z) = z mod 256.
Proof.
  unfold of_Z, to_Z.
  pose proof (Z.mod_pos_bound z 256 ltac:(lia)) as H.
  destruct (Byte.of_N (Z.to_N (z mod 256))) as [b|] eqn:E.
  - apply Byte.to_of_N in E. rewrite E. lia.
  - apply Byte.of_N_None_iff in E. lia.
Qed.

Lemma string_of_bytes_of_string s : string_of_bytes (bytes_of_string s) = s.
Proof. apply string_of_list_byte_of_string. Qed.

Lemma bytes_of_string_of_bytes b : bytes_of_string (string_of_bytes b) = b.
Proof. apply list_byte_of_string_of_list_byte. Qed.

Lemma map_of_to_Z l : map of_Z (map to_Z l) = l.
Proof. induction l as [|b l IH]; simpl; [easy|]. now rewrite of_to_Z, IH. Qed.

Lemma of_codes_codes s : of_codes (codes s) = s.
Proof.
  unfold of_codes, codes. rewrite map_of_to_Z. apply string_of_bytes_of_string.
Qed.

End BytesFacts.

(** ** Checks of the UTF-8 and case-mapping model *)

Module Utf8Facts.
Import Utf8 Strings.

Example decode_ascii : DecodeRune [0x4B] = (0x4B, 1%nat).
Proof. reflexivity. Qed.

Example decode_kelvin : DecodeRune [0xE2; 0x84; 0xAA] = (0x212A, 3%nat).
Proof. reflexivity. Qed.

Example decode_overlong : DecodeRune [0xC0; 0x80] = (RuneError, 1%nat).
Proof. reflexivity. Qed.

Example decode_surrogate : DecodeRune [0xED; 0xA0; 0x80] = (RuneError, 1%nat).
Proof. reflexivity. Qed.

Example encode_kelvin : EncodeRune 0x212A = [0xE2; 0x84; 0xAA].
Proof. reflexivity. Qed.

Example encode_emoji : EncodeRune 0x1F600 = [0xF0; 0x9F; 0x98; 0x80].
Proof. reflexivity. Qed.

Example runes_mixed :
  map fst (runes [0x61; 0xC3; 0xA9; 0xFF; 0x62]) = [0x61; 0xE9; RuneError; 0x62].
Proof. reflexivity. Qed.

Example ToLower_KEY : forall f, ToLower f "KeY" = "key".
Proof. reflexivity. Qed.

End Utf8Facts.

(** ** Checks of the base64 model *)

Module Base64Facts.
Import Base64.

Example encode_rfc4648 :
  map (fun s => EncodeToString (Bytes.bytes_of_string s))
      [""; "f"; "fo"; "foo"; "foob"; "fooba"; "foobar"]
  = [""; "Zg=="; "Zm8="; "Zm9v"; "Zm9vYg=="; "Zm9vYmE="; "Zm9vYmFy"].
Proof. reflexivity. Qed.

Example decode_rfc4648 :
  map DecodeString ["Zg=="; "Zm8="; "Zm9vYmFy"]
  = map (fun s => (Bytes.bytes_of_string s, None)) ["f"; "fo"; "foobar"].
Proof. reflexivity. Qed.

(** Corrupt input: a character outside the alphabet, a missing padding, and
    data after the padding (the padded quantum is still delivered). *)
Example decode_corrupt :
  map DecodeString ["Zm9!"; "Zg="; "Zg"; "e30=e30="; "Zm9v
Zg=="]
  = [([], Some (CorruptInputError 3));
     ([], Some (CorruptInputError 3));
     ([], Some (CorruptInputError 0));
     (Bytes.bytes_of_string "{}", Some (CorruptInputError 4));
     (Bytes.bytes_of_string "foof", None)].
Proof. reflexivity. Qed.

End Base64Facts.

(** ** Decoding inverts encoding *)

Module Base64Inverse.
Import Base64 Bytes.

Lemma land63_range x : 0 <= x -> 0 <= Z.land x 0x3F < 64.
Proof.
  intros Hx. change 0x3F with (Z.ones 6). rewrite Z.land_ones by lia.
  apply Z.mod_pos_bound. lia.
Qed.

Lemma dec6_enc6 v : 0 <= v < 64 -> dec6 (enc6 v) = Some v.
Proof.
  intros Hv. rewrite <- (Z2Nat.id v) by lia.
  assert (Hn : (Z.to_nat v < 64)%nat) by lia.
  generalize dependent (Z.to_nat v). clear v Hv. intros n Hn.
  do 64 (destruct n as [|n]; [reflexivity|]). lia.
Qed.

Lemma enc6_byte v : is_byte (enc6 v).
Proof.
  unfold enc6, is_byte.
  destruct (nth_in_or_default (Z.to_nat v) (Bytes.codes encodeStd) 0) as [Hin | ->];
    [| lia].
  revert Hin. generalize (List.nth (Z.to_nat v) (Bytes.codes encodeStd) 0).
  intros z Hin. vm_compute in Hin.
  repeat (destruct Hin as [<- | Hin]; [lia|]). destruct Hin.
Qed.

Lemma dec6_sextet val sh :
  0 <= val -> dec6 (sextet val sh) = Some (Z.land (Z.shiftr val sh) 0x3F).
Proof.
  intros Hv. unfold sextet. apply dec6_enc6, land63_range.
  apply Z.shiftr_nonneg. lia.
Qed.

Lemma group_nonneg a b c :
  is_byte a -> is_byte b -> is_byte c ->
  0 <= Z.lor (Z.shiftl a 16) (Z.lor (Z.shiftl b 8) c).
Proof.
  unfold Bytes.is_byte. intros. rewrite !Z.lor_nonneg, !Z.shiftl_nonneg. lia.
Qed.

(** The three bytes of a full quantum. *)
Lemma quantum3 a b c :
  is_byte a -> is_byte b -> is_byte c ->
  let val := Z.lor (Z.shiftl a 16) (Z.lor (Z.shiftl b 8) c) in
  quantum_bytes 4
    [Z.land (Z.shiftr val 18) 0x3F; Z.land (Z.shiftr val 12) 0x3F;
     Z.land (Z.shiftr val 6) 0x3F; Z.land (Z.shiftr val 0) 0x3F]
  = [a; b; c].
Proof.
  unfold Bytes.is_byte. intros Ha Hb Hc. cbv zeta.
  unfold quantum_bytes, quantum_val, octet. cbn [List.nth].
  change 0xFF with (Z.ones 8). change 0x3F with (Z.ones 6).
  change 256 with (2 ^ 8) in *.
  f_equal; [| f_equal; [| f_equal]]; prove_Zeq_bitwise.
Qed.

(** The two bytes of a quantum with one padding character. *)
Lemma quantum2 a b :
  is_byte a -> is_byte b ->
  let val := Z.lor (Z.shiftl a 16) (Z.shiftl b 8) in
  quantum_bytes 3
    [Z.land (Z.shiftr val 18) 0x3F; Z.land (Z.shiftr val 12) 0x3F;
     Z.land (Z.shiftr val 6) 0x3F]
  = [a; b].
Proof.
  unfold Bytes.is_byte. intros Ha Hb. cbv zeta.
  unfold quantum_bytes, quantum_val, octet. cbn [List.nth].
  change 0xFF with (Z.ones 8). change 0x3F with (Z.ones 6).
  change 256 with (2 ^ 8) in *.
  f_equal; [| f_equal]; prove_Zeq_bitwise.
Qed.

(** The byte of a quantum with two padding characters. *)
Lemma quantum1 a :
  is_byte a ->
  let val := Z.shiftl a 16 in
  quantum_bytes 2 [Z.land (Z.shiftr val 18) 0x3F; Z.land (Z.shiftr val 12) 0x3F]
  = [a].
Proof.
  unfold Bytes.is_byte. intros Ha. cbv zeta.
  unfold quantum_bytes, quantum_val, octet. cbn [List.nth].
  change 0xFF with (Z.ones 8). change 0x3F with (Z.ones 6).
  change 256 with (2 ^ 8) in *.
  f_equal; prove_Zeq_bitwise.
Qed.

(** Induction over a list three elements at a time. *)
Lemma list_ind3 {A} (P : list A -> Prop) :
  P [] -> (forall a, P [a]) -> (forall a b, P [a; b]) ->
  (forall a b c l, P l -> P (a :: b :: c :: l)) ->
  forall l, P l.
Proof.
  intros H0 H1 H2 H3.
  fix IH 1. intros [|a [|b [|c l]]];
    [exact H0 | apply H1 | apply H2 | apply H3, IH].
Qed.

(** One step of the decoder on a character of the alphabet. *)
Lemma decode_from_sextet val sh rest si dbuf :
  0 <= val ->
  decode_from (sextet val sh :: rest) si dbuf
  = if (length dbuf =? 3)%nat then
      let '(out, e) := decode_from rest (si + 1) [] in
      (quantum_bytes 4 (dbuf ++ [Z.land (Z.shiftr val sh) 0x3F]) ++ out, e)
    else decode_from rest (si + 1) (dbuf ++ [Z.land (Z.shiftr val sh) 0x3F]).
Proof.
  intros Hv. cbn [decode_from]. now rewrite dec6_sextet.
Qed.

Lemma decode_from_Encode src :
  Forall is_byte src -> forall si, decode_from (Encode src) si [] = (src, None).
Proof.
  induction src as [| a | a b | a b c l IH] using list_ind3; intros Hall si.
  - reflexivity.
  - apply Forall_cons in Hall as [Ha _].
    assert (0 <= Z.shiftl a 16) by (apply Z.shiftl_nonneg; unfold Bytes.is_byte in Ha; lia).
    cbn [Encode]. rewrite !decode_from_sextet by assumption.
    cbn -[quantum_bytes Z.shiftl Z.shiftr Z.land]. now rewrite quantum1.
  - apply Forall_cons in Hall as [Ha Hall]. apply Forall_cons in Hall as [Hb _].
    assert (0 <= Z.lor (Z.shiftl a 16) (Z.shiftl b 8))
      by (unfold Bytes.is_byte in *; rewrite Z.lor_nonneg, !Z.shiftl_nonneg; lia).
    cbn [Encode]. rewrite !decode_from_sextet by assumption.
    cbn -[quantum_bytes Z.shiftl Z.shiftr Z.land Z.lor]. now rewrite quantum2.
  - apply Forall_cons in Hall as [Ha Hall]. apply Forall_cons in Hall as [Hb Hall].
    apply Forall_cons in Hall as [Hc Hall].
    pose proof (group_nonneg a b c Ha Hb Hc).
    cbn [Encode]. rewrite !decode_from_sextet by assumption.
    cbn [length Nat.eqb app]. rewrite IH by assumption.
    now rewrite quantum3.
Qed.

Lemma Encode_bytes src : Forall is_byte (Encode src).
Proof.
  induction src as [| a | a b | a b c l IH] using list_ind3; cbn [Encode];
    repeat constructor; try apply enc6_byte; try (unfold Bytes.is_byte, padChar; lia).
  exact IH.
Qed.

Lemma codes_of_codes l : Forall is_byte l -> Bytes.codes (Bytes.of_codes l) = l.
Proof.
  intros Hall. unfold Bytes.codes, Bytes.of_codes.
  rewrite BytesFacts.bytes_of_string_of_bytes.
  induction Hall as [| z l Hz _ IH]; cbn; [reflexivity|].
  rewrite IH, BytesFacts.to_of_Z. unfold Bytes.is_byte in Hz.
  now rewrite Z.mod_small by lia.
Qed.

Lemma to_Z_bytes (bs : list byte) : Forall is_byte (map Bytes.to_Z bs).
Proof.
  induction bs; constructor; [apply BytesFacts.to_Z_range | assumption].
Qed.

(** [DecodeString] gives back what [EncodeToString] was given, without an
    error. *)
Lemma DecodeString_EncodeToString (bs : list byte) :
  DecodeString (EncodeToString bs) = (bs, None).
Proof.
  unfold DecodeString, EncodeToString, Decode.
  rewrite codes_of_codes by apply Encode_bytes.
  rewrite decode_from_Encode by apply to_Z_bytes.
  cbn. now rewrite BytesFacts.map_of_to_Z.
Qed.

End Base64Inverse.

(** ** Checks of the hash models against published test vectors *)

Module HashFacts.

Example sha1_vectors :
  map (fun s => Hex.EncodeToString (SHA1.Sum (Bytes.bytes_of_string s)))
      [""; "abc";
       "abcdbcdecdefdefgefghfghighijhijkijkljklmklmnlmnomnopnopq"]
  = ["da39a3ee5e6b4b0d3255bfef95601890afd80709";
     "a9993e364706816aba3e25717850c26c9cd0d89d";
     "84983e441c3bd26ebaae4aa1f95129e5e54670f1"].
Proof. vm_compute. reflexivity. Qed.

Example md5_vectors :
  map (fun s => Hex.EncodeToString (MD5.Sum (Bytes.bytes_of_string s)))
      [""; "abc"; "message digest";
       "12345678901234567890123456789012345678901234567890123456789012345678901234567890"]
  = ["d41d8cd98f00b204e9800998ecf8427e";
     "900150983cd24fb0d6963f7d28e17f72";
     "f96b697d7cb7938d525a2f31aaf161d0";
     "57edf4a22be3c955ac49da2e2107b67a"].
Proof. vm_compute. reflexivity. Qed.

End HashFacts.

(** ** Checks of the JSON model *)

Module JsonFacts.

Example marshal_test_payload :
  Json.encode
    (Json.Object [("isTest", Json.Bool true); ("test", Json.String_ "testing");
                  ("test2", Json.String_ "testing2");
                  ("test3", Json.String_ "testing3")])
  = map Bytes.to_Z
      (Json.text "{'isTest':true,'test':'testing','test2':'testing2','test3':'testing3'}").
Proof. reflexivity. Qed.

Example marshal_map_sorted :
  json_Marshal_map
    (Some (<["signer" := VString "p<1>"]>
             (<["request" := VString "e30="]>
                (<["signature" := VBytes (Bytes.bytes_of_string "foo")]> ∅))))
  = Json.text "{'request':'e30=','signature':'Zm9v','signer':'p\u003c1\u003e'}".
Proof. vm_compute. reflexivity. Qed.

Example marshal_nil : json_Marshal_map None = Json.text "null".
Proof. reflexivity. Qed.

End JsonFacts.

Module ScannerFacts.
Import Scanner.

Import Fixtures.

Example valid_texts :
  map check ["{}"; " {'a':[1,2.5e-3,true,null,'xé\n']} "; "0"; "-12"; "'s'";
             "[]"; "[[],{}]"]
  = [None; None; None; None; None; None; None].
Proof. vm_compute. reflexivity. Qed.

Example invalid_texts :
  map check ["x"; ""; "{"; "{'a'}"; "[1 2]"; "{} x"; "tru"; "01"; "{'a':1,}"]
  = [Some (SyntaxError (InvalidCharacter 120 "looking for beginning of value") 1);
     Some (SyntaxError UnexpectedEnd 0);
     Some (SyntaxError UnexpectedEnd 1);
     Some (SyntaxError (InvalidCharacter 125 "after object key") 5);
     Some (SyntaxError (InvalidCharacter 50 "after array element") 4);
     Some (SyntaxError (InvalidCharacter 120 "after top-level value") 4);
     Some (SyntaxError (InvalidCharacter 32 "in literal true (expecting 'e')") 3);
     Some (SyntaxError (InvalidCharacter 49 "after top-level value") 2);
     Some (SyntaxError (InvalidCharacter 125
                          "looking for beginning of object key string") 8)].
Proof. vm_compute. reflexivity. Qed.

Example stream_values :
  map first_value ["{'a':1} trailing"; "12 "; "12"; " 'ab'x"; ""; "  "; "{'a':";
                   "x"]
  = [Ok (Bytes.string_of_bytes (Json.text "{'a':1}")); Ok "12"; Ok "12";
     Ok (Bytes.string_of_bytes (Json.text " 'ab'"));
     Err ErrEOF; Err ErrEOF; Err ErrUnexpectedEOF;
     Err (SyntaxError (InvalidCharacter 120 "looking for beginning of value") 1)].
Proof. vm_compute. reflexivity. Qed.

End ScannerFacts.

Module ParserFacts.
Import Fixtures Json.

Example parse_object :
  parse " {'a' : [1, 2.5e-3, true, null, 'x\tyA\/'], 'b': {}, 'a': false} "
  = Some (Object [("a", Array [Number "1"; Number "2.5e-3"; Bool true; Null;
                               String_ (Bytes.of_codes [120; 9; 121; 65; 47])]);
                  ("b", Object []); ("a", Bool false)]).
Proof. vm_compute. reflexivity. Qed.

(** An escaped pair of surrogates is one rune; a lone surrogate and a byte
    that is not UTF-8 are replaced by U+FFFD. *)
Example parse_surrogates :
  parse "['\ud83d\ude00', '\ud83dx', '\ude00']"
  = Some (Array [String_ (Bytes.of_codes [0xF0; 0x9F; 0x98; 0x80]);
                 String_ (Bytes.of_codes [0xEF; 0xBF; 0xBD; 120]);
                 String_ (Bytes.of_codes [0xEF; 0xBF; 0xBD])]).
Proof. vm_compute. reflexivity. Qed.

(** What [Marshal] writes is read back. *)
Example parse_encode :
  let v := Object [("k<", Array [String_ "a
b"; Number "-0.5"; Bool false]);
                   ("", Object [("n", Null)])] in
  Parser.parse (encode v) = Some v.
Proof. vm_compute. reflexivity. Qed.

End ParserFacts.

(** ** Checks of the cipher model against FIPS 197 *)

Module AESFacts.

Import Fixtures.

Example sbox_values : map AES.sbox [0x00; 0x01; 0x53; 0xff] = [0x63; 0x7c; 0xed; 0x16].
Proof. reflexivity. Qed.

Example fips197_aes128 :
  encrypt_hex "000102030405060708090a0b0c0d0e0f" "00112233445566778899aabbccddeeff"
  = "69c4e0d86a7b0430d8cdb78070b4c55a".
Proof. vm_compute. reflexivity. Qed.

Example fips197_aes192 :
  encrypt_hex "000102030405060708090a0b0c0d0e0f1011121314151617"
              "00112233445566778899aabbccddeeff"
  = "dda97ca4864cdfe06eaf70a0ec0d7191".
Proof. vm_compute. reflexivity. Qed.

Example fips197_aes256 :
  encrypt_hex "000102030405060708090a0b0c0d0e0f101112131415161718191a1b1c1d1e1f"
              "00112233445566778899aabbccddeeff"
  = "8ea2b7ca516745bfeafc49904b496089".
Proof. vm_compute. reflexivity. Qed.

End AESFacts.

(** ** The signer against the test of the repository *)

Module SignerFacts.
Import Fixtures.

(** [TestGenerateSignature]: the signature of the JSON text of the test
    payload under the test key and vector. *)
Example golden_signature :
  let payload : gmap string GoVal :=
    {[ "test" := VString "testing"; "test2" := VString "testing2";
       "test3" := VString "testing3"; "isTest" := VBool true ]} in
  option_map Base64.EncodeToString
    (match generateSignature wv (json_Marshal_map (Some payload)) with
     | Ok sign => Some sign
     | Err _ => None
     end)
  = Some "ga80QzRuUM+jnPcoR6UWs5TXrTQ2VgeYiu0FoqCNRH4=".
Proof. vm_compute. reflexivity. Qed.

End SignerFacts.

(** * The claims of the specification *)

(** ** The endpoint resolver *)

Section ResolverFacts.

Variable to_LowerCase : Z -> Z.

Lemma String_eqb_neq (s t : string) : s <> t -> String.eqb s t = false.
Proof. intros H. now apply String.eqb_neq. Qed.

(** C6.  For the purposes [license] and [key] the provider [widevine_test]
    resolves to the URL of the UAT host and every other provider to the URL
    of the production host; whatever the provider and the purpose, the
    result is never a URL of the staging host. *)
Theorem resolver_selects_environment (provider purpose : string) :
  getCloudLicenseServiceURL to_LowerCase "widevine_test" "license"
  = widevineModularUATGetLicenseURL +:+ "widevine_test"
  /\ getCloudLicenseServiceURL to_LowerCase "widevine_test" "key"
     = widevineModularUATGetKeyURL +:+ "widevine_test"
  /\ (provider <> "widevine_test" ->
      getCloudLicenseServiceURL to_LowerCase provider "license"
      = widevineModularProductionGetLicenseURL +:+ "widevine_test"
      /\ getCloudLicenseServiceURL to_LowerCase provider "key"
         = widevineModularProductionGetKeyURL +:+ "widevine_test")
  /\ String.prefix "https://license.staging.widevine.com"
       (getCloudLicenseServiceURL to_LowerCase provider purpose) = false
  /\ String.prefix widevineModularStagingGetLicenseURL
       (getCloudLicenseServiceURL to_LowerCase provider purpose) = false
  /\ String.prefix widevineModularStagingGetKeyURL
       (getCloudLicenseServiceURL to_LowerCase provider purpose) = false
  /\ String.prefix widevineClassicStagingGetLicenseURL
       (getCloudLicenseServiceURL to_LowerCase provider purpose) = false
  /\ String.prefix widevineClassicStagingGetKeyURL
       (getCloudLicenseServiceURL to_LowerCase provider purpose) = false.
Proof.
  split; [reflexivity|]. split; [reflexivity|]. split.
  - intros Hne. apply String_eqb_neq in Hne.
    unfold getCloudLicenseServiceURL.
    change (Strings.ToLower to_LowerCase "license") with "license".
    change (Strings.ToLower to_LowerCase "key") with "key".
    cbn [String.eqb Ascii.eqb Bool.eqb]. rewrite Hne. split; reflexivity.
  - unfold getCloudLicenseServiceURL.
    repeat split; repeat case_match; reflexivity.
Qed.

(** C7.  For every provider the URL resolved for the purpose [key] ends
    with the path segment [widevine_test], as it does for the provider
    [widevine_test] itself. *)
Theorem key_url_ends_with_test_provider (provider : string) :
  Strings.last_segment (getCloudLicenseServiceURL to_LowerCase provider "key")
  = "widevine_test"
  /\ Strings.last_segment
       (getCloudLicenseServiceURL to_LowerCase "widevine_test" "key")
     = Strings.last_segment
         (getCloudLicenseServiceURL to_LowerCase provider "key").
Proof.
  unfold getCloudLicenseServiceURL.
  change (Strings.ToLower to_LowerCase "key") with "key".
  cbn [String.eqb Ascii.eqb Bool.eqb].
  destruct (String.eqb provider "widevine_test"); split; reflexivity.
Qed.

End ResolverFacts.

(** Witness of [resolver_selects_environment]: the provider [acme]. *)
Lemma resolver_other_provider :
  getCloudLicenseServiceURL Fixtures.no_case_table "acme" "license"
  = widevineModularProductionGetLicenseURL +:+ "widevine_test"
  /\ getCloudLicenseServiceURL Fixtures.no_case_table "acme" "key"
     = widevineModularProductionGetKeyURL +:+ "widevine_test".
Proof.
  apply (resolver_selects_environment Fixtures.no_case_table "acme" "key").
  discriminate.
Defined.

(** ** The license message *)

Lemma md5_length data : length (MD5.Sum data) = 16%nat.
Proof.
  unfold MD5.Sum, MD5.digest. rewrite length_map.
  destruct (fold_left MD5.block _ MD5.init) as [[[a b] c] d]. reflexivity.
Qed.

(** C5.  The message [buildLicenseMessage] builds has the challenge of the
    caller as payload, the base64 text of the content id, the provider of
    the proxy, the marker [SD_UHD1], and one key specification whose key is
    the base64 text of the key the key governer derives and whose key id is
    the base64 text of the MD5 hash of that key, which has sixteen bytes.
    The JSON text of this message is what the [request] of the envelope
    encodes. *)
Theorem license_message_fields (wp : Proxy) (contentID body : string) :
  let key :=
    GenerateContentKey (ContentKeyGenerator wp) (Bytes.bytes_of_string contentID) in
  let m := licenseMessage wp contentID body in
  LicenseMessage.Payload m = body
  /\ LicenseMessage.ContentID m
     = Base64.EncodeToString (Bytes.bytes_of_string contentID)
  /\ LicenseMessage.Provider m = Provider wp
  /\ LicenseMessage.AllowedTrackTypes m = "SD_UHD1"
  /\ LicenseMessage.ContentKeySpecs m
     = Some [ {| ContentKeySpec.KeyID := Base64.EncodeToString (MD5.Sum key);
                 ContentKeySpec.Key := Base64.EncodeToString key;
                 ContentKeySpec.IV := "";
                 ContentKeySpec.TrackType := "" |} ]
  /\ length (MD5.Sum key) = 16%nat
  /\ LicenseMessage.to_json m
     = Json.Object
         [("payload", Json.String_ body);
          ("content_id",
           Json.String_ (Base64.EncodeToString (Bytes.bytes_of_string contentID)));
          ("provider", Json.String_ (Provider wp));
          ("allowed_track_types", Json.String_ "SD_UHD1");
          ("content_key_specs",
           Json.Array
             [Json.Object
                [("key_id", Json.String_ (Base64.EncodeToString (MD5.Sum key)));
                 ("key", Json.String_ (Base64.EncodeToString key));
                 ("iv", Json.String_ "");
                 ("track_type", Json.String_ "")]])]
  /\ match buildLicenseMessage wp contentID body with
     | Ok env =>
       env !! "request"
       = Some (VString
                 (Base64.EncodeToString
                    (map Bytes.of_Z (Json.encode (LicenseMessage.to_json m)))))
     | Err _ => True
     end.
Proof.
  cbv zeta. repeat (split; [try reflexivity; try apply md5_length |]).
  unfold buildLicenseMessage.
  destruct (generateSignature wp _); cbn [mbind result_bind mret result_ret];
    [reflexivity | exact I].
Qed.

(** C10.  The key specification of a license message is written with its
    four members [key_id], [key], [iv] and [track_type]; [iv] and
    [track_type] are not set and appear in the text as empty strings.  This
    text is what the [request] of the license envelope encodes. *)
Theorem key_spec_serialises_four_fields (wp : Proxy) (contentID body : string) :
  let key :=
    GenerateContentKey (ContentKeyGenerator wp) (Bytes.bytes_of_string contentID) in
  let spec :=
    {| ContentKeySpec.KeyID := Base64.EncodeToString (MD5.Sum key);
       ContentKeySpec.Key := Base64.EncodeToString key;
       ContentKeySpec.IV := "";
       ContentKeySpec.TrackType := "" |} in
  LicenseMessage.ContentKeySpecs (licenseMessage wp contentID body) = Some [spec]
  /\ map fst (match ContentKeySpec.to_json spec with
              | Json.Object ms => ms
              | _ => []
              end) = ["key_id"; "key"; "iv"; "track_type"]
  /\ Json.encode (ContentKeySpec.to_json spec)
     = Json.text_codes "{'key_id':" ++ Json.quote (ContentKeySpec.KeyID spec)
         ++ Json.text_codes ",'key':" ++ Json.quote (ContentKeySpec.Key spec)
         ++ Json.text_codes ",'iv':'','track_type':''}"
  /\ json_Marshal_LicenseMessage (licenseMessage wp contentID body)
     = map Bytes.of_Z
         (Json.text_codes "{'payload':" ++ Json.quote body
            ++ Json.text_codes ",'content_id':"
            ++ Json.quote (Base64.EncodeToString (Bytes.bytes_of_string contentID))
            ++ Json.text_codes ",'provider':" ++ Json.quote (Provider wp)
            ++ Json.text_codes ",'allowed_track_types':'SD_UHD1','content_key_specs':["
            ++ Json.encode (ContentKeySpec.to_json spec) ++ Json.text_codes "]}")
  /\ match buildLicenseMessage wp contentID body with
     | Ok env =>
       env !! "request"
       = Some (VString
                 (Base64.EncodeToString
                    (json_Marshal_LicenseMessage
                       (licenseMessage wp contentID body))))
     | Err _ => True
     end.
Proof.
  cbv zeta. split; [| split; [| split; [| split]]]; try reflexivity.
  - cbn [ContentKeySpec.to_json Json.encode map Json.sep_by flat_map
         ContentKeySpec.KeyID ContentKeySpec.Key ContentKeySpec.IV
         ContentKeySpec.TrackType].
    abstract_quotes. rewrite <- !app_assoc. reflexivity.
  - unfold json_Marshal_LicenseMessage. f_equal.
    cbn [licenseMessage LicenseMessage.to_json Marshal.of_slice
         ContentKeySpec.to_json Json.encode map Json.sep_by flat_map
         LicenseMessage.Payload LicenseMessage.ContentID LicenseMessage.Provider
         LicenseMessage.AllowedTrackTypes LicenseMessage.ContentKeySpecs
         ContentKeySpec.KeyID ContentKeySpec.Key ContentKeySpec.IV
         ContentKeySpec.TrackType].
    abstract_quotes. rewrite <- !app_assoc. reflexivity.
  - unfold buildLicenseMessage.
    destruct (generateSignature wp _); cbn [mbind result_bind mret result_ret];
      [reflexivity | exact I].
Qed.

(** ** The signer *)

Lemma AESCBCEncrypt_valid key iv plaintext :
  AES.valid_key_length (length key) = true ->
  length iv = AES.BlockSize ->
  exists ciphertext, AESCBCEncrypt key iv plaintext = Ok ciphertext.
Proof.
  intros Hk Hiv. unfold AESCBCEncrypt. rewrite Hk, Hiv.
  rewrite Nat.eqb_refl. cbn [negb]. eauto.
Qed.

(** C9.  The signature depends on the key, the vector and the payload
    only: two proxies with the same key and vector return the same result
    for a payload, and with a valid key and vector this result is a
    signature, the same bytes for both. *)
Theorem signer_deterministic (wp1 wp2 : Proxy) (payload : list byte) :
  PartnerRootKey wp1 = PartnerRootKey wp2 ->
  PartnerRootIV wp1 = PartnerRootIV wp2 ->
  generateSignature wp1 payload = generateSignature wp2 payload
  /\ (AES.valid_key_length (length (PartnerRootKey wp1)) = true ->
      length (PartnerRootIV wp1) = AES.BlockSize ->
      exists signature,
        generateSignature wp1 payload = Ok signature
        /\ generateSignature wp2 payload = Ok signature).
Proof.
  intros Hkey Hiv. unfold generateSignature. rewrite <- Hkey, <- Hiv.
  split; [reflexivity |]. intros Hk Hl.
  destruct (AESCBCEncrypt_valid (PartnerRootKey wp1) (PartnerRootIV wp1)
              (SHA1.Sum payload) Hk Hl) as [c Hc].
  rewrite Hc. exists c. split; reflexivity.
Qed.

(** Witness of [signer_deterministic]: the key and vector of the tests in
    two proxies that differ in their provider and their service. *)
Lemma signer_deterministic_test_key :
  exists signature,
    generateSignature Fixtures.wv (Json.text "{'test':'testing'}") = Ok signature
    /\ generateSignature
         (NewWidevineProxy (Fixtures.unhex Fixtures.testKey)
            (Fixtures.unhex Fixtures.testIV) "another_provider"
            Fixtures.FakeKeyGoverner Fixtures.echo)
         (Json.text "{'test':'testing'}") = Ok signature.
Proof.
  apply signer_deterministic; reflexivity.
Defined.

(** ** The content-key policy *)

Lemma fold_append_tracks (tracks : list string) (acc : list GoVal) :
  fold_left (fun ts track => append ts (VMapString {[ "type" := track ]}))
            tracks (Some acc)
  = Some (acc ++ map (fun track => VMapString {[ "type" := track ]}) tracks).
Proof.
  revert acc. induction tracks as [| t ts IH]; intros acc; cbn [fold_left map].
  - now rewrite app_nil_r.
  - unfold append at 2. cbn [elems default]. rewrite IH.
    now rewrite <- app_assoc.
Qed.

Lemma setPolicy_tracks_value wp contentID policy :
  setPolicy wp contentID policy !! "tracks"
  = Some (VSlice (match elems (Policy.Tracks policy) with
                  | [] => None
                  | ts => Some (map (fun track => VMapString {[ "type" := track ]}) ts)
                  end)).
Proof.
  unfold setPolicy.
  rewrite lookup_insert_ne by discriminate. rewrite lookup_insert_eq.
  destruct (elems (Policy.Tracks policy)) as [| t ts]; [reflexivity|].
  cbn [fold_left]. unfold append at 2. cbn [elems default app].
  now rewrite fold_append_tracks.
Qed.

Lemma sorted_members_policy (a b c d : GoVal) :
  Marshal.sorted_members
    ({[ "content_id" := a; "tracks" := b; "drm_types" := c; "policy" := d ]}
       : gmap string GoVal)
  = [("content_id", a); ("drm_types", c); ("policy", d); ("tracks", b)].
Proof. vm_compute. reflexivity. Qed.

Lemma of_val_track (track : string) :
  Marshal.of_val (VMapString {[ "type" := track ]})
  = Json.Object [("type", Json.String_ track)].
Proof.
  cbn [Marshal.of_val]. unfold Marshal.sorted_members.
  rewrite map_to_list_singleton. reflexivity.
Qed.

(** C4, amended.  With no tracks the policy message has a [tracks] member
    (it is not left out) whose value is the [nil] slice, written as [null];
    with tracks the member is the list of the objects [{type: track}] in the
    order of the input, repetitions kept. *)
Theorem policy_tracks (wp : Proxy) (contentID : string) (policy : Policy.t) :
  let tracks := elems (Policy.Tracks policy) in
  let message := setPolicy wp contentID policy in
  (tracks = [] ->
   message !! "tracks" = Some (VSlice None)
   /\ json_Marshal_map (Some message)
      = map Bytes.of_Z
          (Json.text_codes "{'content_id':"
             ++ Json.quote (Base64.EncodeToString (Bytes.bytes_of_string contentID))
             ++ Json.text_codes ",'drm_types':"
             ++ Json.encode (Marshal.of_slice Json.String_ (Policy.DRMTypes policy))
             ++ Json.text_codes ",'policy':" ++ Json.quote (Policy.Policy policy)
             ++ Json.text_codes ",'tracks':null}"))
  /\ (tracks <> [] ->
      message !! "tracks"
      = Some (VSlice (Some (map (fun track => VMapString {[ "type" := track ]})
                                tracks)))
      /\ Marshal.of_val <$> message !! "tracks"
         = Some (Json.Array
                   (map (fun track => Json.Object [("type", Json.String_ track)])
                        tracks))).
Proof.
  cbv zeta. split.
  - intros Hnil. split.
    + rewrite setPolicy_tracks_value, Hnil. reflexivity.
    + unfold json_Marshal_map, setPolicy. rewrite Hnil. f_equal.
      cbn [fold_left Marshal.of_map]. rewrite sorted_members_policy.
      cbn [map Marshal.of_val Json.encode Json.sep_by flat_map].
      generalize (Json.encode (Marshal.of_slice Json.String_ (Policy.DRMTypes policy))).
      intros drm. abstract_quotes. rewrite <- !app_assoc. reflexivity.
  - intros Hne. rewrite setPolicy_tracks_value.
    destruct (elems (Policy.Tracks policy)) as [| t ts] eqn:E; [congruence|].
    split; [reflexivity|]. cbn [fmap option_fmap option_map Marshal.of_val].
    do 2 f_equal. rewrite map_map. apply map_ext. intros a. apply of_val_track.
Qed.

(** Witness of [policy_tracks]: a policy without tracks and the policy of
    the tests. *)
Lemma policy_tracks_both_cases :
  (setPolicy Fixtures.wv "testing" Fixtures.no_tracks !! "tracks"
   = Some (VSlice None)
   /\ json_Marshal_map (Some (setPolicy Fixtures.wv "testing" Fixtures.no_tracks))
      = Json.text "{'content_id':'dGVzdGluZw==','drm_types':['WIDEVINE'],'policy':'default','tracks':null}")
  /\ Marshal.of_val <$> setPolicy Fixtures.wv "testing" Fixtures.policy !! "tracks"
     = Some (Json.Array [Json.Object [("type", Json.String_ "SD")];
                         Json.Object [("type", Json.String_ "HD")];
                         Json.Object [("type", Json.String_ "AUDIO")]]).
Proof.
  split.
  - apply (policy_tracks Fixtures.wv "testing" Fixtures.no_tracks). reflexivity.
  - apply (policy_tracks Fixtures.wv "testing" Fixtures.policy). discriminate.
Defined.

(** Against C4 as stated: without tracks the value of [tracks] is not an
    empty array, and the text has [null] where the claim expects [[]]. *)
Lemma empty_tracks_are_null_not_an_empty_array :
  setPolicy Fixtures.wv "testing" Fixtures.no_tracks !! "tracks"
  <> Some (VSlice (Some []))
  /\ json_Marshal_map (Some (setPolicy Fixtures.wv "testing" Fixtures.no_tracks))
     = Json.text "{'content_id':'dGVzdGluZw==','drm_types':['WIDEVINE'],'policy':'default','tracks':null}"
  /\ json_Marshal_map (Some (setPolicy Fixtures.wv "testing" Fixtures.no_tracks))
     <> Json.text "{'content_id':'dGVzdGluZw==','drm_types':['WIDEVINE'],'policy':'default','tracks':[]}".
Proof.
  split; [| split].
  - rewrite setPolicy_tracks_value. discriminate.
  - vm_compute. reflexivity.
  - vm_compute. discriminate.
Qed.

(** ** The signed envelope *)

Lemma envelope_fields (request signer : string) (sign : list byte) :
  let env : gmap string GoVal :=
    {[ "request" := VString request; "signature" := VBytes sign;
       "signer" := VString signer ]} in
  env !! "request" = Some (VString request)
  /\ env !! "signature" = Some (VBytes sign)
  /\ env !! "signer" = Some (VString signer).
Proof.
  cbv zeta. repeat split.
Qed.

(** C1.  In every envelope either operation produces, [request] is the
    base64 text of the JSON bytes of the inner message, it decodes to these
    bytes, and [signature] is the signature of these bytes (not of the
    base64 text). *)
Theorem envelope_signs_the_json_bytes (wp : Proxy) (env : gmap string GoVal) :
  (forall contentID body,
      buildLicenseMessage wp contentID body = Ok env ->
      let json := json_Marshal_LicenseMessage (licenseMessage wp contentID body) in
      exists request sign,
        env !! "request" = Some (VString request)
        /\ env !! "signature" = Some (VBytes sign)
        /\ request = Base64.EncodeToString json
        /\ Base64.DecodeString request = (json, None)
        /\ generateSignature wp json = Ok sign)
  /\ (forall policy,
         buildCKMessage wp policy = Some env ->
         let json := json_Marshal_map (Some policy) in
         exists request sign,
           env !! "request" = Some (VString request)
           /\ env !! "signature" = Some (VBytes sign)
           /\ request = Base64.EncodeToString json
           /\ Base64.DecodeString request = (json, None)
           /\ generateSignature wp json = Ok sign).
Proof.
  split.
  - intros contentID body. unfold buildLicenseMessage.
    destruct (generateSignature wp _) as [sign | e] eqn:Hsign;
      cbn [mbind result_bind mret result_ret]; [| discriminate].
    intros [= <-]. cbv zeta.
    destruct (envelope_fields
                (Base64.EncodeToString
                   (json_Marshal_LicenseMessage (licenseMessage wp contentID body)))
                (Provider wp) sign) as (Hr & Hs & _).
    eexists _, sign. repeat split; try eassumption.
    apply Base64Inverse.DecodeString_EncodeToString.
  - intros policy. unfold buildCKMessage.
    destruct (generateSignature wp _) as [sign | e] eqn:Hsign; [| discriminate].
    intros [= <-]. cbv zeta.
    destruct (envelope_fields
                (Base64.EncodeToString (json_Marshal_map (Some policy)))
                (Provider wp) sign) as (Hr & Hs & _).
    eexists _, sign. repeat split; try eassumption.
    apply Base64Inverse.DecodeString_EncodeToString.
Qed.

(** Witness of [envelope_signs_the_json_bytes]: the two envelopes of the
    proxy of the tests. *)
Lemma envelopes_of_the_test_proxy :
  (exists env request sign,
      buildLicenseMessage Fixtures.wv "fkj3ljaSdfalkr3j" "challenge" = Ok env
      /\ env !! "request" = Some (VString request)
      /\ env !! "signature" = Some (VBytes sign)
      /\ generateSignature Fixtures.wv
           (json_Marshal_LicenseMessage
              (licenseMessage Fixtures.wv "fkj3ljaSdfalkr3j" "challenge"))
         = Ok sign)
  /\ (exists env request sign,
         buildCKMessage Fixtures.wv
           (setPolicy Fixtures.wv "testing" Fixtures.policy) = Some env
         /\ env !! "request" = Some (VString request)
         /\ env !! "signature" = Some (VBytes sign)
         /\ generateSignature Fixtures.wv
              (json_Marshal_map
                 (Some (setPolicy Fixtures.wv "testing" Fixtures.policy)))
            = Ok sign).
Proof.
  split.
  - destruct (buildLicenseMessage Fixtures.wv "fkj3ljaSdfalkr3j" "challenge")
      as [env | e] eqn:E; [| vm_compute in E; discriminate E].
    destruct (envelope_signs_the_json_bytes Fixtures.wv env) as [H _].
    destruct (H _ _ E) as (request & sign & Hr & Hs & _ & _ & Hg).
    exists env, request, sign. auto.
  - destruct (buildCKMessage Fixtures.wv
                (setPolicy Fixtures.wv "testing" Fixtures.policy))
      as [env |] eqn:E; [| vm_compute in E; discriminate E].
    destruct (envelope_signs_the_json_bytes Fixtures.wv env) as [_ H].
    destruct (H _ E) as (request & sign & Hr & Hs & _ & _ & Hg).
    exists env, request, sign. auto.
Defined.

(** ** The errors of the JSON decoders *)

Module DecoderFacts.
Import Scanner.

Lemma run_err s c : syntax_or_none (err s) -> syntax_or_none (err (fst (run s c))).
Proof.
  intros H. unfold run, run_stateBeginValueOrEmpty, run_stateBeginStringOrEmpty,
    run_stateBeginString, run_stateBeginValue, run_state0, run_stateESign,
    run_stateEndValue, run_stateEndTop, expect, expect_hex, pushParseState,
    popParseState, error_.
  destruct s as [st et ps e b]. cbn [step parseState err] in *.
  destruct st; scanner_cases; exact I.
Qed.

Lemma syntax_is_json o e : syntax_or_none o -> o = Some e -> is_json_error e = true.
Proof. intros H ->. destruct e; cbn in *; try contradiction; reflexivity. Qed.

Lemma count_err s : err (count s) = err s.
Proof. reflexivity. Qed.

Lemma readValue_from_error s seen data e :
  syntax_or_none (err s) ->
  readValue_from s seen data = Err e -> is_json_error e = true.
Proof.
  revert s seen. induction data as [| c rest IH]; intros s seen Hs; cbn [readValue_from].
  - destruct (snd (run s 32)); try discriminate;
      destruct (nonSpace seen); intros [= <-]; reflexivity.
  - pose proof (run_err (count s) c Hs) as Hrun.
    destruct (run (count s) c) as [s' op]. cbn [fst] in Hrun.
    destruct op; try (now apply IH); try discriminate.
    + destruct (snd (run_stateEndValue s' 32)); try discriminate; now apply IH.
    + destruct (snd (run_stateEndValue s' 32)); try discriminate; now apply IH.
    + intros [= <-]. destruct (err s') as [e'|]; [| reflexivity].
      now apply (syntax_is_json (Some e')).
Qed.

Lemma readValue_error data e : readValue data = Err e -> is_json_error e = true.
Proof. apply readValue_from_error. exact I. Qed.

Lemma eof_error s e :
  syntax_or_none (err s) -> eof s = Some e -> is_json_error e = true.
Proof.
  intros Hs. unfold eof. destruct (err s) as [e0|] eqn:E.
  - intros [= <-]. now apply (syntax_is_json (Some e0)).
  - destruct (endTop s); [discriminate|].
    pose proof (run_err s 32) as Hrun. rewrite E in Hrun. specialize (Hrun I).
    destruct (endTop (fst (run s 32))); [discriminate|].
    destruct (err (fst (run s 32))) as [e1|]; intros [= <-];
      [now apply (syntax_is_json (Some e1)) | reflexivity].
Qed.

Lemma checkValid_from_error s data e :
  syntax_or_none (err s) ->
  checkValid_from s data = Some e -> is_json_error e = true.
Proof.
  revert s. induction data as [| c rest IH]; intros s Hs; cbn [checkValid_from].
  - now apply eof_error.
  - pose proof (run_err (count s) c Hs) as Hrun.
    destruct (run (count s) c) as [s' op]. cbn [fst] in Hrun.
    destruct op; try (now apply IH).
    intros H. now apply (syntax_is_json (err s')).
Qed.

Lemma checkValid_error data e : checkValid data = Some e -> is_json_error e = true.
Proof. apply checkValid_from_error. exact I. Qed.

(** The typed decoders report type errors only. *)

Lemma first_error_type e1 e2 :
  type_error_or_none e1 -> type_error_or_none e2 ->
  type_error_or_none (Unmarshal.first_error e1 e2).
Proof. destruct e1; auto. Qed.

Lemma into_string_type field cur v :
  type_error_or_none (snd (Unmarshal.into_string field cur v)).
Proof. destruct v; exact I. Qed.

Lemma into_bool_type field cur v :
  type_error_or_none (snd (Unmarshal.into_bool field cur v)).
Proof. destruct v; exact I. Qed.

Lemma into_slice_type {A} (zero : A) into_elem type field cur v :
  (forall a x, type_error_or_none (snd (into_elem a x))) ->
  type_error_or_none (snd (Unmarshal.into_slice zero into_elem type field cur v)).
Proof.
  intros Helem. destruct v; try exact I. cbn [Unmarshal.into_slice].
  assert (H : forall l acc,
             type_error_or_none (snd acc) ->
             type_error_or_none
               (snd (fold_left
                       (fun '(out, e) '(i, x) =>
                          let '(a, e') := into_elem (List.nth i (elems cur) zero) x in
                          (out ++ [a], Unmarshal.first_error e e'))
                       l acc))).
  { induction l as [| [i x] l IH]; intros [out e] Hacc; cbn [fold_left]; [exact Hacc|].
    apply IH. specialize (Helem (List.nth i (elems cur) zero) x).
    destruct (into_elem _ x) as [a e']. cbn [snd] in *.
    now apply first_error_type. }
  specialize (H (combine (seq 0 (length elements)) elements) ([], None) I).
  destruct (fold_left _ _ _) as [out e]. exact H.
Qed.

Lemma into_struct_type {A} names into_field type field (cur : A) v :
  (forall f a x, type_error_or_none (snd (into_field f a x))) ->
  type_error_or_none (snd (Unmarshal.into_struct names into_field type field cur v)).
Proof.
  intros Hfield. destruct v; try exact I. cbn [Unmarshal.into_struct].
  generalize (I : type_error_or_none (snd (cur, @None error))).
  generalize (cur, @None error).
  induction members as [| [k x] ms IH]; intros [a e] Hacc; cbn [fold_left];
    [exact Hacc|].
  apply IH. destruct (Unmarshal.field_of names k) as [f|]; [| exact Hacc].
  specialize (Hfield f a x). destruct (into_field f a x) as [a' e'].
  cbn [snd] in *. now apply first_error_type.
Qed.

Lemma pssh_into_type field cur v : type_error_or_none (snd (pssh.into field cur v)).
Proof.
  apply into_struct_type. intros f a x. unfold pssh.into_field.
  destruct (String.eqb f "drm_type");
    match goal with
    | |- context [Unmarshal.into_string ?p ?c ?y] =>
      pose proof (into_string_type p c y); destruct (Unmarshal.into_string p c y)
    end; assumption.
Qed.

Lemma drm_into_type field cur v : type_error_or_none (snd (drm.into field cur v)).
Proof.
  apply into_struct_type. intros f a x. unfold drm.into_field.
  destruct (String.eqb f "type");
    match goal with
    | |- context [Unmarshal.into_string ?p ?c ?y] =>
      pose proof (into_string_type p c y); destruct (Unmarshal.into_string p c y)
    end; assumption.
Qed.

Lemma tracks_into_type field cur v :
  type_error_or_none (snd (tracks.into field cur v)).
Proof.
  apply into_struct_type. intros f a x. unfold tracks.into_field. cbv zeta.
  repeat match goal with
         | |- context [if ?b then _ else _] => destruct b
         end;
    match goal with
    | |- context [Unmarshal.into_string ?p ?c ?y] =>
      pose proof (into_string_type p c y); destruct (Unmarshal.into_string p c y)
    | |- context [Unmarshal.into_slice ?z ?i ?t ?p ?c ?y] =>
      pose proof (into_slice_type z i t p c y (pssh_into_type p));
      destruct (Unmarshal.into_slice z i t p c y)
    end; assumption.
Qed.

Lemma response_into_type cur v :
  type_error_or_none (snd (ContentKeyResponse.into cur v)).
Proof.
  apply into_struct_type. intros f a x. unfold ContentKeyResponse.into_field.
  repeat match goal with
         | |- context [if ?b then _ else _] => destruct b
         end;
    match goal with
    | |- context [Unmarshal.into_string ?p ?c ?y] =>
      pose proof (into_string_type p c y); destruct (Unmarshal.into_string p c y)
    | |- context [Unmarshal.into_bool ?p ?c ?y] =>
      pose proof (into_bool_type p c y); destruct (Unmarshal.into_bool p c y)
    | |- context [Unmarshal.into_slice ?z (drm.into ?q) ?t ?p ?c ?y] =>
      pose proof (into_slice_type z (drm.into q) t p c y (drm_into_type q));
      destruct (Unmarshal.into_slice z (drm.into q) t p c y)
    | |- context [Unmarshal.into_slice ?z (tracks.into ?q) ?t ?p ?c ?y] =>
      pose proof (into_slice_type z (tracks.into q) t p c y (tracks_into_type q));
      destruct (Unmarshal.into_slice z (tracks.into q) t p c y)
    end; assumption.
Qed.

Lemma into_map_string_type cur v :
  type_error_or_none (snd (Unmarshal.into_map_string cur v)).
Proof.
  destruct v; try exact I. cbn [Unmarshal.into_map_string].
  generalize (I : type_error_or_none (snd (cur, @None error))).
  generalize (cur, @None error).
  induction members as [| [k x] ms IH]; intros [m e] Hacc; cbn [fold_left];
    [exact Hacc|].
  apply IH. destruct x; try exact Hacc; cbn [snd] in *;
    now apply first_error_type.
Qed.

Lemma type_is_json o e : type_error_or_none o -> o = Some e -> is_json_error e = true.
Proof. intros H ->. destruct e; cbn in *; try contradiction; reflexivity. Qed.

Lemma json_Decode_map_error body e :
  json_Decode_map body = Err e -> is_json_error e = true.
Proof.
  unfold json_Decode_map.
  destruct (readValue (map Bytes.to_Z body)) as [data | e0] eqn:Hread;
    cbn [mbind result_bind].
  - destruct (Parser.parse data) as [v|]; [| intros [= <-]; reflexivity].
    pose proof (into_map_string_type ∅ v) as Ht.
    destruct (Unmarshal.into_map_string ∅ v) as [m [e1|]]; [| discriminate].
    intros [= <-]. now apply (type_is_json (Some e1)).
  - intros [= <-]. now apply (readValue_error (map Bytes.to_Z body)).
Qed.

Lemma json_Unmarshal_ContentKeyResponse_error dec e :
  json_Unmarshal_ContentKeyResponse dec = Err e -> is_json_error e = true.
Proof.
  unfold json_Unmarshal_ContentKeyResponse. cbv zeta.
  destruct (checkValid (map Bytes.to_Z dec)) as [e0|] eqn:Hvalid.
  - intros [= <-]. now apply (checkValid_error (map Bytes.to_Z dec)).
  - destruct (Parser.parse (map Bytes.to_Z dec)) as [v|];
      [| intros [= <-]; reflexivity].
    pose proof (response_into_type ContentKeyResponse.zero v) as Ht.
    destruct v; try discriminate;
      (destruct (ContentKeyResponse.into ContentKeyResponse.zero _) as [r [e1|]];
       [intros [= <-]; now apply (type_is_json (Some e1)) | discriminate]).
Qed.

End DecoderFacts.

(** ** The content-key exchange *)

Section DispatcherFacts.

Variable to_LowerCase : Z -> Z.

(** C2, amended.  [GetContentKey] decodes the reply in stages.  An error
    of the transport decode and an error of the inner decode are returned as
    the JSON decoder made them; a reply without [response] fails with the
    error [empty_response], which is not an error of the JSON decoder; the
    error of the base64 decode is dropped and the bytes decoded before it
    are what the inner decode reads. *)
Theorem content_key_decode_stages (wp : Proxy) (contentID : string)
    (policy : Policy.t) (response : Response) :
  httpCaller wp (contentKeyRequest to_LowerCase wp contentID policy) = Ok response ->
  let result := GetContentKey to_LowerCase wp contentID policy in
  let transport := json_Decode_map (ResponseBody response) in
  (forall e, transport = Err e ->
             result = Err e /\ is_json_error e = true)
  /\ (forall respJSON, transport = Ok respJSON ->
        respJSON !! "response" = None -> result = Err empty_response)
  /\ (forall respJSON resp, transport = Ok respJSON ->
        respJSON !! "response" = Some resp ->
        let inner :=
          json_Unmarshal_ContentKeyResponse (fst (Base64.DecodeString resp)) in
        result = inner
        /\ forall e, inner = Err e -> is_json_error e = true)
  /\ is_json_error empty_response = false.
Proof.
  intros Hdo. cbv zeta. unfold GetContentKey. rewrite Hdo.
  cbn [mbind result_bind]. split; [| split; [| split]].
  - intros e He. split; [now rewrite He |].
    now apply DecoderFacts.json_Decode_map_error in He.
  - intros respJSON Hmap Hnone. rewrite Hmap. cbn [mbind result_bind].
    now rewrite Hnone.
  - intros respJSON resp Hmap Hsome. rewrite Hmap. cbn [mbind result_bind].
    rewrite Hsome. split.
    + destruct (Base64.DecodeString resp) as [dec e']. cbn [fst].
      destruct (json_Unmarshal_ContentKeyResponse dec); reflexivity.
    + apply DecoderFacts.json_Unmarshal_ContentKeyResponse_error.
  - reflexivity.
Qed.

Lemma into_map_string_flat (ms : list (string * Json.value)) :
  forallb (fun '(_, x) => match x with
                          | Json.String_ _ | Json.Null => true
                          | _ => false
                          end) ms = true ->
  existsb (fun '(k, _) => String.eqb k "response") ms = false ->
  forall m : gmap string string,
    m !! "response" = None ->
    exists m', Unmarshal.into_map_string m (Json.Object ms) = (m', None)
               /\ m' !! "response" = None.
Proof.
  cbn [Unmarshal.into_map_string].
  induction ms as [| [k x] ms IH]; intros Hflat Hkeys m Hm; cbn [fold_left].
  - eauto.
  - cbn [forallb existsb] in Hflat, Hkeys.
    apply andb_prop in Hflat as [Hx Hflat].
    apply Bool.orb_false_elim in Hkeys as [Hk Hkeys].
    apply String.eqb_neq in Hk.
    destruct x; try discriminate; apply IH; auto;
      now rewrite lookup_insert_ne.
Qed.

(** C8, amended.  If the transport body decodes as a flat mapping of
    strings (the text [null], or an object whose members are strings or
    [null]) without a [response] member, [GetContentKey] fails with the
    error [empty_response], which is not an error of the JSON decoder. *)
Theorem missing_response_field (wp : Proxy) (contentID : string)
    (policy : Policy.t) (response : Response) (data : list Z) (v : Json.value) :
  httpCaller wp (contentKeyRequest to_LowerCase wp contentID policy) = Ok response ->
  Scanner.readValue (map Bytes.to_Z (ResponseBody response)) = Ok data ->
  Parser.parse data = Some v ->
  flat_string_mapping v = true ->
  has_member "response" v = false ->
  GetContentKey to_LowerCase wp contentID policy = Err empty_response
  /\ is_json_error empty_response = false.
Proof.
  intros Hdo Hread Hparse Hflat Hkeys. split; [| reflexivity].
  unfold GetContentKey, json_Decode_map. rewrite Hdo. cbn [mbind result_bind].
  rewrite Hread. cbn [mbind result_bind]. rewrite Hparse.
  destruct v as [| | | | | ms]; try discriminate.
  - reflexivity.
  - destruct (into_map_string_flat ms Hflat Hkeys ∅ (lookup_empty _))
      as (m' & Hinto & Hnone).
    rewrite Hinto. cbn [mbind result_bind]. now rewrite Hnone.
Qed.

(** C3, as the code behaves.  A signer that fails leaves [GetContentKey]
    with the [nil] envelope, which is sent as the text [null]; the failure
    is not returned, and the result is what the reply to that request
    decodes to. *)
Theorem signer_failure_is_dropped (wp : Proxy) (contentID : string)
    (policy : Policy.t) (e : error) :
  generateSignature wp (json_Marshal_map (Some (setPolicy wp contentID policy)))
  = Err e ->
  buildCKMessage wp (setPolicy wp contentID policy) = None
  /\ Body (contentKeyRequest to_LowerCase wp contentID policy) = Json.text "null"
  /\ GetContentKey to_LowerCase wp contentID policy
     = (response ← httpCaller wp
                     (Header_Add
                        (NewRequest "POST"
                           (getCloudLicenseServiceURL to_LowerCase (Provider wp) "key")
                           (Json.text "null"))
                        "Content-Type" "application/json");
        respJSON ← json_Decode_map (ResponseBody response);
        match respJSON !! "response" with
        | None => Err empty_response
        | Some resp =>
          json_Unmarshal_ContentKeyResponse (fst (Base64.DecodeString resp))
        end).
Proof.
  intros Hsign.
  assert (Hnil : buildCKMessage wp (setPolicy wp contentID policy) = None)
    by (unfold buildCKMessage; now rewrite Hsign).
  assert (Hreq : contentKeyRequest to_LowerCase wp contentID policy
                 = Header_Add
                     (NewRequest "POST"
                        (getCloudLicenseServiceURL to_LowerCase (Provider wp) "key")
                        (Json.text "null"))
                     "Content-Type" "application/json")
    by (unfold contentKeyRequest; now rewrite Hnil).
  split; [exact Hnil |]. split; [now rewrite Hreq |].
  unfold GetContentKey. rewrite Hreq.
  destruct (httpCaller wp _) as [response | e0]; cbn [mbind result_bind];
    [| reflexivity].
  destruct (json_Decode_map (ResponseBody response)) as [respJSON | e1];
    cbn [mbind result_bind]; [| reflexivity].
  destruct (respJSON !! "response") as [resp |]; [| reflexivity].
  destruct (Base64.DecodeString resp) as [dec e']. cbn [fst].
  destruct (json_Unmarshal_ContentKeyResponse dec); reflexivity.
Qed.

End DispatcherFacts.

Import Fixtures.

(** Witness of [content_key_decode_stages]: a reply that is the empty
    object. *)
Lemma content_key_stages_on_empty_object :
  httpCaller (wv_with (replying "{}"))
    (contentKeyRequest no_case_table (wv_with (replying "{}")) "testing" policy)
  = Ok {| StatusCode := 200; ResponseBody := Json.text "{}" |}
  /\ getContentKey (wv_with (replying "{}")) = Err empty_response.
Proof.
  split; [reflexivity |].
  destruct (content_key_decode_stages no_case_table (wv_with (replying "{}"))
              "testing" policy
              {| StatusCode := 200; ResponseBody := Json.text "{}" |} eq_refl)
    as (_ & Hmissing & _).
  apply (Hmissing ∅); reflexivity.
Defined.

(** Against C2 as stated: a failure of the transport decode and a failure
    of the inner decode return the same error, and a failure of the base64
    decode returns none. *)
Lemma decode_stages_not_told_apart :
  let syntax :=
    SyntaxError (InvalidCharacter 120 "looking for beginning of value") 1 in
  (json_Decode_map (Json.text "x") = Err syntax
   /\ getContentKey (wv_with (replying "x")) = Err syntax)
  /\ (json_Decode_map (Json.text "{'response':'eA=='}")
      = Ok {[ "response" := "eA==" ]}
      /\ Base64.DecodeString "eA==" = (Bytes.bytes_of_string "x", None)
      /\ getContentKey (wv_with (replying "{'response':'eA=='}")) = Err syntax)
  /\ (Base64.DecodeString "e30=e30="
      = (Bytes.bytes_of_string "{}", Some (CorruptInputError 4))
      /\ getContentKey (wv_with (replying "{'response':'e30=e30='}"))
         = Ok (Some ContentKeyResponse.zero)).
Proof. vm_compute. repeat split. Qed.

(** Witness of [missing_response_field]: an object of strings without a
    [response] member. *)
Lemma missing_response_in_status_reply :
  httpCaller (wv_with (replying "{'status':'ERROR'}"))
    (contentKeyRequest no_case_table (wv_with (replying "{'status':'ERROR'}"))
       "testing" policy)
  = Ok {| StatusCode := 200; ResponseBody := Json.text "{'status':'ERROR'}" |}
  /\ getContentKey (wv_with (replying "{'status':'ERROR'}")) = Err empty_response.
Proof.
  split; [reflexivity |].
  apply (missing_response_field no_case_table
           (wv_with (replying "{'status':'ERROR'}")) "testing" policy
           {| StatusCode := 200; ResponseBody := Json.text "{'status':'ERROR'}" |}
           (Json.text_codes "{'status':'ERROR'}")
           (Json.Object [("status", Json.String_ "ERROR")]));
    reflexivity.
Defined.

(** Against C8 as stated: a body that is valid JSON and has no [response]
    member, for which [GetContentKey] returns a type error of the JSON
    decoder. *)
Lemma valid_json_without_response_type_error :
  Scanner.checkValid (Json.text_codes "{'status':1}") = None
  /\ Parser.parse (Json.text_codes "{'status':1}")
     = Some (Json.Object [("status", Json.Number "1")])
  /\ has_member "response" (Json.Object [("status", Json.Number "1")]) = false
  /\ getContentKey (wv_with (replying "{'status':1}"))
     = Err (UnmarshalTypeError "number" "string" "")
  /\ getContentKey (wv_with (replying "{'status':1}")) <> Err empty_response.
Proof. vm_compute. repeat split. discriminate. Qed.

(** Witness of [signer_failure_is_dropped]: the signer of the proxy of the
    README, whose key has twelve bytes, fails; the request goes out with the
    body [null]. *)
Lemma readme_key_request_is_null :
  generateSignature (readme_proxy echo)
    (json_Marshal_map (Some (setPolicy (readme_proxy echo) "testing" policy)))
  = Err (KeySizeError 12)
  /\ buildCKMessage (readme_proxy echo)
       (setPolicy (readme_proxy echo) "testing" policy) = None
  /\ Body (contentKeyRequest no_case_table (readme_proxy echo) "testing" policy)
     = Json.text "null".
Proof.
  split; [vm_compute; reflexivity |].
  destruct (signer_failure_is_dropped no_case_table (readme_proxy echo) "testing"
              policy (KeySizeError 12)) as (Hnil & Hbody & _);
    [vm_compute; reflexivity | auto].
Defined.

(** With such a proxy the result is whatever the reply decodes to. *)
Example readme_key_results :
  getContentKey (readme_proxy echo) = Err empty_response
  /\ getContentKey (readme_proxy (replying "{'response':'e30='}"))
     = Ok (Some ContentKeyResponse.zero).
Proof. vm_compute. repeat split. Qed.

(** ** The two paths on the fixtures of the tests *)

Module Runs.
Import Fixtures.

(** The request [TestGetContentKey] sends: to the UAT host, with the signed
    envelope of the policy of the test as its body. *)
Example content_key_request_of_the_test :
  URL (contentKeyRequest no_case_table wv "testing" policy)
  = "https://license.uat.widevine.com/cenc/getcontentkey/widevine_test"
  /\ Method (contentKeyRequest no_case_table wv "testing" policy) = "POST"
  /\ Header (contentKeyRequest no_case_table wv "testing" policy)
     = [("Content-Type", "application/json")]
  /\ Body (contentKeyRequest no_case_table wv "testing" policy)
     = Json.text "{'request':'eyJjb250ZW50X2lkIjoiZEdWemRHbHVadz09IiwiZHJtX3R5cGVzIjpbIldJREVWSU5FIl0sInBvbGljeSI6ImRlZmF1bHQiLCJ0cmFja3MiOlt7InR5cGUiOiJTRCJ9LHsidHlwZSI6IkhEIn0seyJ0eXBlIjoiQVVESU8ifV19','signature':'57kmD7GrT0rRekdKcnnNZ5ovH+gKGZI/71lg2fqAj08=','signer':'widevine_test'}".
Proof. vm_compute. repeat split. Qed.

(** A reply of the service, decoded in two stages. *)
Example content_key_reply_decoded :
  getContentKey
    (wv_with (wrapping "{'status':'OK','drm':[{'type':'WIDEVINE','system_id':'edef8ba9'}],'tracks':[{'type':'SD','key_id':'a2V5aWQ=','key':'a2V5','pssh':[{'drm_type':'WIDEVINE','data':'cHNzaA=='}]}],'already_used':false}"))
  = Ok (Some
          {| ContentKeyResponse.Status := "OK";
             ContentKeyResponse.DRM :=
               Some [ {| drm.Type_ := "WIDEVINE"; drm.SystemID := "edef8ba9" |} ];
             ContentKeyResponse.Tracks :=
               Some [ {| tracks.Type_ := "SD"; tracks.KeyID := "a2V5aWQ=";
                         tracks.Key := "a2V5";
                         tracks.PSSH :=
                           Some [ {| pssh.DRMType := "WIDEVINE";
                                     pssh.Data := "cHNzaA==" |} ] |} ];
             ContentKeyResponse.AlreadyUsed := false |}).
Proof. vm_compute. reflexivity. Qed.

(** Members are matched without regard to case, the later of two wins, an
    unknown member is passed over; a member of the wrong type is a type
    error that names the field; the text [null] gives the [nil] pointer. *)
Example content_key_reply_shapes :
  map (fun inner => getContentKey (wv_with (wrapping inner)))
      ["{'STATUS':'a','status':'OK','Already_Used':true,'other':[1,2]}";
       "{'drm':[{'type':1}]}"; "[1]"; "null"]
  = [Ok (Some {| ContentKeyResponse.Status := "OK";
                 ContentKeyResponse.DRM := None;
                 ContentKeyResponse.Tracks := None;
                 ContentKeyResponse.AlreadyUsed := true |});
     Err (UnmarshalTypeError "number" "string" "drm.type");
     Err (UnmarshalTypeError "array" "widevineproxy.ContentKeyResponse" "");
     Ok None].
Proof. vm_compute. reflexivity. Qed.

(** A service that cannot be reached: the error of the transport is the
    result. *)
Example content_key_transport_error :
  getContentKey wv
  = Err (UrlError "Post"
           "https://license.uat.widevine.com/cenc/getcontentkey/widevine_test"
           "connection refused").
Proof. vm_compute. reflexivity. Qed.

(** The [request] of the license envelope of [TestGetLicense], decoded and
    parsed, is the inner message. *)
Example license_request_read_back :
  match buildLicenseMessage wv "fkj3ljaSdfalkr3j" "challenge" with
  | Ok env =>
    match env !! "request" with
    | Some (VString request) =>
      Parser.parse (map Bytes.to_Z (fst (Base64.DecodeString request)))
    | _ => None
    end
  | Err _ => None
  end
  = Some (LicenseMessage.to_json (licenseMessage wv "fkj3ljaSdfalkr3j" "challenge")).
Proof. vm_compute. reflexivity. Qed.

(** The signature of the envelope is not the signature of its base64
    text. *)
Example signature_is_not_of_the_base64_text :
  let json :=
    json_Marshal_LicenseMessage (licenseMessage wv "fkj3ljaSdfalkr3j" "challenge") in
  generateSignature wv json
  <> generateSignature wv (Bytes.bytes_of_string (Base64.EncodeToString json)).
Proof. vm_compute. discriminate. Qed.

End Runs.

(** The license path returns the failure of the signer to its caller. *)
Lemma license_path_returns_signer_failure (wp : Proxy) (contentID body : string)
    (e : error) :
  generateSignature wp
    (json_Marshal_LicenseMessage (licenseMessage wp contentID body)) = Err e ->
  buildLicenseMessage wp contentID body = Err e.
Proof.
  intros Hsign. unfold buildLicenseMessage. now rewrite Hsign.
Qed.

(** * Further properties of the code *)

(** ** The decoder of the license response *)

Module ReflectFacts.
Import Json Reflect.

(** Induction on a JSON value, the elements of an array and the members of
    an object included. *)
Lemma value_rect_nested (P : value -> Prop) :
  P Null -> (forall b, P (Bool b)) -> (forall lit, P (Number lit)) ->
  (forall s, P (String_ s)) ->
  (forall vs, Forall P vs -> P (Array vs)) ->
  (forall ms, Forall (fun m => P (snd m)) ms -> P (Object ms)) ->
  forall v, P v.
Proof.
  intros HN HB HNum HS HA HO.
  fix IH 1. intros [| b | lit | s | vs | ms].
  - exact HN.
  - apply HB.
  - apply HNum.
  - apply HS.
  - apply HA. induction vs as [| x vs IHvs]; constructor; [apply IH | exact IHvs].
  - apply HO. induction ms as [| [k x] ms IHms]; constructor;
      [apply IH | exact IHms].
Qed.




(** An object none of whose members belongs to a field stores nothing. *)
Lemma into_no_field v t field cur :
  names_no_field t v = true ->
  (exists name fields, t = TStruct name fields) ->
  into v t field cur = (cur, None).
Proof.
  intros Hnames (name & fields & ->).
  destruct v as [| | | | | ms]; try discriminate; [reflexivity |].
  cbn [names_no_field] in Hnames. cbn [into].
  generalize (@None error). revert cur.
  induction ms as [| [k x] ms IH]; intros cur e; cbn [fold_left];
    [reflexivity |].
  cbn [forallb] in Hnames. apply andb_prop in Hnames as [Hk Hms].
  apply bool_decide_eq_true in Hk. rewrite Hk. now apply IH.
Qed.


End ReflectFacts.

(** ** [GetLicense] *)

Section LicenseFacts.

Variable to_LowerCase : Z -> Z.

(** The JSON value of an envelope: its members in the order of their
    names, the signature in base64 as [Marshal] writes a [[]byte]. *)
Lemma envelope_json (request signer : string) (sign : list byte) :
  Marshal.of_map
    (Some ({[ "request" := VString request; "signature" := VBytes sign;
              "signer" := VString signer ]} : gmap string GoVal))
  = Json.Object [("request", Json.String_ request);
                 ("signature", Json.String_ (Base64.EncodeToString sign));
                 ("signer", Json.String_ signer)].
Proof.
  unfold Marshal.of_map.
  replace (Marshal.sorted_members
             ({[ "request" := VString request; "signature" := VBytes sign;
                 "signer" := VString signer ]} : gmap string GoVal))
    with [("request", VString request); ("signature", VBytes sign);
          ("signer", VString signer)]
    by (generalize (VString request), (VBytes sign), (VString signer);
        intros a b c; vm_compute; reflexivity).
  reflexivity.
Qed.

(** X1.  When the signer fails, [GetLicense] returns the error of the
    signer, whatever the service would answer: no request is made. *)
Theorem license_signer_failure_is_returned (wp : Proxy)
    (contentID body : string) (e : error)
    (service : Request -> result Response) :
  generateSignature wp
    (json_Marshal_LicenseMessage (licenseMessage wp contentID body)) = Err e ->
  GetLicense to_LowerCase (with_service wp service) contentID body = Err e.
Proof.
  intros Hsign. unfold GetLicense, buildLicenseMessage.
  change (generateSignature (with_service wp service))
    with (generateSignature wp).
  change (licenseMessage (with_service wp service)) with (licenseMessage wp).
  cbv zeta. now rewrite Hsign.
Qed.

(** The text of an envelope. *)
Lemma envelope_text (request signer : string) (sign : list byte) :
  json_Marshal_map
    (Some ({[ "request" := VString request; "signature" := VBytes sign;
              "signer" := VString signer ]} : gmap string GoVal))
  = map Bytes.of_Z
      (Json.text_codes "{'request':" ++ Json.quote request
         ++ Json.text_codes ",'signature':"
         ++ Json.quote (Base64.EncodeToString sign)
         ++ Json.text_codes ",'signer':" ++ Json.quote signer
         ++ Json.text_codes "}").
Proof.
  unfold json_Marshal_map. rewrite envelope_json. f_equal.
  cbn [Json.encode map Json.sep_by flat_map].
  abstract_quotes. rewrite <- !app_assoc. reflexivity.
Qed.

(** X2.  When the signer succeeds, [GetLicense] makes one request: a POST
    to the license URL, of the UAT host for the provider [widevine_test] and
    of the production host otherwise, of content type [application/json],
    whose body is the object of the members [request], [signature] and
    [signer], in this order, the signature in base64; the result is what the
    body of the reply decodes to. *)
Theorem license_request_on_the_wire (wp : Proxy) (contentID body : string)
    (sign : list byte) :
  let jsonMessage :=
    json_Marshal_LicenseMessage (licenseMessage wp contentID body) in
  generateSignature wp jsonMessage = Ok sign ->
  let req :=
    {| Method := "POST";
       URL :=
         (if String.eqb (Provider wp) "widevine_test"
          then widevineModularUATGetLicenseURL
          else widevineModularProductionGetLicenseURL) +:+ "widevine_test";
       Header := [("Content-Type", "application/json")];
       Body :=
         map Bytes.of_Z
           (Json.text_codes "{'request':"
              ++ Json.quote (Base64.EncodeToString jsonMessage)
              ++ Json.text_codes ",'signature':"
              ++ Json.quote (Base64.EncodeToString sign)
              ++ Json.text_codes ",'signer':" ++ Json.quote (Provider wp)
              ++ Json.text_codes "}") |} in
  GetLicense to_LowerCase wp contentID body
  = match httpCaller wp req with
    | Ok response => json_Unmarshal_LicenseResponse (ResponseBody response)
    | Err e => Err e
    end.
Proof.
  cbv zeta. intros Hsign. unfold GetLicense, buildLicenseMessage. cbv zeta.
  rewrite Hsign. cbn [mbind result_bind mret result_ret].
  unfold licenseRequest. cbv zeta. rewrite envelope_text.
  unfold Header_Add, NewRequest. cbn [Method URL Header Body app].
  replace (getCloudLicenseServiceURL to_LowerCase (Provider wp) "license")
    with ((if String.eqb (Provider wp) "widevine_test"
           then widevineModularUATGetLicenseURL
           else widevineModularProductionGetLicenseURL) +:+ "widevine_test")
    by (unfold getCloudLicenseServiceURL;
        change (Strings.ToLower to_LowerCase "license") with "license";
        cbn [String.eqb Ascii.eqb Bool.eqb];
        now destruct (String.eqb (Provider wp) "widevine_test")).
  destruct (httpCaller wp _) as [response | e]; cbn [mbind result_bind];
    [| reflexivity].
  destruct (json_Unmarshal_LicenseResponse (ResponseBody response));
    reflexivity.
Qed.


Lemma with_service_license (wp : Proxy) (service : Request -> result Response)
    (contentID body : string) :
  GetLicense to_LowerCase (with_service wp service) contentID body
  = (msg ← buildLicenseMessage wp contentID body;
     response ← service (licenseRequest to_LowerCase wp msg);
     json_Unmarshal_LicenseResponse (ResponseBody response)).
Proof.
  unfold GetLicense.
  change (buildLicenseMessage (with_service wp service))
    with (buildLicenseMessage wp).
  destruct (buildLicenseMessage wp contentID body) as [msg |];
    cbn [mbind result_bind]; [| reflexivity].
  change (httpCaller (with_service wp service)
            (licenseRequest to_LowerCase (with_service wp service) msg))
    with (service (licenseRequest to_LowerCase wp msg)).
  destruct (service _) as [response |]; cbn [mbind result_bind]; [| reflexivity].
  destruct (json_Unmarshal_LicenseResponse _); reflexivity.
Qed.

Lemma with_service_content_key (wp : Proxy)
    (service : Request -> result Response) (contentID : string)
    (policy : Policy.t) :
  GetContentKey to_LowerCase (with_service wp service) contentID policy
  = (response ← service (contentKeyRequest to_LowerCase wp contentID policy);
     respJSON ← json_Decode_map (ResponseBody response);
     match respJSON !! "response" with
     | None => Err empty_response
     | Some resp =>
       json_Unmarshal_ContentKeyResponse (fst (Base64.DecodeString resp))
     end).
Proof.
  unfold GetContentKey.
  change (httpCaller (with_service wp service)
            (contentKeyRequest to_LowerCase (with_service wp service)
               contentID policy))
    with (service (contentKeyRequest to_LowerCase wp contentID policy)).
  destruct (service _) as [response |]; cbn [mbind result_bind]; [| reflexivity].
  destruct (json_Decode_map _) as [respJSON |]; cbn [mbind result_bind];
    [| reflexivity].
  destruct (respJSON !! "response") as [resp |]; [| reflexivity].
  destruct (Base64.DecodeString resp) as [dec e]. cbn [fst].
  destruct (json_Unmarshal_ContentKeyResponse dec); reflexivity.
Qed.

Lemma with_service_same (wp : Proxy) : with_service wp (httpCaller wp) = wp.
Proof. now destruct wp. Qed.

(** X4.  Neither operation reads the status of the reply: with any other
    status code and the same body the result is the same. *)
Theorem status_code_is_not_read (wp : Proxy) (code : Z)
    (contentID body : string) (policy : Policy.t) :
  GetLicense to_LowerCase (with_service wp (with_status code (httpCaller wp)))
             contentID body
  = GetLicense to_LowerCase wp contentID body
  /\ GetContentKey to_LowerCase
       (with_service wp (with_status code (httpCaller wp))) contentID policy
     = GetContentKey to_LowerCase wp contentID policy.
Proof.
  split.
  - rewrite <- (with_service_same wp) at 3. rewrite !with_service_license.
    destruct (buildLicenseMessage wp contentID body) as [msg |];
      cbn [mbind result_bind]; [| reflexivity].
    unfold with_status. now destruct (httpCaller wp _).
  - rewrite <- (with_service_same wp) at 3. rewrite !with_service_content_key.
    unfold with_status. now destruct (httpCaller wp _).
Qed.

(** X5.  A reply that is valid JSON and names no field of the response,
    the text [null] or an object of other members, is a success: the
    response is returned with every field at its zero value, [Status]
    included. *)
Theorem license_reply_without_fields (wp : Proxy) (contentID body : string)
    (msg : gmap string GoVal) (response : Response) (v : Json.value) :
  buildLicenseMessage wp contentID body = Ok msg ->
  httpCaller wp (licenseRequest to_LowerCase wp msg) = Ok response ->
  Scanner.checkValid (map Bytes.to_Z (ResponseBody response)) = None ->
  Parser.parse (map Bytes.to_Z (ResponseBody response)) = Some v ->
  names_no_field LicenseResponse.type v = true ->
  GetLicense to_LowerCase wp contentID body = Ok LicenseResponse.zero
  /\ LicenseResponse.field "Status" LicenseResponse.zero = Reflect.Str "".
Proof.
  intros Hmsg Hdo Hvalid Hparse Hnames. split; [| reflexivity].
  unfold GetLicense. rewrite Hmsg. cbn [mbind result_bind]. rewrite Hdo.
  cbn [mbind result_bind]. unfold json_Unmarshal_LicenseResponse. cbv zeta.
  rewrite Hvalid, Hparse.
  rewrite ReflectFacts.into_no_field by (try exact Hnames; eexists _, _; reflexivity).
  reflexivity.
Qed.

(** X6.  Of the key governer [GetLicense] asks the content key only:
    with another governer that gives the same key for the content, the
    result is the same. *)
Theorem license_asks_for_the_content_key_only (wp : Proxy)
    (governer : KeyGoverner) (contentID body : string) :
  GenerateContentKey governer (Bytes.bytes_of_string contentID)
  = GenerateContentKey (ContentKeyGenerator wp) (Bytes.bytes_of_string contentID) ->
  GetLicense to_LowerCase (with_governer wp governer) contentID body
  = GetLicense to_LowerCase wp contentID body.
Proof.
  intros Hkey. unfold GetLicense.
  assert (Hmsg : buildLicenseMessage (with_governer wp governer) contentID body
                 = buildLicenseMessage wp contentID body).
  { unfold buildLicenseMessage, licenseMessage.
    cbn [with_governer ContentKeyGenerator Provider].
    change (generateSignature (with_governer wp governer))
      with (generateSignature wp).
    now rewrite Hkey. }
  rewrite Hmsg. reflexivity.
Qed.

End LicenseFacts.

(** ** [GetContentKey] *)

Section ContentKeyFacts.

Variable to_LowerCase : Z -> Z.

(** X7.  The policy message is the object of the members [content_id],
    [drm_types], [policy] and [tracks], in this order: the content
    identifier given to [GetContentKey] in base64 (the identifier inside
    the policy is not read), the DRM types and the policy name as they were
    given, a [nil] list of DRM types written as [null]. *)
Theorem policy_message_json (wp : Proxy) (contentID : string)
    (policy : Policy.t) :
  Marshal.of_map (Some (setPolicy wp contentID policy))
  = Json.Object
      [("content_id",
        Json.String_ (Base64.EncodeToString (Bytes.bytes_of_string contentID)));
       ("drm_types",
        match Policy.DRMTypes policy with
        | None => Json.Null
        | Some types => Json.Array (map Json.String_ types)
        end);
       ("policy", Json.String_ (Policy.Policy policy));
       ("tracks",
        match elems (Policy.Tracks policy) with
        | [] => Json.Null
        | ts =>
          Json.Array (map (fun track => Json.Object [("type", Json.String_ track)])
                          ts)
        end)].
Proof.
  pose proof (setPolicy_tracks_value wp contentID policy) as Htracks.
  unfold setPolicy in *. cbv zeta in *.
  rewrite lookup_insert_ne in Htracks by discriminate.
  rewrite lookup_insert_eq in Htracks. injection Htracks as Htracks.
  unfold Marshal.of_map. rewrite sorted_members_policy.
  cbn [map]. rewrite Htracks. clear Htracks.
  destruct (elems (Policy.Tracks policy)) as [| t ts];
    cbn [Marshal.of_val Marshal.of_slice]; [reflexivity |].
  unfold Marshal.of_slice. cbn [map]. rewrite of_val_track, map_map.
  rewrite (map_ext _ _ of_val_track). reflexivity.
Qed.

(** X8.  The request of [GetContentKey] is made from the key, the vector
    and the provider of the proxy, the content identifier given, and the
    tracks, the DRM types and the name of the policy; the identifier inside
    the policy, the key governer and the HTTP client have no part in it. *)
Theorem content_key_request_inputs (wp wp' : Proxy) (contentID : string)
    (policy policy' : Policy.t) :
  PartnerRootKey wp = PartnerRootKey wp' ->
  PartnerRootIV wp = PartnerRootIV wp' ->
  Provider wp = Provider wp' ->
  Policy.Tracks policy = Policy.Tracks policy' ->
  Policy.DRMTypes policy = Policy.DRMTypes policy' ->
  Policy.Policy policy = Policy.Policy policy' ->
  contentKeyRequest to_LowerCase wp contentID policy
  = contentKeyRequest to_LowerCase wp' contentID policy'.
Proof.
  intros Hkey Hiv Hprovider Htracks Htypes Hname.
  unfold contentKeyRequest, buildCKMessage, setPolicy, generateSignature.
  cbv zeta. now rewrite Hkey, Hiv, Hprovider, Htracks, Htypes, Hname.
Qed.

(** X9.  When the signer succeeds, the request of [GetContentKey] is a
    POST to the key URL, of the UAT host for the provider [widevine_test]
    and of the production host otherwise, of content type
    [application/json], whose body is the object of the members [request],
    [signature] and [signer], in this order, the signature in base64. *)
Theorem content_key_request_on_the_wire (wp : Proxy) (contentID : string)
    (policy : Policy.t) (sign : list byte) :
  let jsonPayload := json_Marshal_map (Some (setPolicy wp contentID policy)) in
  generateSignature wp jsonPayload = Ok sign ->
  contentKeyRequest to_LowerCase wp contentID policy
  = {| Method := "POST";
       URL :=
         (if String.eqb (Provider wp) "widevine_test"
          then widevineModularUATGetKeyURL
          else widevineModularProductionGetKeyURL) +:+ "widevine_test";
       Header := [("Content-Type", "application/json")];
       Body :=
         map Bytes.of_Z
           (Json.text_codes "{'request':"
              ++ Json.quote (Base64.EncodeToString jsonPayload)
              ++ Json.text_codes ",'signature':"
              ++ Json.quote (Base64.EncodeToString sign)
              ++ Json.text_codes ",'signer':" ++ Json.quote (Provider wp)
              ++ Json.text_codes "}") |}.
Proof.
  cbv zeta. intros Hsign. unfold contentKeyRequest, buildCKMessage. cbv zeta.
  rewrite Hsign. rewrite envelope_text.
  unfold Header_Add, NewRequest. cbn [Method URL Header Body app].
  replace (getCloudLicenseServiceURL to_LowerCase (Provider wp) "key")
    with ((if String.eqb (Provider wp) "widevine_test"
           then widevineModularUATGetKeyURL
           else widevineModularProductionGetKeyURL) +:+ "widevine_test")
    by (unfold getCloudLicenseServiceURL;
        change (Strings.ToLower to_LowerCase "key") with "key";
        cbn [String.eqb Ascii.eqb Bool.eqb];
        now destruct (String.eqb (Provider wp) "widevine_test")).
  reflexivity.
Qed.

(** X10.  A [response] member that is present and empty, the empty string
    or [null], does not give the error of the missing member: the inner
    decoder is run on no input and its syntax error is returned. *)
Theorem empty_response_value (wp : Proxy) (contentID : string)
    (policy : Policy.t) (response : Response) (respJSON : gmap string string) :
  httpCaller wp (contentKeyRequest to_LowerCase wp contentID policy)
  = Ok response ->
  json_Decode_map (ResponseBody response) = Ok respJSON ->
  respJSON !! "response" = Some "" ->
  GetContentKey to_LowerCase wp contentID policy
  = Err (SyntaxError UnexpectedEnd 0)
  /\ SyntaxError UnexpectedEnd 0 <> empty_response.
Proof.
  intros Hdo Hmap Hresp. split; [| discriminate].
  unfold GetContentKey. rewrite Hdo. cbn [mbind result_bind].
  rewrite Hmap. cbn [mbind result_bind]. rewrite Hresp. reflexivity.
Qed.

(** X11.  When the text inside [response] is the JSON value [null],
    [GetContentKey] succeeds and the response it returns is the [nil]
    pointer. *)
Theorem null_content_key_response (wp : Proxy) (contentID : string)
    (policy : Policy.t) (response : Response) (respJSON : gmap string string)
    (resp : string) :
  httpCaller wp (contentKeyRequest to_LowerCase wp contentID policy)
  = Ok response ->
  json_Decode_map (ResponseBody response) = Ok respJSON ->
  respJSON !! "response" = Some resp ->
  let dec := map Bytes.to_Z (fst (Base64.DecodeString resp)) in
  Scanner.checkValid dec = None ->
  Parser.parse dec = Some Json.Null ->
  GetContentKey to_LowerCase wp contentID policy = Ok None.
Proof.
  cbv zeta. intros Hdo Hmap Hresp Hvalid Hparse.
  unfold GetContentKey. rewrite Hdo. cbn [mbind result_bind].
  rewrite Hmap. cbn [mbind result_bind]. rewrite Hresp.
  destruct (Base64.DecodeString resp) as [dec e]. cbn [fst] in *.
  unfold json_Unmarshal_ContentKeyResponse. cbv zeta.
  rewrite Hvalid, Hparse. reflexivity.
Qed.

End ContentKeyFacts.

(** ** Replies of a known shape *)

Module StreamFacts.
Import Scanner.

(** Inside a string literal the scanner stays where it is on plain bytes. *)
Lemma run_plain s c :
  step s = stateInString -> is_plain_byte c = true ->
  run (count s) c = (count s, scanContinue).
Proof.
  intros Hstep Hc. unfold run. cbn [count step]. rewrite Hstep.
  unfold is_plain_byte in Hc.
  destruct (c =? 34) eqn:E1; [now rewrite !andb_false_r in Hc |].
  destruct (c =? 92) eqn:E2; [now rewrite !andb_false_r in Hc |].
  destruct (c <? 32) eqn:E3; [| reflexivity].
  destruct (32 <=? c) eqn:E4; [lia | discriminate].
Qed.

Lemma readValue_from_plain content :
  forall s seen rest,
    step s = stateInString -> forallb is_plain_byte content = true ->
    exists s',
      step s' = stateInString /\ parseState s' = parseState s
      /\ err s' = err s /\ endTop s' = endTop s
      /\ bytes s' = bytes s + Z.of_nat (length content)
      /\ readValue_from s seen (content ++ rest)
         = readValue_from s' (rev content ++ seen) rest.
Proof.
  induction content as [| c content IH]; intros s seen rest Hstep Hplain.
  - exists s. cbn [length Z.of_nat]. rewrite Z.add_0_r. repeat split. exact Hstep.
  - cbn [forallb] in Hplain. apply andb_prop in Hplain as [Hc Hplain].
    destruct (IH (count s) (c :: seen) rest Hstep Hplain)
      as (s' & H1 & H2 & H3 & H4 & H5 & H6).
    exists s'. repeat split; try assumption.
    + rewrite H5. cbn [count bytes length]. lia.
    + cbn [app readValue_from]. rewrite (run_plain s c Hstep Hc).
      rewrite H6. cbn [rev]. now rewrite <- app_assoc.
Qed.

Lemma checkValid_from_plain content :
  forall s rest,
    step s = stateInString -> forallb is_plain_byte content = true ->
    exists s',
      step s' = stateInString /\ parseState s' = parseState s
      /\ err s' = err s /\ endTop s' = endTop s
      /\ bytes s' = bytes s + Z.of_nat (length content)
      /\ checkValid_from s (content ++ rest) = checkValid_from s' rest.
Proof.
  induction content as [| c content IH]; intros s rest Hstep Hplain.
  - exists s. cbn [length Z.of_nat]. rewrite Z.add_0_r. repeat split. exact Hstep.
  - cbn [forallb] in Hplain. apply andb_prop in Hplain as [Hc Hplain].
    destruct (IH (count s) rest Hstep Hplain)
      as (s' & H1 & H2 & H3 & H4 & H5 & H6).
    exists s'. repeat split; try assumption.
    + rewrite H5. cbn [count bytes length]. lia.
    + cbn [app checkValid_from]. rewrite (run_plain s c Hstep Hc).
      exact H6.
Qed.

Lemma plain_not_quote c : is_plain_byte c = true -> (c =? 34) = false.
Proof.
  unfold is_plain_byte. destruct (c =? 34); [now rewrite !andb_false_r |].
  reflexivity.
Qed.

Lemma plain_not_backslash c : is_plain_byte c = true -> (c =? 92) = false.
Proof.
  unfold is_plain_byte. destruct (c =? 92); [now rewrite !andb_false_r |].
  reflexivity.
Qed.

Lemma plain_ascii c : is_plain_byte c = true -> 32 <= c < 128.
Proof. unfold is_plain_byte. lia. Qed.

(** The body of a string literal of plain bytes ends at the quote. *)
Lemma string_body_plain content rest :
  forallb is_plain_byte content = true ->
  Parser.string_body false (content ++ 34 :: rest) = Some (content, rest).
Proof.
  induction content as [| c content IH]; intros Hplain; cbn [app Parser.string_body].
  - reflexivity.
  - cbn [forallb] in Hplain. apply andb_prop in Hplain as [Hc Hplain].
    rewrite (plain_not_quote c Hc), (plain_not_backslash c Hc), (IH Hplain).
    reflexivity.
Qed.

(** Plain bytes stand for themselves. *)
Lemma unquote_fuel_plain content :
  forall fuel, (length content <= fuel)%nat ->
               forallb is_plain_byte content = true ->
               Parser.unquote_fuel fuel content = content.
Proof.
  induction content as [| c content IH]; intros fuel Hfuel Hplain.
  - now destruct fuel.
  - destruct fuel as [| fuel]; [cbn in Hfuel; lia |].
    cbn [forallb] in Hplain. apply andb_prop in Hplain as [Hc Hplain].
    cbn [Parser.unquote_fuel]. rewrite (plain_not_backslash c Hc).
    pose proof (plain_ascii c Hc) as Hr. unfold Utf8.RuneSelf.
    destruct (c <? 128) eqn:E; [| lia].
    rewrite IH; [reflexivity | cbn in Hfuel; lia | exact Hplain].
Qed.

Lemma unquote_plain (s : string) :
  is_plain s = true -> Parser.unquote (Bytes.codes s) = s.
Proof.
  intros Hplain. unfold Parser.unquote.
  rewrite unquote_fuel_plain by (try exact Hplain; lia).
  apply BytesFacts.of_codes_codes.
Qed.

(** One byte that does not end the value. *)
Lemma readValue_from_continue s seen c rest s' op :
  run (count s) c = (s', op) ->
  match op with
  | scanEnd | scanEndObject | scanEndArray | scanError => False
  | _ => True
  end ->
  readValue_from s seen (c :: rest) = readValue_from s' (c :: seen) rest.
Proof.
  intros Hrun Hop. cbn [readValue_from]. rewrite Hrun.
  destruct op; try contradiction; reflexivity.
Qed.

Lemma checkValid_from_continue s c rest s' op :
  run (count s) c = (s', op) ->
  match op with
  | scanError => False
  | _ => True
  end ->
  checkValid_from s (c :: rest) = checkValid_from s' rest.
Proof.
  intros Hrun Hop. cbn [checkValid_from]. rewrite Hrun.
  destruct op; try contradiction; reflexivity.
Qed.

(** The byte that closes the object or the array the stream began with. *)
Lemma readValue_from_closed s seen c rest s' op :
  run (count s) c = (s', op) ->
  match op with
  | scanEndObject | scanEndArray => True
  | _ => False
  end ->
  snd (run_stateEndValue s' 32) = scanEnd ->
  readValue_from s seen (c :: rest) = Ok (rev (c :: seen)).
Proof.
  intros Hrun Hop Hend. cbn [readValue_from]. rewrite Hrun.
  destruct op; try contradiction; now rewrite Hend.
Qed.

(** The first value of a stream that begins with the object of one member
    [response], a string of plain bytes: the object, whatever follows it. *)
Lemma readValue_response (resp : string) (extra : list Z) :
  is_plain resp = true ->
  readValue (Json.text_codes "{'response':'" ++ Bytes.codes resp
               ++ Json.text_codes "'}" ++ extra)
  = Ok (Json.text_codes "{'response':'" ++ Bytes.codes resp
          ++ Json.text_codes "'}").
Proof.
  intros Hplain.
  change (Json.text_codes "{'response':'")
    with [123; 34; 114; 101; 115; 112; 111; 110; 115; 101; 34; 58; 34].
  change (Json.text_codes "'}") with [34; 125].
  unfold readValue, reset. cbn [app].
  do 13 (read_byte readValue_from_continue).
  match goal with
  | |- readValue_from ?s ?seen _ = _ =>
    destruct (readValue_from_plain (Bytes.codes resp) s seen (34 :: 125 :: extra)
                eq_refl Hplain)
      as ([step0 top0 stack0 err0 bytes0] & H1 & H2 & H3 & H4 & _ & ->)
  end.
  cbn [step parseState err endTop] in H1, H2, H3, H4. subst.
  read_byte readValue_from_continue.
  erewrite readValue_from_closed; [| vm_compute; reflexivity | exact I | reflexivity].
  f_equal. cbn [rev]. rewrite rev_app_distr, rev_involutive. cbn [rev app].
  rewrite <- !app_assoc. reflexivity.
Qed.

Lemma skip_ws_no_space c r :
  Scanner.isSpace c = false -> Parser.skip_ws (c :: r) = c :: r.
Proof. intros H. cbn [Parser.skip_ws]. now rewrite H. Qed.

(** A string literal of plain bytes, as a value. *)
Lemma parse_value_plain fuel content rest :
  forallb is_plain_byte content = true ->
  Parser.parse_value (S fuel) (34 :: content ++ 34 :: rest)
  = Some (Json.String_ (Parser.unquote content), rest).
Proof.
  intros Hplain. cbn [Parser.parse_value].
  rewrite skip_ws_no_space by reflexivity.
  change (34 =? 123) with false. change (34 =? 91) with false.
  change (34 =? 34) with true. cbv iota.
  now rewrite string_body_plain.
Qed.

(** An object of one member whose name is made of plain bytes. *)
Lemma parse_value_member fuel key vtext v rest :
  forallb is_plain_byte key = true ->
  Parser.parse_value fuel vtext = Some (v, 125 :: rest) ->
  Parser.parse_value (S (S fuel)) (123 :: 34 :: key ++ 34 :: 58 :: vtext)
  = Some (Json.Object [(Parser.unquote key, v)], rest).
Proof.
  intros Hplain Hv. cbn [Parser.parse_value Parser.parse_members].
  rewrite !skip_ws_no_space by reflexivity.
  change (123 =? 123) with true. change (34 =? 125) with false. cbv iota.
  rewrite string_body_plain by exact Hplain. cbn [mbind option_bind].
  rewrite skip_ws_no_space by reflexivity. rewrite Hv.
  cbn [mbind option_bind]. rewrite skip_ws_no_space by reflexivity.
  reflexivity.
Qed.

(** The value of that object. *)
Lemma parse_response (resp : string) :
  is_plain resp = true ->
  Parser.parse (Json.text_codes "{'response':'" ++ Bytes.codes resp
                  ++ Json.text_codes "'}")
  = Some (Json.Object [("response", Json.String_ resp)]).
Proof.
  intros Hplain.
  change (Json.text_codes "{'response':'")
    with (123 :: 34 :: Bytes.codes "response" ++ 34 :: 58 :: [34]).
  change (Json.text_codes "'}") with [34; 125].
  unfold Parser.parse.
  cbn [app]. rewrite <- app_assoc. cbn [app length].
  erewrite parse_value_member;
    [| reflexivity | rewrite length_app; cbn [length]; rewrite Nat.add_comm;
                     cbn [Nat.add]; apply parse_value_plain; exact Hplain].
  cbn [fmap option_fmap option_map fst].
  now rewrite !unquote_plain.
Qed.

(** The text of the object of one member [status], a string of plain
    bytes, is valid. *)
Lemma checkValid_status (status : string) :
  is_plain status = true ->
  checkValid (Json.text_codes "{'status':'" ++ Bytes.codes status
                ++ Json.text_codes "'}") = None.
Proof.
  intros Hplain.
  change (Json.text_codes "{'status':'")
    with [123; 34; 115; 116; 97; 116; 117; 115; 34; 58; 34].
  change (Json.text_codes "'}") with [34; 125].
  unfold checkValid, reset. cbn [app].
  do 11 (check_byte checkValid_from_continue).
  match goal with
  | |- checkValid_from ?s _ = _ =>
    destruct (checkValid_from_plain (Bytes.codes status) s [34; 125]
                eq_refl Hplain)
      as ([step0 top0 stack0 err0 bytes0] & H1 & H2 & H3 & H4 & _ & ->)
  end.
  cbn [step parseState err endTop] in H1, H2, H3, H4. subst.
  do 2 (check_byte checkValid_from_continue). reflexivity.
Qed.

(** Once the scanner has failed, its error is the result. *)
Lemma checkValid_from_failed s rest e :
  step s = stateError -> err s = Some e -> checkValid_from s rest = Some e.
Proof.
  intros Hstep Herr. destruct rest as [| c rest]; cbn [checkValid_from].
  - unfold eof. now rewrite Herr.
  - unfold run. cbn [count step]. rewrite Hstep. cbn [err count]. exact Herr.
Qed.

(** A byte that is no space after that object is a syntax error. *)
Lemma checkValid_status_trailing (status : string) (c : Z) (extra : list Z) :
  is_plain status = true -> isSpace c = false ->
  checkValid (Json.text_codes "{'status':'" ++ Bytes.codes status
                ++ Json.text_codes "'}" ++ c :: extra)
  = Some (SyntaxError (InvalidCharacter c "after top-level value")
                      (Z.of_nat (length (Bytes.codes status)) + 14)).
Proof.
  intros Hplain Hc.
  change (Json.text_codes "{'status':'")
    with [123; 34; 115; 116; 97; 116; 117; 115; 34; 58; 34].
  change (Json.text_codes "'}") with [34; 125].
  unfold checkValid, reset. cbn [app].
  do 11 (check_byte checkValid_from_continue).
  match goal with
  | |- checkValid_from ?s _ = _ =>
    destruct (checkValid_from_plain (Bytes.codes status) s (34 :: 125 :: c :: extra)
                eq_refl Hplain)
      as ([step0 top0 stack0 err0 bytes0] & H1 & H2 & H3 & H4 & H5 & ->)
  end.
  cbn [step parseState err endTop bytes] in H1, H2, H3, H4, H5. subst.
  do 2 (check_byte checkValid_from_continue).
  cbn [checkValid_from]. unfold run. cbn [count step]. unfold run_stateEndTop.
  rewrite Hc. cbn [error_ fst]. rewrite checkValid_from_failed
    with (e := SyntaxError (InvalidCharacter c "after top-level value")
                           (11 + Z.of_nat (length (Bytes.codes status)) + 1 + 1 + 1));
    [| reflexivity | reflexivity].
  do 2 f_equal. lia.
Qed.

(** The value of the object of one member [status]. *)
Lemma parse_status (status : string) :
  is_plain status = true ->
  Parser.parse (Json.text_codes "{'status':'" ++ Bytes.codes status
                  ++ Json.text_codes "'}")
  = Some (Json.Object [("status", Json.String_ status)]).
Proof.
  intros Hplain.
  change (Json.text_codes "{'status':'")
    with (123 :: 34 :: Bytes.codes "status" ++ 34 :: 58 :: [34]).
  change (Json.text_codes "'}") with [34; 125].
  unfold Parser.parse.
  cbn [app]. rewrite <- app_assoc. cbn [app length].
  erewrite parse_value_member;
    [| reflexivity | rewrite length_app; cbn [length]; rewrite Nat.add_comm;
                     cbn [Nat.add]; apply parse_value_plain; exact Hplain].
  cbn [fmap option_fmap option_map fst].
  now rewrite !unquote_plain.
Qed.

End StreamFacts.

Section ShapedReplies.

Variable to_LowerCase : Z -> Z.

Lemma length_codes (s : string) : length (Bytes.codes s) = String.length s.
Proof.
  unfold Bytes.codes, Bytes.bytes_of_string, list_byte_of_string.
  rewrite !length_map. induction s as [| a s IH]; cbn; [reflexivity |].
  now rewrite IH.
Qed.

Lemma map_to_Z_text_app (s : string) (rest : list byte) :
  map Bytes.to_Z (Json.text s ++ rest)
  = Json.text_codes s ++ map Bytes.to_Z rest.
Proof. now rewrite map_app. Qed.

(** The results for a reply, the requests having been made. *)
Lemma content_key_of_reply (wp : Proxy) (contentID : string)
    (policy : Policy.t) (response : Response) :
  httpCaller wp (contentKeyRequest to_LowerCase wp contentID policy)
  = Ok response ->
  GetContentKey to_LowerCase wp contentID policy
  = (respJSON ← json_Decode_map (ResponseBody response);
     match respJSON !! "response" with
     | None => Err empty_response
     | Some resp =>
       json_Unmarshal_ContentKeyResponse (fst (Base64.DecodeString resp))
     end).
Proof.
  intros Hdo. unfold GetContentKey. rewrite Hdo. cbn [mbind result_bind].
  destruct (json_Decode_map (ResponseBody response)) as [respJSON |];
    cbn [mbind result_bind]; [| reflexivity].
  destruct (respJSON !! "response") as [resp |]; [| reflexivity].
  destruct (Base64.DecodeString resp) as [dec e]. cbn [fst].
  destruct (json_Unmarshal_ContentKeyResponse dec); reflexivity.
Qed.

Lemma license_of_reply (wp : Proxy) (contentID body : string)
    (msg : gmap string GoVal) (response : Response) :
  buildLicenseMessage wp contentID body = Ok msg ->
  httpCaller wp (licenseRequest to_LowerCase wp msg) = Ok response ->
  GetLicense to_LowerCase wp contentID body
  = json_Unmarshal_LicenseResponse (ResponseBody response).
Proof.
  intros Hmsg Hdo. unfold GetLicense. rewrite Hmsg. cbn [mbind result_bind].
  rewrite Hdo. cbn [mbind result_bind].
  destruct (json_Unmarshal_LicenseResponse (ResponseBody response));
    reflexivity.
Qed.

Lemma decode_map_response (resp : string) (extra : list byte) :
  is_plain resp = true ->
  json_Decode_map (Json.text "{'response':'" ++ Bytes.bytes_of_string resp
                     ++ Json.text "'}" ++ extra)
  = Ok (<["response" := resp]> ∅).
Proof.
  intros Hplain. unfold json_Decode_map.
  rewrite map_to_Z_text_app, map_app, map_to_Z_text_app.
  fold (Bytes.codes resp).
  rewrite (StreamFacts.readValue_response resp _ Hplain).
  cbn [mbind result_bind]. rewrite (StreamFacts.parse_response resp Hplain).
  reflexivity.
Qed.

(** X12.  [GetContentKey] reads the first JSON value of the reply and
    nothing after it: when the reply begins with the object of the one
    member [response], the result is what the inner decoder returns for the
    bytes this member decodes to, whatever bytes follow the object. *)
Theorem content_key_reply_is_read_to_the_end_of_its_object (wp : Proxy)
    (contentID : string) (policy : Policy.t) (code : Z) (resp : string)
    (extra : list byte) :
  is_plain resp = true ->
  httpCaller wp (contentKeyRequest to_LowerCase wp contentID policy)
  = Ok {| StatusCode := code;
          ResponseBody :=
            Json.text "{'response':'" ++ Bytes.bytes_of_string resp
              ++ Json.text "'}" ++ extra |} ->
  GetContentKey to_LowerCase wp contentID policy
  = json_Unmarshal_ContentKeyResponse (fst (Base64.DecodeString resp)).
Proof.
  intros Hplain Hdo. rewrite (content_key_of_reply _ _ _ _ Hdo).
  cbn [ResponseBody]. rewrite (decode_map_response resp extra Hplain).
  cbn [mbind result_bind].
  now rewrite (lookup_insert_eq (∅ : gmap string string) "response" resp).
Qed.

(** X13.  A reply that is the object of the one member [status] is a
    success of [GetLicense], whatever the status says: the response has
    this status and every other field at its zero value. *)
Theorem license_status_reply (wp : Proxy) (contentID body : string)
    (msg : gmap string GoVal) (code : Z) (status : string) :
  is_plain status = true ->
  buildLicenseMessage wp contentID body = Ok msg ->
  httpCaller wp (licenseRequest to_LowerCase wp msg)
  = Ok {| StatusCode := code;
          ResponseBody :=
            Json.text "{'status':'" ++ Bytes.bytes_of_string status
              ++ Json.text "'}" |} ->
  exists lr,
    GetLicense to_LowerCase wp contentID body = Ok lr
    /\ LicenseResponse.field "Status" lr = Reflect.Str status
    /\ lr = Reflect.St (Reflect.store "Status" (Reflect.Str status)
                          (Reflect.members LicenseResponse.zero)).
Proof.
  intros Hplain Hmsg Hdo. eexists. split; [| split; [| reflexivity]].
  - rewrite (license_of_reply _ _ _ _ _ Hmsg Hdo). cbn [ResponseBody].
    unfold json_Unmarshal_LicenseResponse. cbv zeta.
    rewrite map_to_Z_text_app, map_app. fold (Bytes.codes status).
    change (map Bytes.to_Z (Json.text "'}")) with (Json.text_codes "'}").
    rewrite (StreamFacts.checkValid_status status Hplain).
    rewrite (StreamFacts.parse_status status Hplain).
    reflexivity.
  - reflexivity.
Qed.

(** X14.  [GetLicense] takes the whole reply for one JSON value: a byte
    that is no white space after the object makes it fail with the syntax
    error of the decoder, where [GetContentKey] does not read it. *)
Theorem license_reply_is_read_to_its_end (wp : Proxy)
    (contentID body : string) (msg : gmap string GoVal) (code : Z)
    (status : string) (c : byte) (extra : list byte) :
  is_plain status = true ->
  Scanner.isSpace (Bytes.to_Z c) = false ->
  buildLicenseMessage wp contentID body = Ok msg ->
  httpCaller wp (licenseRequest to_LowerCase wp msg)
  = Ok {| StatusCode := code;
          ResponseBody :=
            Json.text "{'status':'" ++ Bytes.bytes_of_string status
              ++ Json.text "'}" ++ c :: extra |} ->
  GetLicense to_LowerCase wp contentID body
  = Err (SyntaxError (InvalidCharacter (Bytes.to_Z c) "after top-level value")
                     (Z.of_nat (String.length status) + 14)).
Proof.
  intros Hplain Hc Hmsg Hdo.
  rewrite (license_of_reply _ _ _ _ _ Hmsg Hdo). cbn [ResponseBody].
  unfold json_Unmarshal_LicenseResponse. cbv zeta.
  rewrite map_to_Z_text_app, map_app, map_to_Z_text_app.
  fold (Bytes.codes status). cbn [map].
  rewrite (StreamFacts.checkValid_status_trailing status _ _ Hplain Hc).
  now rewrite length_codes.
Qed.

End ShapedReplies.

(** ** The endpoint resolver, once more *)

Section ResolverCases.

Variable to_LowerCase : Z -> Z.

(** X15.  The resolver returns the empty string exactly for the purposes
    that are neither [key] nor [license] once in lower case; for these two
    the result is not empty. *)
Theorem resolver_unknown_purpose (provider purpose : string) :
  getCloudLicenseServiceURL to_LowerCase provider purpose = ""
  <-> Strings.ToLower to_LowerCase purpose <> "key"
      /\ Strings.ToLower to_LowerCase purpose <> "license".
Proof.
  unfold getCloudLicenseServiceURL.
  destruct (String.eqb_spec (Strings.ToLower to_LowerCase purpose) "key")
    as [Hkey | Hkey].
  - split; [| intros [H _]; contradiction].
    destruct (String.eqb provider "widevine_test"); discriminate.
  - destruct (String.eqb_spec (Strings.ToLower to_LowerCase purpose) "license")
      as [Hlic | Hlic].
    + split; [| intros [_ H]; contradiction].
      destruct (String.eqb provider "widevine_test"); discriminate.
    + split; [intros _; split; assumption | reflexivity].
Qed.

End ResolverCases.

(** X16.  The purpose is compared without regard to the case of ASCII
    letters, and for a purpose made of ASCII the case tables of Unicode have
    no part in the result. *)
Theorem resolver_purpose_case (table table' : Z -> Z)
    (provider purpose purpose' : string) :
  Strings.is_ascii (Bytes.codes purpose) = true ->
  Strings.is_ascii (Bytes.codes purpose') = true ->
  map Strings.lower_ascii (Bytes.codes purpose)
  = map Strings.lower_ascii (Bytes.codes purpose') ->
  getCloudLicenseServiceURL table provider purpose
  = getCloudLicenseServiceURL table' provider purpose'.
Proof.
  intros Hascii Hascii' Hsame.
  unfold getCloudLicenseServiceURL, Strings.ToLower. cbv zeta.
  now rewrite Hascii, Hascii', Hsame.
Qed.

(** ** A round trip through both decoders *)

Module Base64Plain.
Import Base64.

Lemma enc6_plain v : 0 <= v < 64 -> is_plain_byte (enc6 v) = true.
Proof.
  intros Hv. rewrite <- (Z2Nat.id v) by lia.
  assert (Hn : (Z.to_nat v < 64)%nat) by lia.
  generalize dependent (Z.to_nat v). clear v Hv. intros n Hn.
  do 64 (destruct n as [|n]; [reflexivity|]). lia.
Qed.

Lemma sextet_plain val shift : is_plain_byte (sextet val shift) = true.
Proof.
  unfold sextet. apply enc6_plain. change 0x3F with (Z.ones 6).
  rewrite Z.land_ones by lia. apply Z.mod_pos_bound. lia.
Qed.

Lemma Encode_plain src : forallb is_plain_byte (Encode src) = true.
Proof.
  induction src as [| a | a b | a b c l IH] using Base64Inverse.list_ind3;
    cbn [Encode forallb]; rewrite ?sextet_plain, ?IH; reflexivity.
Qed.

(** A base64 text stands for itself inside a JSON string. *)
Lemma EncodeToString_plain (bs : list byte) :
  is_plain (EncodeToString bs) = true.
Proof.
  unfold is_plain, EncodeToString.
  rewrite Base64Inverse.codes_of_codes by apply Base64Inverse.Encode_bytes.
  apply Encode_plain.
Qed.

End Base64Plain.

Section RoundTrip.

Variable to_LowerCase : Z -> Z.

(** X17.  A reply whose [response] is the base64 text of the object of the
    one member [status] gives the response of that status: the case
    [TestGetContentKey] expects with the status [OK]. *)
Theorem content_key_status_round_trip (wp : Proxy) (contentID : string)
    (policy : Policy.t) (code : Z) (status : string) :
  is_plain status = true ->
  let inner :=
    Json.text "{'status':'" ++ Bytes.bytes_of_string status ++ Json.text "'}" in
  httpCaller wp (contentKeyRequest to_LowerCase wp contentID policy)
  = Ok {| StatusCode := code;
          ResponseBody :=
            Json.text "{'response':'"
              ++ Bytes.bytes_of_string (Base64.EncodeToString inner)
              ++ Json.text "'}" |} ->
  GetContentKey to_LowerCase wp contentID policy
  = Ok (Some {| ContentKeyResponse.Status := status;
                ContentKeyResponse.DRM := None;
                ContentKeyResponse.Tracks := None;
                ContentKeyResponse.AlreadyUsed := false |}).
Proof.
  intros Hplain inner Hdo.
  rewrite (content_key_of_reply _ _ _ _ _ Hdo). cbn [ResponseBody].
  rewrite <- (app_nil_r (Json.text "'}")).
  rewrite (decode_map_response _ [] (Base64Plain.EncodeToString_plain inner)).
  cbn [mbind result_bind].
  rewrite (lookup_insert_eq (∅ : gmap string string) "response").
  rewrite Base64Inverse.DecodeString_EncodeToString. cbn [fst].
  unfold json_Unmarshal_ContentKeyResponse, inner. cbv zeta.
  rewrite map_to_Z_text_app, map_app. fold (Bytes.codes status).
  change (map Bytes.to_Z (Json.text "'}")) with (Json.text_codes "'}").
  rewrite (StreamFacts.checkValid_status status Hplain).
  rewrite (StreamFacts.parse_status status Hplain).
  reflexivity.
Qed.

End RoundTrip.

(** ** The license path on the fixtures of the tests *)

Module LicenseRuns.
Import Fixtures LicenseFixtures.

(** The limits of [ParseInt] and of [ParseFloat]. *)
Example strconv_limits :
  map Strconv.ParseInt64
      ["-9223372036854775808"; "9223372036854775807"; "9223372036854775808";
       "-0"; "12.0"; "1e2"]
  = [Some (-9223372036854775808); Some 9223372036854775807; None; Some 0;
     None; None]
  /\ map Strconv.float64_overflows
         ["1.7976931348623157e308"; "1.7976931348623159e308"; "1e309";
          "-1E400"; "0e999"; "0.000001e314"]
     = [false; true; true; true; false; false].
Proof. vm_compute. split; reflexivity. Qed.

(** A reply of the shape the service documents. *)
Example license_reply_decoded :
  match getLicense (wv_with (replying sample_reply)) with
  | Ok lr =>
    LicenseResponse.field "Status" lr = Reflect.Str "OK"
    /\ LicenseResponse.field "SecurityLevel" lr = Reflect.Int 3
    /\ LicenseResponse.field "SystemID" lr = Reflect.Int 4464
    /\ LicenseResponse.field "LicenseMetadata" lr
       = Reflect.St [("ContentID", Reflect.Str "dGVzdGluZw==");
                     ("LicenseType", Reflect.Str "STREAMING");
                     ("RequestType", Reflect.Str "NEW")]
    /\ LicenseResponse.field "ClientInfo" lr
       = Reflect.Sl (Some [Reflect.St [("Name", Reflect.Str "architecture_name");
                                       ("Value", Reflect.Str "x86-64")]]) []
    /\ LicenseResponse.field "PsshData" lr
       = Reflect.St [("KeyID",
                      Reflect.Sl (Some [Reflect.Any (Reflect.AString "AAAA")]) []);
                     ("ContentID", Reflect.Str "dGVzdGluZw==")]
    /\ LicenseResponse.field "Platform" lr = Reflect.Str ""
  | Err _ => False
  end.
Proof. vm_compute. repeat split. Qed.

(** Names are matched without regard to case; a member met twice is
    decoded twice into the same field; the first error is the one
    returned. *)
Example license_reply_shapes :
  status (getLicense (wv_with (replying "{'STATUS':'OK'}"))) = Ok (Reflect.Str "OK")
  /\ status (getLicense (wv_with (replying "{'status':'OK','status':null}")))
     = Ok (Reflect.Str "OK")
  /\ getLicense (wv_with (replying "{'status':1,'security_level':'3'}"))
     = Err (UnmarshalTypeError "number" "string" "status")
  /\ getLicense (wv_with (replying "{'session_state':{'license_id':{'version':1.5}}}"))
     = Err (UnmarshalTypeError "number 1.5" "int64"
                               "session_state.license_id.version")
  /\ getLicense (wv_with (replying "{'supported_tracks':[1e999]}"))
     = Err (UnmarshalTypeError "number 1e999" "float64" "supported_tracks")
  /\ getLicense (wv_with (replying "[]"))
     = Err (UnmarshalTypeError "array" "widevineproxy.LicenseResponse" "")
  /\ getLicense (wv_with (replying ""))
     = Err (SyntaxError UnexpectedEnd 0)
  /\ getLicense (wv_with unreachable)
     = Err (UrlError "Post"
              "https://license.uat.widevine.com/cenc/getlicense/widevine_test"
              "connection refused").
Proof. vm_compute. repeat split. Qed.

(** A slice met a second and a third time is decoded into the elements it
    has, then into what its backing array still holds. *)
Example license_reply_slices :
  match
    getLicense
      (wv_with
         (replying
            ("{'client_info':[{'name':'a'},{'name':'b'}],'client_info':[{}],"
             +:+ "'client_info':[{},{'value':'v'}]}")))
  with
  | Ok lr =>
    LicenseResponse.field "ClientInfo" lr
    = Reflect.Sl
        (Some [Reflect.St [("Name", Reflect.Str "a"); ("Value", Reflect.Str "")];
               Reflect.St [("Name", Reflect.Str "b"); ("Value", Reflect.Str "v")]])
        []
  | Err _ => False
  end.
Proof. vm_compute. reflexivity. Qed.

End LicenseRuns.

(** ** The properties at work *)

Import LicenseFixtures.

(** Witness of [license_signer_failure_is_returned]: the proxy of the
    README, whose key the cipher rejects. *)
Lemma license_with_the_readme_key :
  getLicense (with_service (readme_proxy unreachable) (replying "{'status':'OK'}"))
  = Err (KeySizeError 12).
Proof.
  apply (license_signer_failure_is_returned no_case_table
           (readme_proxy unreachable) "testing" "CAQ=" (KeySizeError 12)
           (replying "{'status':'OK'}")).
  vm_compute. reflexivity.
Defined.

(** Witness of [license_request_on_the_wire]: the proxy of the tests and a
    service that sends the request back. *)
Lemma license_request_of_the_test_proxy :
  let jsonMessage :=
    json_Marshal_LicenseMessage (licenseMessage (wv_with echo) "testing" "CAQ=") in
  URL (licenseRequest no_case_table (wv_with echo) ∅)
  = "https://license.uat.widevine.com/cenc/getlicense/widevine_test"
  /\ getLicense (wv_with echo)
  = json_Unmarshal_LicenseResponse
      (map Bytes.of_Z
         (Json.text_codes "{'request':"
            ++ Json.quote (Base64.EncodeToString jsonMessage)
            ++ Json.text_codes ",'signature':"
            ++ Json.quote (Base64.EncodeToString
                             (signature_of (wv_with echo) jsonMessage))
            ++ Json.text_codes ",'signer':'widevine_test'}")).
Proof.
  cbv zeta. split; [reflexivity |].
  apply (license_request_on_the_wire no_case_table (wv_with echo) "testing"
           "CAQ="
           (signature_of (wv_with echo)
              (json_Marshal_LicenseMessage
                 (licenseMessage (wv_with echo) "testing" "CAQ=")))).
  vm_compute. reflexivity.
Defined.


(** Witness of [license_reply_without_fields]: a reply that reports an
    error under a name the response has no field for. *)
Lemma license_of_an_unknown_member :
  getLicense (wv_with (replying "{'error':'denied'}")) = Ok LicenseResponse.zero
  /\ LicenseResponse.field "Status" LicenseResponse.zero = Reflect.Str "".
Proof.
  destruct (buildLicenseMessage (wv_with (replying "{'error':'denied'}"))
              "testing" "CAQ=") as [msg | e] eqn:Hmsg;
    [| vm_compute in Hmsg; discriminate Hmsg].
  apply (license_reply_without_fields no_case_table
           (wv_with (replying "{'error':'denied'}")) "testing" "CAQ=" msg
           {| StatusCode := 200; ResponseBody := Json.text "{'error':'denied'}" |}
           (Json.Object [("error", Json.String_ "denied")]) Hmsg);
    reflexivity.
Defined.

(** Witness of [license_asks_for_the_content_key_only]: a governer that
    agrees with the one of the tests on the content key alone. *)
Lemma license_with_another_governer :
  getLicense (with_governer (wv_with echo) other_governer)
  = getLicense (wv_with echo).
Proof.
  apply (license_asks_for_the_content_key_only no_case_table (wv_with echo)
           other_governer "testing" "CAQ=").
  reflexivity.
Defined.

(** Witness of [content_key_request_inputs]: two proxies with the key and
    vector of the tests, two policies that differ in their identifier. *)
Lemma content_key_request_of_another_policy :
  contentKeyRequest no_case_table (wv_with echo) "testing" policy
  = contentKeyRequest no_case_table
      (with_governer (wv_with unreachable) other_governer) "testing"
      policy_of_other_content.
Proof.
  apply (content_key_request_inputs no_case_table (wv_with echo)
           (with_governer (wv_with unreachable) other_governer) "testing"
           policy policy_of_other_content);
    reflexivity.
Defined.

(** Witness of [content_key_request_on_the_wire]: the request of the
    tests. *)
Lemma content_key_request_of_the_test_proxy :
  let jsonPayload := json_Marshal_map (Some (setPolicy wv "testing" policy)) in
  contentKeyRequest no_case_table wv "testing" policy
  = {| Method := "POST";
       URL := "https://license.uat.widevine.com/cenc/getcontentkey/widevine_test";
       Header := [("Content-Type", "application/json")];
       Body :=
         map Bytes.of_Z
           (Json.text_codes "{'request':"
              ++ Json.quote (Base64.EncodeToString jsonPayload)
              ++ Json.text_codes ",'signature':"
              ++ Json.quote (Base64.EncodeToString (signature_of wv jsonPayload))
              ++ Json.text_codes ",'signer':'widevine_test'}") |}.
Proof.
  cbv zeta.
  apply (content_key_request_on_the_wire no_case_table wv "testing" policy
           (signature_of wv
              (json_Marshal_map (Some (setPolicy wv "testing" policy))))).
  vm_compute. reflexivity.
Defined.

(** Witness of [empty_response_value]: replies whose [response] is the
    empty string. *)
Lemma content_key_of_an_empty_response :
  getContentKey (wv_with (replying "{'response':''}"))
  = Err (SyntaxError UnexpectedEnd 0)
  /\ SyntaxError UnexpectedEnd 0 <> empty_response.
Proof.
  apply (empty_response_value no_case_table
           (wv_with (replying "{'response':''}")) "testing" policy
           {| StatusCode := 200; ResponseBody := Json.text "{'response':''}" |}
           {[ "response" := "" ]});
    reflexivity.
Defined.

(** Witness of [null_content_key_response]: a reply that wraps the text
    [null]. *)
Lemma content_key_of_a_null_response :
  getContentKey (wv_with (wrapping "null")) = Ok None.
Proof.
  apply (null_content_key_response no_case_table (wv_with (wrapping "null"))
           "testing" policy
           {| StatusCode := 200; ResponseBody := Json.text "{'response':'bnVsbA=='}" |}
           {[ "response" := "bnVsbA==" ]} "bnVsbA==");
    reflexivity.
Defined.

(** Witness of [content_key_reply_is_read_to_the_end_of_its_object]: the
    empty object in base64, and a page of HTML after the reply. *)
Lemma content_key_of_a_reply_with_a_tail :
  getContentKey (wv_with (replying "{'response':'e30='}<html>"))
  = json_Unmarshal_ContentKeyResponse (fst (Base64.DecodeString "e30=")).
Proof.
  apply (content_key_reply_is_read_to_the_end_of_its_object no_case_table
           (wv_with (replying "{'response':'e30='}<html>")) "testing" policy 200
           "e30=" (Json.text "<html>"));
    reflexivity.
Defined.

(** Witness of [license_status_reply]: a reply that reports an error. *)
Lemma license_of_an_error_status :
  exists lr,
    getLicense (wv_with (replying "{'status':'INTERNAL_ERROR'}")) = Ok lr
    /\ LicenseResponse.field "Status" lr = Reflect.Str "INTERNAL_ERROR"
    /\ lr = Reflect.St (Reflect.store "Status" (Reflect.Str "INTERNAL_ERROR")
                          (Reflect.members LicenseResponse.zero)).
Proof.
  destruct (buildLicenseMessage
              (wv_with (replying "{'status':'INTERNAL_ERROR'}")) "testing" "CAQ=")
    as [msg | e] eqn:Hmsg; [| vm_compute in Hmsg; discriminate Hmsg].
  apply (license_status_reply no_case_table
           (wv_with (replying "{'status':'INTERNAL_ERROR'}")) "testing" "CAQ="
           msg 200 "INTERNAL_ERROR" eq_refl Hmsg).
  reflexivity.
Defined.

(** Witness of [license_reply_is_read_to_its_end]: the same tail after a
    reply to a license request. *)
Lemma license_of_a_reply_with_a_tail :
  getLicense (wv_with (replying "{'status':'OK'}<html>"))
  = Err (SyntaxError (InvalidCharacter 60 "after top-level value") 16).
Proof.
  destruct (buildLicenseMessage (wv_with (replying "{'status':'OK'}<html>"))
              "testing" "CAQ=") as [msg | e] eqn:Hmsg;
    [| vm_compute in Hmsg; discriminate Hmsg].
  apply (license_reply_is_read_to_its_end no_case_table
           (wv_with (replying "{'status':'OK'}<html>")) "testing" "CAQ=" msg 200
           "OK" "<"%byte (Json.text "html>") eq_refl eq_refl Hmsg).
  reflexivity.
Defined.

(** Witness of [resolver_purpose_case]: [KEY] and [key], with two case
    tables. *)
Lemma resolver_of_an_upper_case_purpose :
  getCloudLicenseServiceURL no_case_table "widevine_test" "KEY"
  = getCloudLicenseServiceURL (fun r => r + 32) "widevine_test" "key".
Proof.
  apply (resolver_purpose_case no_case_table (fun r => r + 32) "widevine_test"
           "KEY" "key");
    reflexivity.
Defined.

(** Witness of [content_key_status_round_trip]: the reply
    [TestGetContentKey] hopes for. *)
Lemma content_key_of_the_status_ok :
  getContentKey (wv_with (wrapping "{'status':'OK'}"))
  = Ok (Some {| ContentKeyResponse.Status := "OK";
                ContentKeyResponse.DRM := None;
                ContentKeyResponse.Tracks := None;
                ContentKeyResponse.AlreadyUsed := false |}).
Proof.
  apply (content_key_status_round_trip no_case_table
           (wv_with (wrapping "{'status':'OK'}")) "testing" policy 200 "OK");
    reflexivity.
Defined.

(** ** What [Marshal] writes is read back *)

Module EncodeFacts.
Import Json.

Lemma safe_plain c : is_safe_byte c = true -> is_plain_byte c = true.
Proof. unfold is_safe_byte. now intros [H _]%andb_prop. Qed.

Lemma safe_all_plain p :
  forallb is_safe_byte p = true -> forallb is_plain_byte p = true.
Proof.
  induction p as [| c p IH]; cbn [forallb]; [reflexivity |].
  intros [Hc Hp]%andb_prop. now rewrite (safe_plain c Hc), IH.
Qed.

(** A safe byte is written as it is. *)
Lemma escape_safe c : is_safe_byte c = true -> escape_ascii c = [c].
Proof.
  unfold is_safe_byte, is_plain_byte, escape_ascii. intros H.
  assert (Hc : 32 <= c < 128 /\ c <> 34 /\ c <> 92 /\ c <> 60 /\ c <> 62 /\ c <> 38)
    by lia.
  destruct Hc as (Hr & H34 & H92 & H60 & H62 & H38).
  repeat match goal with
         | |- context [?a =? ?b] =>
           let E := fresh in destruct (Z.eqb_spec a b) as [E | E]; [lia |]
         | |- context [?a <? ?b] =>
           let E := fresh in destruct (Z.ltb_spec a b) as [E | E]; [lia |]
         end.
  reflexivity.
Qed.

Lemma quote_from_safe p :
  forallb is_safe_byte p = true -> quote_from (Copy 0) p = p.
Proof.
  induction p as [| c p IH]; cbn [forallb quote_from]; [reflexivity |].
  intros [Hc Hp]%andb_prop.
  pose proof (StreamFacts.plain_ascii c (safe_plain c Hc)) as Hr.
  unfold Utf8.RuneSelf. destruct (Z.ltb_spec c 128) as [_ | Hge]; [| lia].
  rewrite (escape_safe c Hc), (IH Hp). reflexivity.
Qed.

Lemma quote_safe s : is_safe s = true -> quote s = 34 :: Bytes.codes s ++ [34].
Proof. intros H. unfold quote. now rewrite quote_from_safe. Qed.

Lemma is_safe_plain s : is_safe s = true -> is_plain s = true.
Proof. apply safe_all_plain. Qed.

(** The text of a safe value begins with a byte that is no white space and
    closes nothing. *)
Lemma encode_head v :
  safe_value v = true ->
  exists c r, encode v = c :: r /\ Scanner.isSpace c = false
              /\ (c =? 93) = false /\ (c =? 125) = false.
Proof.
  destruct v as [| [|] | lit | s | vs | ms]; cbn [safe_value encode];
    try discriminate; intros Hsafe;
    eexists _, _; repeat split; reflexivity.
Qed.

Lemma skip_ws_encode v rest :
  safe_value v = true -> Parser.skip_ws (encode v ++ rest) = encode v ++ rest.
Proof.
  intros Hsafe. destruct (encode_head v Hsafe) as (c & r & -> & Hc & _).
  cbn [app]. now apply StreamFacts.skip_ws_no_space.
Qed.

Lemma sep_by_cons_app (sep x : list Z) (xs : list (list Z)) (r : list Z) :
  sep_by sep (x :: xs) ++ r
  = x ++ match xs with
         | [] => r
         | _ :: _ => sep ++ sep_by sep xs ++ r
         end.
Proof.
  cbn [sep_by]. rewrite <- app_assoc. f_equal.
  destruct xs as [| y ys]; [reflexivity |].
  cbn [flat_map sep_by]. now rewrite <- !app_assoc.
Qed.

Lemma parse_elements_encode (x : value) (xs : list value) :
  Forall reads_back (x :: xs) ->
  forallb safe_value (x :: xs) = true ->
  forall fuel rest,
    (fold_right (fun y n => S (nodes y) + n) O (x :: xs) <= fuel)%nat ->
    Parser.parse_elements fuel
      (sep_by [44] (map encode (x :: xs)) ++ 93 :: rest)
    = Some (x :: xs, rest).
Proof.
  revert x. induction xs as [| y ys IH]; intros x Hall Hsafe fuel rest Hfuel;
    apply Forall_cons in Hall as [Hx Hall];
    cbn [forallb] in Hsafe; apply andb_prop in Hsafe as [Hsx Hsafe];
    cbn [fold_right] in Hfuel;
    (destruct fuel as [| fuel]; [lia |]);
    cbn [map]; rewrite sep_by_cons_app; cbn [Parser.parse_elements].
  - rewrite (Hx Hsx) by lia. cbn [mbind option_bind].
    now rewrite StreamFacts.skip_ws_no_space by reflexivity.
  - rewrite (Hx Hsx) by lia. cbn [mbind option_bind app].
    rewrite StreamFacts.skip_ws_no_space by reflexivity.
    change (map encode (y :: ys)) with (map encode (y :: ys)).
    rewrite <- (map_cons encode y ys).
    rewrite (IH y Hall Hsafe) by (cbn [fold_right]; lia).
    reflexivity.
Qed.

Lemma parse_members_encode (m : string * value) (ms : list (string * value)) :
  Forall (fun m => reads_back (snd m)) (m :: ms) ->
  forallb (fun '(k, x) => is_safe k && safe_value x) (m :: ms) = true ->
  forall fuel rest,
    (fold_right (fun '(_, y) n => S (nodes y) + n) O (m :: ms) <= fuel)%nat ->
    Parser.parse_members fuel
      (sep_by [44] (map member_text (m :: ms)) ++ 125 :: rest)
    = Some (m :: ms, rest).
Proof.
  revert m. induction ms as [| m' ms IH]; intros [k x] Hall Hsafe fuel rest Hfuel;
    apply Forall_cons in Hall as [Hx Hall]; cbn [snd] in Hx;
    cbn [forallb] in Hsafe; apply andb_prop in Hsafe as [Hk Hsafe];
    apply andb_prop in Hk as [Hk Hsx];
    cbn [fold_right] in Hfuel;
    (destruct fuel as [| fuel]; [lia |]);
    cbn [map]; rewrite sep_by_cons_app; unfold member_text at 1;
    rewrite (quote_safe k Hk); cbn [app]; rewrite <- !app_assoc; cbn [app];
    cbn [Parser.parse_members];
    rewrite StreamFacts.skip_ws_no_space by reflexivity;
    rewrite StreamFacts.string_body_plain by (now apply safe_all_plain);
    cbn [mbind option_bind];
    rewrite StreamFacts.skip_ws_no_space by reflexivity;
    rewrite (Hx Hsx) by lia; cbn [mbind option_bind];
    rewrite StreamFacts.skip_ws_no_space by reflexivity;
    rewrite (StreamFacts.unquote_plain k (is_safe_plain k Hk)).
  - reflexivity.
  - rewrite <- (map_cons member_text m' ms).
    rewrite (IH m' Hall Hsafe) by (destruct m'; cbn [fold_right] in *; lia).
    reflexivity.
Qed.

(** The parser reads the text of a safe value back as the value. *)
Lemma parse_value_encode v : reads_back v.
Proof.
  induction v as [| b | lit | s | vs IH | ms IH]
    using ReflectFacts.value_rect_nested;
    intros Hsafe fuel rest Hfuel; (destruct fuel as [| fuel]; [cbn in Hfuel; lia |]).
  - reflexivity.
  - destruct b; reflexivity.
  - discriminate.
  - cbn [safe_value] in Hsafe. cbn [encode]. rewrite (quote_safe s Hsafe).
    cbn [app]. rewrite <- app_assoc. cbn [app].
    rewrite StreamFacts.parse_value_plain by (now apply safe_all_plain).
    now rewrite (StreamFacts.unquote_plain s (is_safe_plain s Hsafe)).
  - cbn [safe_value] in Hsafe. cbn [nodes] in Hfuel.
    destruct vs as [| x xs]; [reflexivity |].
    cbn [encode app]. rewrite <- app_assoc. cbn [app].
    cbn [Parser.parse_value].
    rewrite StreamFacts.skip_ws_no_space by reflexivity.
    change (91 =? 123) with false. change (91 =? 91) with true. cbv iota.
    assert (Hhead : exists c r,
               sep_by [44] (map encode (x :: xs)) ++ 93 :: rest = c :: r
               /\ Scanner.isSpace c = false /\ (c =? 93) = false).
    { cbn [forallb] in Hsafe. apply andb_prop in Hsafe as [Hsx _].
      destruct (encode_head x Hsx) as (c & r & Hhead & Hc & H93 & _).
      cbn [map]. rewrite sep_by_cons_app, Hhead. cbn [app]. eauto. }
    destruct Hhead as (c & r & Hhead & Hc & H93). rewrite Hhead.
    rewrite StreamFacts.skip_ws_no_space by exact Hc. rewrite H93.
    rewrite <- Hhead.
    rewrite (parse_elements_encode x xs IH Hsafe) by lia.
    reflexivity.
  - cbn [safe_value] in Hsafe. cbn [nodes] in Hfuel.
    destruct ms as [| [k x] ms]; [reflexivity |].
    cbn [encode].
    change (map (fun '(k0, x0) => quote k0 ++ [58] ++ encode x0) ((k, x) :: ms))
      with (map member_text ((k, x) :: ms)).
    cbn [app]. rewrite <- app_assoc. cbn [app].
    cbn [Parser.parse_value].
    rewrite StreamFacts.skip_ws_no_space by reflexivity.
    change (123 =? 123) with true. cbv iota.
    pose proof Hsafe as Hk. cbn [forallb] in Hk.
    apply andb_prop in Hk as [Hk _]. apply andb_prop in Hk as [Hk _].
    assert (Hhead : exists r, sep_by [44] (map member_text ((k, x) :: ms))
                              ++ 125 :: rest = 34 :: r).
    { cbn [map]. rewrite sep_by_cons_app. unfold member_text at 1.
      rewrite (quote_safe k Hk). cbn [app]. eauto. }
    destruct Hhead as [r Hhead]. rewrite Hhead.
    rewrite StreamFacts.skip_ws_no_space by reflexivity.
    change (34 =? 125) with false. cbv iota. rewrite <- Hhead.
    rewrite (parse_members_encode (k, x) ms IH Hsafe) by lia.
    reflexivity.
Qed.

End EncodeFacts.

(** The scanner on the text of a safe value. *)

Module ScanFacts.
Import Json Scanner.

(** The steps of the scanner on the punctuation of a text. *)
Lemma run_open (s : t) (c : Z) (first : step_fn) (p : parse_state) (op : opcode) :
  before_value s ->
  Z.of_nat (length (parseState s)) + 1 <= maxNestingDepth ->
  (c = 91 /\ first = stateBeginValueOrEmpty /\ p = parseArrayValue
   /\ op = scanBeginArray)
  \/ (c = 123 /\ first = stateBeginStringOrEmpty /\ p = parseObjectKey
      /\ op = scanBeginObject) ->
  run (count s) c
  = (with_stack (p :: parseState s) (with_step first (count s)), op).
Proof.
  intros [_ Hstep] Hdepth Hc. destruct s as [st top ps e n].
  cbn [step parseState] in *.
  destruct Hc as [(-> & -> & -> & ->) | (-> & -> & -> & ->)];
    destruct Hstep as [-> | ->];
    cbv -[Z.leb Z.of_nat length maxNestingDepth Z.add];
    match goal with
    | |- context [?a <=? ?b] => destruct (Z.leb_spec a b) as [_ | Hlt]
    end;
    try reflexivity; cbn [length] in Hlt; lia.
Qed.

(** A string literal of safe bytes, where a value or the name of a member
    may begin. *)
Lemma scan_string (s : t) (k : string) (rest : list Z) :
  is_safe k = true ->
  err s = None ->
  In (step s) [stateBeginValue; stateBeginValueOrEmpty; stateBeginString;
               stateBeginStringOrEmpty] ->
  exists s',
    parseState s' = parseState s /\ err s' = None /\ step s' = stateEndValue
    /\ checkValid_from s (quote k ++ rest) = checkValid_from s' rest.
Proof.
  intros Hsafe Herr Hstep. rewrite (EncodeFacts.quote_safe k Hsafe).
  cbn [app]. rewrite <- app_assoc. cbn [app].
  assert (Hin : exists s1,
             step s1 = stateInString /\ parseState s1 = parseState s
             /\ err s1 = None
             /\ forall tail, checkValid_from s (34 :: tail) = checkValid_from s1 tail).
  { known_state s. cbn [In] in Hstep.
    destruct Hstep as [<- | [<- | [<- | [<- | []]]]];
      (eexists; split; [| split; [| split]];
       [| | | intros tail; check_byte StreamFacts.checkValid_from_continue;
              reflexivity]; reflexivity). }
  destruct Hin as (s1 & Hstep1 & Hstack1 & Herr1 & ->).
  destruct (StreamFacts.checkValid_from_plain (Bytes.codes k) s1 (34 :: rest)
              Hstep1 (EncodeFacts.safe_all_plain _ Hsafe))
    as (s2 & Hstep2 & Hstack2 & Herr2 & _ & _ & ->).
  rewrite <- Hstack1, <- Hstack2. rewrite Herr1 in Herr2. clear - Hstep2 Herr2.
  known_state s2.
  eexists. split; [| split; [| split]];
    [| | | check_byte StreamFacts.checkValid_from_continue; reflexivity];
    reflexivity.
Qed.

(** The byte that closes an array or an object whose last value is read. *)
Lemma scan_close (s : t) (c : Z) (p : parse_state) (ps : list parse_state)
    (rest : list Z) :
  step s = stateEndValue -> err s = None -> parseState s = p :: ps ->
  (c = 93 /\ p = parseArrayValue) \/ (c = 125 /\ p = parseObjectValue) ->
  exists s',
    parseState s' = ps /\ err s' = None
    /\ (step s' = stateEndValue
        \/ (ps = [] /\ step s' = stateEndTop /\ endTop s' = true))
    /\ checkValid_from s (c :: rest) = checkValid_from s' rest.
Proof.
  intros Hstep Herr Hstack Hc. known_state s.
  destruct Hc as [[-> ->] | [-> ->]]; destruct ps as [| p' ps];
    (eexists; split; [| split; [| split]];
     [| | | check_byte StreamFacts.checkValid_from_continue; reflexivity];
     [reflexivity | reflexivity | auto]).
Qed.

(** The comma between two elements of an array. *)
Lemma scan_comma_array (s : t) (ps : list parse_state) (rest : list Z) :
  step s = stateEndValue -> err s = None -> parseState s = parseArrayValue :: ps ->
  exists s',
    parseState s' = parseArrayValue :: ps /\ before_value s'
    /\ checkValid_from s (44 :: rest) = checkValid_from s' rest.
Proof.
  intros Hstep Herr Hstack. known_state s.
  eexists. split; [| split];
    [| | check_byte StreamFacts.checkValid_from_continue; reflexivity];
    [reflexivity | split; [reflexivity | left; reflexivity]].
Qed.

(** The comma between two members of an object. *)
Lemma scan_comma_object (s : t) (ps : list parse_state) (rest : list Z) :
  step s = stateEndValue -> err s = None -> parseState s = parseObjectValue :: ps ->
  exists s',
    parseState s' = parseObjectKey :: ps /\ err s' = None
    /\ step s' = stateBeginString
    /\ checkValid_from s (44 :: rest) = checkValid_from s' rest.
Proof.
  intros Hstep Herr Hstack. known_state s.
  eexists. split; [| split; [| split]];
    [| | | check_byte StreamFacts.checkValid_from_continue; reflexivity];
    reflexivity.
Qed.

(** The colon after the name of a member. *)
Lemma scan_colon (s : t) (ps : list parse_state) (rest : list Z) :
  step s = stateEndValue -> err s = None -> parseState s = parseObjectKey :: ps ->
  exists s',
    parseState s' = parseObjectValue :: ps /\ before_value s'
    /\ checkValid_from s (58 :: rest) = checkValid_from s' rest.
Proof.
  intros Hstep Herr Hstack. known_state s.
  eexists. split; [| split];
    [| | check_byte StreamFacts.checkValid_from_continue; reflexivity];
    [reflexivity | split; [reflexivity | left; reflexivity]].
Qed.

(** After a value inside an array or an object the scanner is at the end
    of a value. *)
Lemma after_value_inside (s s' : t) (p : parse_state) (ps : list parse_state) :
  parseState s = p :: ps -> after_value s s' ->
  step s' = stateEndValue /\ err s' = None /\ parseState s' = p :: ps.
Proof.
  intros Hstack (Hsame & Herr & [Hstep | [Hnil _]]).
  - now rewrite Hsame.
  - rewrite Hstack in Hnil. discriminate.
Qed.

(** The elements of an array, from the first to the closing bracket. *)
Lemma scan_elements (xs : list value) :
  forall (x : value) (s : t) (ps : list parse_state) (rest : list Z),
    Forall scans (x :: xs) ->
    forallb safe_value (x :: xs) = true ->
    Forall (fun y => Z.of_nat (length (parseArrayValue :: ps)) + depth y
                     <= maxNestingDepth) (x :: xs) ->
    before_value s -> parseState s = parseArrayValue :: ps ->
    exists s',
      parseState s' = ps /\ err s' = None
      /\ (step s' = stateEndValue
        \/ (ps = [] /\ step s' = stateEndTop /\ endTop s' = true))
      /\ checkValid_from s (sep_by [44] (map encode (x :: xs)) ++ 93 :: rest)
         = checkValid_from s' rest.
Proof.
  induction xs as [| y ys IH]; intros x s ps rest Hall Hsafe Hdepth Hbefore Hstack;
    apply Forall_cons in Hall as [Hx Hall];
    apply Forall_cons in Hdepth as [Hdx Hdepth];
    cbn [forallb] in Hsafe; apply andb_prop in Hsafe as [Hsx Hsafe];
    cbn [map]; rewrite EncodeFacts.sep_by_cons_app;
    match goal with
    | |- context [checkValid_from s (encode x ++ ?tail)] =>
      destruct (Hx Hsx s tail Hbefore) as (s1 & Hafter & ->);
        [now rewrite Hstack |]
    end;
    destruct (after_value_inside s s1 _ _ Hstack Hafter) as (Hstep1 & Herr1 & Hstack1).
  - destruct (scan_close s1 93 parseArrayValue ps rest Hstep1 Herr1 Hstack1)
      as (s2 & H1 & H2 & H3 & ->); [now left |].
    exists s2. auto.
  - cbn [map app].
    destruct (scan_comma_array s1 ps
                (sep_by [44] (encode y :: map encode ys) ++ 93 :: rest)
                Hstep1 Herr1 Hstack1) as (s2 & Hstack2 & Hbefore2 & ->).
    apply (IH y s2 ps rest Hall Hsafe Hdepth Hbefore2 Hstack2).
Qed.

(** The members of an object, from the first name to the closing brace. *)
Lemma scan_members (ms : list (string * value)) :
  forall (m : string * value) (s : t) (ps : list parse_state) (rest : list Z),
    Forall (fun m => scans (snd m)) (m :: ms) ->
    forallb (fun '(k, x) => is_safe k && safe_value x) (m :: ms) = true ->
    Forall (fun m => Z.of_nat (length (parseObjectValue :: ps)) + depth (snd m)
                     <= maxNestingDepth) (m :: ms) ->
    err s = None ->
    In (step s) [stateBeginValue; stateBeginValueOrEmpty; stateBeginString;
                 stateBeginStringOrEmpty] ->
    parseState s = parseObjectKey :: ps ->
    exists s',
      parseState s' = ps /\ err s' = None
      /\ (step s' = stateEndValue
        \/ (ps = [] /\ step s' = stateEndTop /\ endTop s' = true))
      /\ checkValid_from s (sep_by [44] (map member_text (m :: ms)) ++ 125 :: rest)
         = checkValid_from s' rest.
Proof.
  induction ms as [| m' ms IH];
    intros [k x] s ps rest Hall Hsafe Hdepth Herr Hstep Hstack;
    apply Forall_cons in Hall as [Hx Hall]; cbn [snd] in Hx;
    apply Forall_cons in Hdepth as [Hdx Hdepth]; cbn [snd] in Hdx;
    cbn [forallb] in Hsafe; apply andb_prop in Hsafe as [Hk Hsafe];
    apply andb_prop in Hk as [Hk Hsx];
    cbn [map]; rewrite EncodeFacts.sep_by_cons_app; unfold member_text at 1;
    rewrite <- !app_assoc;
    match goal with
    | |- context [checkValid_from s (quote k ++ ?tail)] =>
      destruct (scan_string s k tail Hk Herr Hstep)
        as (s1 & Hstack1 & Herr1 & Hstep1 & ->)
    end;
    rewrite Hstack in Hstack1; cbn [app];
    match goal with
    | |- context [checkValid_from ?st (58 :: ?tail)] =>
      destruct (scan_colon st ps tail Hstep1 Herr1 Hstack1)
        as (s2 & Hstack2 & Hbefore2 & ->)
    end;
    match goal with
    | |- context [checkValid_from ?st (encode x ++ ?tail)] =>
      destruct (Hx Hsx st tail Hbefore2) as (s3 & Hafter & ->);
        [now rewrite Hstack2 |]
    end;
    destruct (after_value_inside s2 s3 _ _ Hstack2 Hafter)
      as (Hstep3 & Herr3 & Hstack3).
  - destruct (scan_close s3 125 parseObjectValue ps rest Hstep3 Herr3 Hstack3)
      as (s4 & H1 & H2 & H3 & ->); [now right |].
    exists s4. auto.
  - cbn [map app].
    destruct (scan_comma_object s3 ps
                (sep_by [44] (member_text m' :: map member_text ms) ++ 125 :: rest)
                Hstep3 Herr3 Hstack3) as (s4 & Hstack4 & Herr4 & Hstep4 & ->).
    apply (IH m' s4 ps rest Hall Hsafe Hdepth Herr4); [| exact Hstack4].
    rewrite Hstep4. cbn [In]. auto.
Qed.

Lemma elements_depth_nonneg (vs : list value) :
  0 <= fold_right (fun x d => Z.max (depth x) d) 0 vs.
Proof. induction vs as [| x xs IH]; cbn [fold_right]; lia. Qed.

Lemma members_depth_nonneg (ms : list (string * value)) :
  0 <= fold_right (fun '(_, x) d => Z.max (depth x) d) 0 ms.
Proof. induction ms as [| [k x] ms IH]; cbn [fold_right]; lia. Qed.

Lemma depth_elements (vs : list value) (bound : Z) :
  1 + fold_right (fun x d => Z.max (depth x) d) 0 vs <= bound ->
  Forall (fun y => 1 + depth y <= bound) vs.
Proof.
  induction vs as [| x xs IH]; cbn [fold_right]; intros H; constructor;
    [lia | apply IH; lia].
Qed.

Lemma depth_members (ms : list (string * value)) (bound : Z) :
  1 + fold_right (fun '(_, x) d => Z.max (depth x) d) 0 ms <= bound ->
  Forall (fun m => 1 + depth (snd m) <= bound) ms.
Proof.
  induction ms as [| [k x] ms IH]; cbn [fold_right]; intros H; constructor;
    [cbn [snd]; lia | apply IH; lia].
Qed.

(** The scanner reads the text of a safe value. *)
Lemma scan_encode v : scans v.
Proof.
  induction v as [| b | lit | s | vs IH | ms IH]
    using ReflectFacts.value_rect_nested;
    intros Hsafe s0 rest Hbefore Hdepth.
  - destruct Hbefore as [Herr Hstep]. known_state s0.
    destruct Hstep as [-> | ->];
      (eexists; split;
       [| cbn [encode]; change (Bytes.codes "null") with [110; 117; 108; 108];
          cbn [app]; do 4 (check_byte StreamFacts.checkValid_from_continue);
          reflexivity];
       repeat split; left; reflexivity).
  - destruct Hbefore as [Herr Hstep]. known_state s0.
    destruct b; destruct Hstep as [-> | ->];
      (eexists; split;
       [| cbn [encode];
          change (Bytes.codes "true") with [116; 114; 117; 101];
          change (Bytes.codes "false") with [102; 97; 108; 115; 101];
          cbn [app];
          repeat (check_byte StreamFacts.checkValid_from_continue);
          reflexivity];
       repeat split; left; reflexivity).
  - discriminate.
  - destruct Hbefore as [Herr Hstep]. cbn [safe_value] in Hsafe. cbn [encode].
    destruct (scan_string s0 s rest Hsafe Herr) as (s1 & H1 & H2 & H3 & ->).
    { cbn [In]. destruct Hstep as [-> | ->]; auto. }
    exists s1. repeat split; auto.
  - cbn [safe_value] in Hsafe. cbn [depth] in Hdepth.
    pose proof (elements_depth_nonneg vs) as Hnonneg.
    pose proof (run_open s0 91 _ _ _ Hbefore ltac:(lia)
                  (or_introl (conj eq_refl (conj eq_refl (conj eq_refl eq_refl)))))
      as Hopen.
    cbn [encode app]. rewrite <- app_assoc. cbn [app].
    rewrite (StreamFacts.checkValid_from_continue _ _ _ _ _ Hopen I).
    destruct Hbefore as [Herr0 _].
    destruct vs as [| x xs].
    + cbn [map sep_by app].
      assert (Hclose : exists s1,
                 parseState s1 = parseState s0 /\ err s1 = None
                 /\ (step s1 = stateEndValue
                     \/ (parseState s0 = [] /\ step s1 = stateEndTop
                         /\ endTop s1 = true))
                 /\ forall s,
                     s = with_stack (parseArrayValue :: parseState s0)
                           (with_step stateBeginValueOrEmpty (count s0)) ->
                     checkValid_from s (93 :: rest) = checkValid_from s1 rest).
      { known_state s0. destruct ps as [| p ps];
          (eexists; split; [| split; [| split]];
           [| | | intros s ->; cbn [with_stack with_step count step endTop
                                    parseState err bytes];
                  check_byte StreamFacts.checkValid_from_continue; reflexivity];
           [reflexivity | reflexivity | auto]). }
      destruct Hclose as (s1 & H1 & H2 & H3 & H4).
      exists s1. split; [repeat split; auto |]. now apply H4.
    + destruct (scan_elements xs x
                  (with_stack (parseArrayValue :: parseState s0)
                     (with_step stateBeginValueOrEmpty (count s0)))
                  (parseState s0) rest IH Hsafe)
        as (s1 & H1 & H2 & H3 & ->).
      * eapply Forall_impl;
          [apply (depth_elements
                    (x :: xs)
                    (maxNestingDepth - Z.of_nat (length (parseState s0))));
           lia |].
        intros y Hy. cbn beta in *. cbn [length]. lia.
      * split; [exact Herr0 | right; reflexivity].
      * reflexivity.
      * exists s1. repeat split; auto.
  - cbn [safe_value] in Hsafe. cbn [depth] in Hdepth.
    pose proof (members_depth_nonneg ms) as Hnonneg.
    pose proof (run_open s0 123 _ _ _ Hbefore ltac:(lia)
                  (or_intror (conj eq_refl (conj eq_refl (conj eq_refl eq_refl)))))
      as Hopen.
    cbn [encode].
    change (map (fun '(k, x) => quote k ++ [58] ++ encode x) ms)
      with (map member_text ms).
    cbn [app]. rewrite <- app_assoc. cbn [app].
    rewrite (StreamFacts.checkValid_from_continue _ _ _ _ _ Hopen I).
    destruct Hbefore as [Herr0 _].
    destruct ms as [| m ms].
    + cbn [map sep_by app].
      assert (Hclose : exists s1,
                 parseState s1 = parseState s0 /\ err s1 = None
                 /\ (step s1 = stateEndValue
                     \/ (parseState s0 = [] /\ step s1 = stateEndTop
                         /\ endTop s1 = true))
                 /\ forall s,
                     s = with_stack (parseObjectKey :: parseState s0)
                           (with_step stateBeginStringOrEmpty (count s0)) ->
                     checkValid_from s (125 :: rest) = checkValid_from s1 rest).
      { known_state s0. destruct ps as [| p ps];
          (eexists; split; [| split; [| split]];
           [| | | intros s ->; cbn [with_stack with_step count step endTop
                                    parseState err bytes];
                  check_byte StreamFacts.checkValid_from_continue; reflexivity];
           [reflexivity | reflexivity | auto]). }
      destruct Hclose as (s1 & H1 & H2 & H3 & H4).
      exists s1. split; [repeat split; auto |]. now apply H4.
    + destruct (scan_members ms m
                  (with_stack (parseObjectKey :: parseState s0)
                     (with_step stateBeginStringOrEmpty (count s0)))
                  (parseState s0) rest IH Hsafe)
        as (s1 & H1 & H2 & H3 & ->).
      * eapply Forall_impl;
          [apply (depth_members
                    (m :: ms)
                    (maxNestingDepth - Z.of_nat (length (parseState s0))));
           lia |].
        intros y Hy. cbn beta in *. cbn [length]. lia.
      * exact Herr0.
      * cbn [with_stack with_step step In]. auto.
      * reflexivity.
      * exists s1. repeat split; auto.
Qed.

(** The text of a safe value is valid. *)
Lemma checkValid_encode v :
  safe_value v = true -> depth v <= maxNestingDepth ->
  checkValid (encode v) = None.
Proof.
  intros Hsafe Hdepth. unfold checkValid.
  destruct (scan_encode v Hsafe reset [])
    as (s' & (Hstack & Herr & Hstep) & Heq).
  - split; [reflexivity | left; reflexivity].
  - cbn [reset parseState length Z.of_nat]. lia.
  - rewrite app_nil_r in Heq. rewrite Heq. cbn [checkValid_from].
    cbn [reset parseState] in Hstack, Hstep. known_state s'.
    destruct Hstep as [-> | (_ & -> & ->)]; [destruct top |]; reflexivity.
Qed.

End ScanFacts.

(** The two together, on the bytes [Marshal] writes. *)

Module ReadBack.
Import Json.

(** The text of a safe value has a byte for each of its values, and one
    more for each element and member. *)
Lemma nodes_le_length v :
  safe_value v = true -> (nodes v <= length (encode v))%nat.
Proof.
  induction v as [| b | lit | s | vs IH | ms IH]
    using ReflectFacts.value_rect_nested; cbn [safe_value encode];
    intros Hsafe.
  - cbn. lia.
  - destruct b; cbn; lia.
  - discriminate.
  - unfold quote. rewrite !length_app. cbn [length nodes]. lia.
  - rewrite !length_app. cbn [length].
    change (nodes (Array vs))
      with (S (fold_right (fun x n => S (nodes x) + n) 0 vs))%nat.
    assert (H : (fold_right (fun x n => S (nodes x) + n) 0 vs
                 <= length (sep_by [44%Z] (map encode vs)) + 1)%nat);
      [| lia].
    destruct vs as [| x xs]; [cbn; lia |].
    cbn [map sep_by]. rewrite length_app.
    apply Forall_cons in IH as [Hx IH]. cbn [forallb] in Hsafe.
    apply andb_prop in Hsafe as [Hsx Hsafe]. specialize (Hx Hsx).
    cbn [fold_right].
    assert (Hrest : (fold_right (fun x n => S (nodes x) + n) 0 xs
                     <= length (flat_map (fun y => [44%Z] ++ y) (map encode xs)))%nat);
      [| lia].
    clear Hx Hsx x. induction xs as [| y ys IHys]; cbn [fold_right map flat_map length];
      [lia |].
    apply Forall_cons in IH as [Hy IH]. cbn [forallb] in Hsafe.
    apply andb_prop in Hsafe as [Hsy Hsafe]. specialize (Hy Hsy).
    rewrite !length_app. cbn [length]. specialize (IHys IH Hsafe). lia.
  - rewrite !length_app. cbn [length].
    change (map (fun '(k, x) => quote k ++ [58] ++ encode x) ms)
      with (map member_text ms).
    change (nodes (Object ms))
      with (S (fold_right (fun '(_, x) n => S (nodes x) + n) 0 ms))%nat.
    assert (H : (fold_right (fun '(_, x) n => S (nodes x) + n) 0 ms
                 <= length (sep_by [44%Z] (map member_text ms)) + 1)%nat);
      [| lia].
    assert (Hmember : forall k x, (nodes x <= length (encode x))%nat ->
                                  (S (nodes x) <= length (member_text (k, x)))%nat).
    { intros k x Hx. unfold member_text, quote. rewrite !length_app.
      cbn [length]. lia. }
    destruct ms as [| [k x] ms]; [cbn; lia |].
    cbn [map sep_by]. rewrite length_app.
    apply Forall_cons in IH as [Hx IH]. cbn [snd] in Hx. cbn [forallb] in Hsafe.
    apply andb_prop in Hsafe as [Hsx Hsafe]. apply andb_prop in Hsx as [_ Hsx].
    pose proof (Hmember k x (Hx Hsx)) as Hkx.
    cbn [fold_right].
    assert (Hrest : (fold_right (fun '(_, x) n => S (nodes x) + n) 0 ms
                     <= length (flat_map (fun y => [44%Z] ++ y)
                                         (map member_text ms)))%nat);
      [| lia].
    clear Hx Hsx Hkx k x.
    induction ms as [| [k y] ms IHms]; cbn [fold_right map flat_map length];
      [lia |].
    apply Forall_cons in IH as [Hy IH]. cbn [snd] in Hy. cbn [forallb] in Hsafe.
    apply andb_prop in Hsafe as [Hsy Hsafe]. apply andb_prop in Hsy as [_ Hsy].
    pose proof (Hmember k y (Hy Hsy)) as Hky.
    rewrite !length_app. cbn [length]. specialize (IHms IH Hsafe). lia.
Qed.

(** [Unmarshal] reads the text [Marshal] writes for a safe value back as
    the value. *)
Lemma parse_the_encoding v :
  safe_value v = true -> Parser.parse (encode v) = Some v.
Proof.
  intros Hsafe. unfold Parser.parse.
  pose proof (EncodeFacts.parse_value_encode v Hsafe (S (length (encode v))) [])
    as H.
  rewrite app_nil_r in H. rewrite H; [reflexivity |].
  pose proof (nodes_le_length v Hsafe). lia.
Qed.

Lemma Forall_sep_by (P : Z -> Prop) (sep : list Z) (items : list (list Z)) :
  Forall P sep -> Forall (Forall P) items -> Forall P (sep_by sep items).
Proof.
  intros Hsep Hitems. destruct Hitems as [| x xs Hx Hxs]; cbn [sep_by];
    [constructor |].
  apply Forall_app. split; [exact Hx |].
  induction Hxs as [| y ys Hy _ IH]; cbn [flat_map]; [constructor |].
  rewrite !Forall_app. auto.
Qed.

Lemma safe_is_byte p : forallb is_safe_byte p = true -> Forall Bytes.is_byte p.
Proof.
  induction p as [| c p IH]; cbn [forallb]; [constructor |].
  intros [Hc Hp]%andb_prop. constructor; [| auto].
  pose proof (StreamFacts.plain_ascii c (EncodeFacts.safe_plain c Hc)).
  unfold Bytes.is_byte. lia.
Qed.

(** The text of a safe value is made of bytes. *)
Lemma encode_is_byte v : safe_value v = true -> Forall Bytes.is_byte (encode v).
Proof.
  assert (Hlist : forall l, forallb (fun c => (0 <=? c) && (c <? 256)) l = true ->
                            Forall Bytes.is_byte l).
  { induction l as [| c l IHl]; cbn [forallb]; [constructor |].
    intros [Hc Hl]%andb_prop. constructor; [unfold Bytes.is_byte; lia | auto]. }
  induction v as [| b | lit | s | vs IH | ms IH]
    using ReflectFacts.value_rect_nested; cbn [safe_value encode]; intros Hsafe.
  - now apply Hlist.
  - destruct b; now apply Hlist.
  - discriminate.
  - rewrite (EncodeFacts.quote_safe s Hsafe).
    apply (Forall_app _ [34]). split; [now apply Hlist |].
    apply Forall_app. split; [now apply safe_is_byte | now apply Hlist].
  - rewrite !Forall_app. split; [now apply Hlist |]. split; [| now apply Hlist].
    apply Forall_sep_by; [now apply Hlist |].
    induction IH as [| x xs Hx _ IHxs]; cbn [map]; [constructor |].
    cbn [forallb] in Hsafe. apply andb_prop in Hsafe as [Hsx Hsafe].
    constructor; auto.
  - rewrite !Forall_app. split; [now apply Hlist |]. split; [| now apply Hlist].
    apply Forall_sep_by; [now apply Hlist |].
    induction IH as [| [k x] ms Hx _ IHms]; cbn [map]; [constructor |].
    cbn [forallb] in Hsafe. apply andb_prop in Hsafe as [Hsx Hsafe].
    apply andb_prop in Hsx as [Hk Hsx]. cbn [snd] in Hx.
    constructor; [| auto].
    rewrite (EncodeFacts.quote_safe k Hk).
    apply (Forall_app _ [34]). split; [now apply Hlist |].
    rewrite !Forall_app.
    repeat split; auto; first [now apply safe_is_byte | now apply Hlist].
Qed.

Lemma to_Z_of_Z (l : list Z) :
  Forall Bytes.is_byte l -> map Bytes.to_Z (map Bytes.of_Z l) = l.
Proof.
  induction 1 as [| z l Hz _ IH]; cbn [map]; [reflexivity |].
  rewrite IH, BytesFacts.to_of_Z. unfold Bytes.is_byte in Hz.
  now rewrite Z.mod_small by lia.
Qed.

(** The bytes [Marshal] writes for a safe value are one valid JSON text,
    and [Unmarshal] reads them back as the value. *)
Lemma marshal_reads_back v :
  safe_value v = true -> depth v <= Scanner.maxNestingDepth ->
  let text := map Bytes.to_Z (map Bytes.of_Z (encode v)) in
  Scanner.checkValid text = None /\ Parser.parse text = Some v.
Proof.
  intros Hsafe Hdepth. cbv zeta. rewrite (to_Z_of_Z _ (encode_is_byte v Hsafe)).
  split; [now apply ScanFacts.checkValid_encode | now apply parse_the_encoding].
Qed.

(** Base64 texts are safe. *)
Lemma enc6_safe v : 0 <= v < 64 -> is_safe_byte (Base64.enc6 v) = true.
Proof.
  intros Hv. rewrite <- (Z2Nat.id v) by lia.
  assert (Hn : (Z.to_nat v < 64)%nat) by lia.
  generalize dependent (Z.to_nat v). clear v Hv. intros n Hn.
  do 64 (destruct n as [|n]; [reflexivity|]). lia.
Qed.

Lemma sextet_safe val shift : is_safe_byte (Base64.sextet val shift) = true.
Proof.
  unfold Base64.sextet. apply enc6_safe. change 0x3F with (Z.ones 6).
  rewrite Z.land_ones by lia. apply Z.mod_pos_bound. lia.
Qed.

Lemma Encode_safe src : forallb is_safe_byte (Base64.Encode src) = true.
Proof.
  induction src as [| a | a b | a b c l IH] using Base64Inverse.list_ind3;
    cbn [Base64.Encode forallb]; rewrite ?sextet_safe, ?IH; reflexivity.
Qed.

Lemma EncodeToString_safe (bs : list byte) :
  is_safe (Base64.EncodeToString bs) = true.
Proof.
  unfold is_safe, Base64.EncodeToString.
  rewrite Base64Inverse.codes_of_codes by apply Base64Inverse.Encode_bytes.
  apply Encode_safe.
Qed.

End ReadBack.

(** ** The requests of the two operations, read back *)

Section RequestsReadBack.

Variable to_LowerCase : Z -> Z.

Import Json.

Lemma depth_array (vs : list value) (d : Z) :
  0 <= d -> Forall (fun x => depth x <= d) vs -> depth (Array vs) <= 1 + d.
Proof.
  intros Hd Hall. cbn [depth].
  induction Hall as [| x xs Hx _ IH]; cbn [fold_right]; lia.
Qed.

(** The envelope of a safe signer is a safe value. *)
Lemma envelope_safe (request signer : string) (sign : list byte) :
  is_safe request = true -> is_safe signer = true ->
  let v := Object [("request", String_ request);
                   ("signature", String_ (Base64.EncodeToString sign));
                   ("signer", String_ signer)] in
  safe_value v = true /\ depth v <= Scanner.maxNestingDepth.
Proof.
  intros Hrequest Hsigner. cbv zeta. split; [| vm_compute; discriminate].
  cbn [safe_value forallb]. rewrite Hrequest, Hsigner.
  now rewrite ReadBack.EncodeToString_safe.
Qed.

(** The license message of a safe payload and a safe provider is a safe
    value. *)
Lemma license_message_safe (wp : Proxy) (contentID body : string) :
  is_safe body = true -> is_safe (Provider wp) = true ->
  let v := LicenseMessage.to_json (licenseMessage wp contentID body) in
  safe_value v = true /\ depth v <= Scanner.maxNestingDepth.
Proof.
  intros Hbody Hprovider. cbv zeta. split; [| vm_compute; discriminate].
  cbn [licenseMessage LicenseMessage.to_json Marshal.of_slice map
       ContentKeySpec.to_json safe_value forallb
       LicenseMessage.Payload LicenseMessage.ContentID LicenseMessage.Provider
       LicenseMessage.AllowedTrackTypes LicenseMessage.ContentKeySpecs
       ContentKeySpec.KeyID ContentKeySpec.Key ContentKeySpec.IV
       ContentKeySpec.TrackType].
  rewrite Hbody, Hprovider, !ReadBack.EncodeToString_safe. reflexivity.
Qed.

(** X18.  The request of [GetLicense] can be read: for a payload and a
    provider that need no escape, the body of the request is one valid JSON
    text that reads back as the envelope, and the bytes its [request]
    decodes to are one valid JSON text that reads back as the license
    message. *)
Theorem license_request_reads_back (wp : Proxy) (contentID body : string)
    (msg : gmap string GoVal) :
  is_safe body = true -> is_safe (Provider wp) = true ->
  buildLicenseMessage wp contentID body = Ok msg ->
  exists request signature,
    let payload := map Bytes.to_Z (Body (licenseRequest to_LowerCase wp msg)) in
    let inner := map Bytes.to_Z (fst (Base64.DecodeString request)) in
    Scanner.checkValid payload = None
    /\ Parser.parse payload
       = Some (Object [("request", String_ request);
                       ("signature", String_ signature);
                       ("signer", String_ (Provider wp))])
    /\ Scanner.checkValid inner = None
    /\ Parser.parse inner
       = Some (LicenseMessage.to_json (licenseMessage wp contentID body)).
Proof.
  intros Hbody Hprovider Hmsg. unfold buildLicenseMessage in Hmsg.
  cbv zeta in Hmsg.
  destruct (generateSignature wp _) as [sign | e];
    cbn [mbind result_bind mret result_ret] in Hmsg; [| discriminate].
  injection Hmsg as <-.
  set (jsonMessage := json_Marshal_LicenseMessage
                        (licenseMessage wp contentID body)).
  exists (Base64.EncodeToString jsonMessage), (Base64.EncodeToString sign).
  cbv zeta. unfold licenseRequest, Header_Add, NewRequest. cbn [Body].
  unfold json_Marshal_map. rewrite envelope_json.
  destruct (envelope_safe (Base64.EncodeToString jsonMessage) (Provider wp) sign
              (ReadBack.EncodeToString_safe jsonMessage) Hprovider)
    as [Hsafe Hdepth].
  destruct (ReadBack.marshal_reads_back _ Hsafe Hdepth) as [Hvalid Hparse].
  split; [exact Hvalid |]. split; [exact Hparse |].
  rewrite Base64Inverse.DecodeString_EncodeToString. cbn [fst].
  unfold jsonMessage, json_Marshal_LicenseMessage.
  destruct (license_message_safe wp contentID body Hbody Hprovider)
    as [Hsafe' Hdepth'].
  exact (ReadBack.marshal_reads_back _ Hsafe' Hdepth').
Qed.

(** The tracks of a policy message, as a value. *)
Lemma tracks_value (tracks : list string) :
  Marshal.of_val
    (VSlice (fold_left (fun ts track => append ts (VMapString {[ "type" := track ]}))
                       tracks None))
  = match tracks with
    | [] => Null
    | _ :: _ => Array (map (fun track => Object [("type", String_ track)]) tracks)
    end.
Proof.
  destruct tracks as [| t ts]; [reflexivity |].
  cbn [fold_left]. unfold append at 2. cbn [elems default app].
  rewrite fold_append_tracks. cbn [app]. cbn [Marshal.of_val]. cbn [map].
  rewrite of_val_track, map_map, (map_ext _ _ of_val_track). reflexivity.
Qed.

Lemma safe_strings (l : list string) :
  forallb is_safe l = true -> forallb safe_value (map String_ l) = true.
Proof.
  induction l as [| s l IH]; cbn [forallb map safe_value]; [reflexivity |].
  intros [Hs Hl]%andb_prop. now rewrite Hs, IH.
Qed.

Lemma safe_tracks (l : list string) :
  forallb is_safe l = true ->
  forallb safe_value (map (fun track => Object [("type", String_ track)]) l)
  = true.
Proof.
  induction l as [| s l IH]; cbn [forallb map safe_value]; [reflexivity |].
  intros [Hs Hl]%andb_prop. rewrite Hs, IH by exact Hl. reflexivity.
Qed.

(** The policy message of safe names is a safe value. *)
Lemma policy_message_safe (wp : Proxy) (contentID : string) (policy : Policy.t) :
  forallb is_safe (elems (Policy.Tracks policy)) = true ->
  forallb is_safe (elems (Policy.DRMTypes policy)) = true ->
  is_safe (Policy.Policy policy) = true ->
  let v := Marshal.of_map (Some (setPolicy wp contentID policy)) in
  safe_value v = true /\ depth v <= Scanner.maxNestingDepth.
Proof.
  intros Htracks Htypes Hname. cbv zeta. unfold Marshal.of_map, setPolicy.
  cbv zeta. rewrite sorted_members_policy. cbn [map]. rewrite tracks_value.
  assert (Hdrm : safe_value (Marshal.of_val (VStrings (Policy.DRMTypes policy)))
                 = true
                 /\ depth (Marshal.of_val (VStrings (Policy.DRMTypes policy))) <= 1).
  { destruct (Policy.DRMTypes policy) as [types |];
      cbn [Marshal.of_val Marshal.of_slice elems default] in *;
      [| split; [reflexivity | cbn; lia]].
    split; [cbn [safe_value]; now apply safe_strings |].
    apply (depth_array _ 0); [lia |].
    clear. induction types; constructor; [cbn; lia | assumption]. }
  destruct Hdrm as [Hdrm Hdrm_depth].
  assert (Htr : forall v,
             v = match elems (Policy.Tracks policy) with
                 | [] => Null
                 | _ :: _ =>
                   Array (map (fun track => Object [("type", String_ track)])
                              (elems (Policy.Tracks policy)))
                 end ->
             safe_value v = true /\ depth v <= 2).
  { intros v ->. destruct (elems (Policy.Tracks policy)) as [| t ts] eqn:E;
      [split; [reflexivity | cbn; lia] |].
    split; [cbn [safe_value]; now apply safe_tracks |].
    apply (depth_array _ 1); [lia |].
    clear. induction (t :: ts); constructor; [cbn; lia | assumption]. }
  destruct (Htr _ eq_refl) as [Htr_safe Htr_depth].
  split.
  - cbn [safe_value forallb Marshal.of_val].
    rewrite ReadBack.EncodeToString_safe, Hname, Htr_safe.
    cbn [Marshal.of_val] in Hdrm. rewrite Hdrm. reflexivity.
  - cbn [depth fold_right Marshal.of_val]. cbn [Marshal.of_val] in Hdrm_depth.
    unfold Scanner.maxNestingDepth. cbn [depth]. lia.
Qed.

(** X19.  The request of [GetContentKey] can be read: for tracks, DRM types,
    a policy name and a provider that need no escape, the body of the
    request is one valid JSON text that reads back as the envelope, and the
    bytes its [request] decodes to are one valid JSON text that reads back
    as the policy message. *)
Theorem content_key_request_reads_back (wp : Proxy) (contentID : string)
    (policy : Policy.t) (env : gmap string GoVal) :
  forallb is_safe (elems (Policy.Tracks policy)) = true ->
  forallb is_safe (elems (Policy.DRMTypes policy)) = true ->
  is_safe (Policy.Policy policy) = true ->
  is_safe (Provider wp) = true ->
  buildCKMessage wp (setPolicy wp contentID policy) = Some env ->
  exists request signature,
    let payload :=
      map Bytes.to_Z (Body (contentKeyRequest to_LowerCase wp contentID policy)) in
    let inner := map Bytes.to_Z (fst (Base64.DecodeString request)) in
    Scanner.checkValid payload = None
    /\ Parser.parse payload
       = Some (Object [("request", String_ request);
                       ("signature", String_ signature);
                       ("signer", String_ (Provider wp))])
    /\ Scanner.checkValid inner = None
    /\ Parser.parse inner
       = Some (Marshal.of_map (Some (setPolicy wp contentID policy))).
Proof.
  intros Htracks Htypes Hname Hprovider Henv.
  unfold contentKeyRequest, Header_Add, NewRequest. cbn [Body]. cbv zeta.
  rewrite Henv. unfold buildCKMessage in Henv. cbv zeta in Henv.
  destruct (generateSignature wp _) as [sign | e]; [| discriminate].
  injection Henv as <-.
  set (jsonPayload := json_Marshal_map (Some (setPolicy wp contentID policy))).
  exists (Base64.EncodeToString jsonPayload), (Base64.EncodeToString sign).
  cbv zeta. unfold json_Marshal_map at 1 2. rewrite envelope_json.
  destruct (envelope_safe (Base64.EncodeToString jsonPayload) (Provider wp) sign
              (ReadBack.EncodeToString_safe jsonPayload) Hprovider)
    as [Hsafe Hdepth].
  destruct (ReadBack.marshal_reads_back _ Hsafe Hdepth) as [Hvalid Hparse].
  split; [exact Hvalid |]. split; [exact Hparse |].
  rewrite Base64Inverse.DecodeString_EncodeToString. cbn [fst].
  unfold jsonPayload, json_Marshal_map.
  destruct (policy_message_safe wp contentID policy Htracks Htypes Hname)
    as [Hsafe' Hdepth'].
  exact (ReadBack.marshal_reads_back _ Hsafe' Hdepth').
Qed.

End RequestsReadBack.

(** Witness of [license_request_reads_back]: the request of the proxy of
    the tests for the challenge [CAQ=]. *)
Lemma license_request_of_the_tests_reads_back :
  exists msg request signature,
    buildLicenseMessage wv "testing" "CAQ=" = Ok msg
    /\ Scanner.checkValid
         (map Bytes.to_Z (Body (licenseRequest no_case_table wv msg))) = None
    /\ Parser.parse (map Bytes.to_Z (Body (licenseRequest no_case_table wv msg)))
       = Some (Json.Object [("request", Json.String_ request);
                            ("signature", Json.String_ signature);
                            ("signer", Json.String_ "widevine_test")])
    /\ Scanner.checkValid (map Bytes.to_Z (fst (Base64.DecodeString request)))
       = None
    /\ Parser.parse (map Bytes.to_Z (fst (Base64.DecodeString request)))
       = Some (LicenseMessage.to_json (licenseMessage wv "testing" "CAQ=")).
Proof.
  destruct (buildLicenseMessage wv "testing" "CAQ=") as [msg | e] eqn:Hmsg;
    [| vm_compute in Hmsg; discriminate Hmsg].
  destruct (license_request_reads_back no_case_table wv "testing" "CAQ=" msg
              eq_refl eq_refl Hmsg) as (request & signature & H).
  exists msg, request, signature. split; [reflexivity | exact H].
Defined.

(** Witness of [content_key_request_reads_back]: the request of
    [TestGetContentKey]. *)
Lemma content_key_request_of_the_tests_reads_back :
  exists request signature,
    Scanner.checkValid
      (map Bytes.to_Z (Body (contentKeyRequest no_case_table wv "testing" policy)))
    = None
    /\ Parser.parse
         (map Bytes.to_Z
            (Body (contentKeyRequest no_case_table wv "testing" policy)))
       = Some (Json.Object [("request", Json.String_ request);
                            ("signature", Json.String_ signature);
                            ("signer", Json.String_ "widevine_test")])
    /\ Scanner.checkValid (map Bytes.to_Z (fst (Base64.DecodeString request)))
       = None
    /\ Parser.parse (map Bytes.to_Z (fst (Base64.DecodeString request)))
       = Some (Marshal.of_map (Some (setPolicy wv "testing" policy))).
Proof.
  destruct (buildCKMessage wv (setPolicy wv "testing" policy)) as [env |] eqn:Henv;
    [| vm_compute in Henv; discriminate Henv].
  exact (content_key_request_reads_back no_case_table wv "testing" policy env
           eq_refl eq_refl eq_refl eq_refl Henv).
Defined.
